(** * Transaction builders, multi-sig key reconciliation and the wire codec

    A shallow embedding of [packages/transactions/src/builders.ts] together
    with the parts of the transaction model it drives (spending
    conditions, the signer, the envelope codec).  The builders are
    translated from the TypeScript source; the collaborators that live in
    sibling modules of the package ([authorization], [signer],
    [transaction], [keys], [fetch]) are either taken as members of an
    interface or modelled from the written specification, and say so in
    their doc comments. *)

From Stdlib Require Import ZArith List Bool Lia.
From Stdlib.Strings Require Import String Ascii Byte.
From stdpp Require Import base option list sorting gmap strings.

Local Open Scope Z_scope.
Local Open Scope list_scope.

(** ** Results and errors *)

(** The failure taxonomy of the specification (section 7). *)
Inductive ErrorKind :=
| TruncatedInputKind
| UnknownVariantKind
| InvalidAmountKind
| UncompressedKeyNotAllowedKind
| AddressMismatchKind
| NotSponsoredKind
| SignatureVerificationKind
| NotMultiSigKind.

(** What a computation throws.  [JsError msg] is [throw new Error(msg)] with
    the message of the source or of its tests; the other constructors are
    the failures the specification names without giving a message, with the
    data it asks them to carry (a byte offset, the offending tag, the field
    that failed). *)
Inductive Error :=
| JsError (message : string)
| TruncatedInputError (offset : nat)
| UnknownVariantError (tag : byte) (offset : nat)
| InvalidAmountError
| NotSponsoredError
| NotMultiSigError
| SignatureVerificationError (field : nat).

Inductive Result (A : Type) :=
| Ok (a : A)
| Err (e : Error).
Arguments Ok {A} a.
Arguments Err {A} e.

Definition rbind {A B} (m : Result A) (k : A -> Result B) : Result B :=
  match m with
  | Ok a => k a
  | Err e => Err e
  end.

Definition isOk {A} (m : Result A) : bool :=
  match m with Ok _ => true | Err _ => false end.

(** The messages of the errors the package throws, as they appear in
    [builders.ts] and in the assertions of [transaction.test.ts]. *)
Definition MSG_NO_MATCHING_ADDRESS : string :=
  "Failed to find matching multi-sig address given public-keys.".
Definition MSG_NOT_MULTISIG : string :=
  "Transaction is not a multi-sig transaction".
Definition MSG_COMPRESSED_FOR_SEGWIT : string :=
  "Public keys must be compressed for segwit".
Definition MSG_UNCOMPRESSED_NOT_ALLOWED : string :=
  "Uncompressed keys are not allowed in this hash mode".
Definition MSG_INVALID_HEX : string :=
  "Invalid byte sequence".
Definition MSG_NETWORK_REQUIRED_FOR_ABI : string :=
  "Network option must be provided in order to validate with ABI".

(** What the engine throws when a property is read of a value that is
    [undefined]. *)
Definition MSG_UNDEFINED_READ (property : string) : string :=
  String.append "TypeError: Cannot read properties of undefined (reading '"
    (String.append property "')").

(** How the taxonomy of the specification names the errors above. *)
Definition errorKind (e : Error) : option ErrorKind :=
  match e with
  | TruncatedInputError _ => Some TruncatedInputKind
  | UnknownVariantError _ _ => Some UnknownVariantKind
  | InvalidAmountError => Some InvalidAmountKind
  | NotSponsoredError => Some NotSponsoredKind
  | NotMultiSigError => Some NotMultiSigKind
  | SignatureVerificationError _ => Some SignatureVerificationKind
  | JsError m =>
      if String.eqb m MSG_NO_MATCHING_ADDRESS then Some AddressMismatchKind
      else if String.eqb m MSG_NOT_MULTISIG then Some NotMultiSigKind
      else if String.eqb m MSG_COMPRESSED_FOR_SEGWIT then Some UncompressedKeyNotAllowedKind
      else if String.eqb m MSG_UNCOMPRESSED_NOT_ALLOWED then Some UncompressedKeyNotAllowedKind
      else None
  end.

Definition isAddressMismatchError (e : Error) : Prop :=
  errorKind e = Some AddressMismatchKind.
Definition isUncompressedKeyNotAllowedError (e : Error) : Prop :=
  errorKind e = Some UncompressedKeyNotAllowedKind.

(** ** Bytes, big-endian integers and hexadecimal text *)

Definition byteOfZ (n : Z) : byte :=
  match Byte.of_N (Z.to_N (n mod 256)) with
  | Some b => b
  | None => x00
  end.

Definition byteToZ (b : byte) : Z := Z.of_N (Byte.to_N b).

(** [intToBytes n w]: the [w] low-order bytes of [n], most significant
    first. *)
Fixpoint intToBytes (n : Z) (w : nat) : list byte :=
  match w with
  | O => []
  | S w' => byteOfZ (n / 256 ^ Z.of_nat w') :: intToBytes n w'
  end.

Definition bytesToInt (bs : list byte) : Z :=
  fold_left (fun acc b => acc * 256 + byteToZ b) bs 0.

Definition hexDigit (n : Z) : ascii :=
  if n <? 10 then ascii_of_N (Z.to_N (48 + n)) else ascii_of_N (Z.to_N (87 + n)).

Definition hexValue (c : ascii) : option Z :=
  let n := Z.of_N (N_of_ascii c) in
  if (48 <=? n) && (n <=? 57) then Some (n - 48)
  else if (97 <=? n) && (n <=? 102) then Some (n - 87)
  else if (65 <=? n) && (n <=? 70) then Some (n - 55)
  else None.

Fixpoint bytesToHex (bs : list byte) : string :=
  match bs with
  | [] => EmptyString
  | b :: bs' =>
      String (hexDigit (byteToZ b / 16))
        (String (hexDigit (byteToZ b mod 16)) (bytesToHex bs'))
  end.

Fixpoint hexPairs (s : string) : Result (list byte) :=
  match s with
  | EmptyString => Ok []
  | String _ EmptyString => Err (JsError MSG_INVALID_HEX)
  | String c1 (String c2 rest) =>
      match hexValue c1, hexValue c2 with
      | Some h, Some l =>
          match hexPairs rest with
          | Ok bs => Ok (byteOfZ (16 * h + l) :: bs)
          | Err e => Err e
          end
      | _, _ => Err (JsError MSG_INVALID_HEX)
      end
  end.

(** Drops one leading [0x], when there is one. *)
Definition without0x (s : string) : string :=
  match s with
  | String "0" (String "x" rest) => rest
  | _ => s
  end.

(** Modelled from the spec: [hexToBytes] of the common package, which is
    not part of the sources at hand.  Section 6 asks that hexadecimal input
    is accepted with and without the [0x] prefix; a string of odd length is
    read with a leading zero digit. *)
Definition hexToBytes (s : string) : Result (list byte) :=
  let h := without0x s in
  hexPairs (if Nat.odd (String.length h) then String "0" h else h).

(** A field that the model keeps as hexadecimal text ([signer], signature
    data, key data) is written to the wire through [hexBytes]. *)
Definition hexBytes (s : string) : list byte :=
  match hexToBytes s with
  | Ok bs => bs
  | Err _ => []
  end.

(** [s] is the lower-case hexadecimal text of exactly [n] bytes. *)
Definition isHexOfLength (n : nat) (s : string) : bool :=
  match hexToBytes s with
  | Ok bs => Nat.eqb (List.length bs) n && String.eqb (bytesToHex bs) s
  | Err _ => false
  end.

(** ** Wire primitives (specification, section 4.1)

    Modelled from the spec: the byte reader and the length-prefixed
    sequence encoding of the package ([BytesReader], [createLPList] and
    their decoders), which are not part of the sources at hand.  A decoder
    consumes a prefix of the reader and leaves the rest for the next
    decode; it fails with [TruncatedInputError] when fewer bytes remain
    than a declared length demands, and never complains about bytes that
    follow the structure it was asked for. *)

Record BytesReader := mkReader {
  remaining : list byte;
  offset : nat
}.

Definition Decoder (A : Type) : Type := BytesReader -> Result (A * BytesReader).

Definition dret {A} (a : A) : Decoder A := fun r => Ok (a, r).

Definition dbind {A B} (m : Decoder A) (k : A -> Decoder B) : Decoder B :=
  fun r =>
    match m r with
    | Ok (a, r') => k a r'
    | Err e => Err e
    end.

Definition dthrow {A} (e : Error) : Decoder A := fun _ => Err e.

Declare Scope decoder_scope.
Delimit Scope decoder_scope with decoder.
Notation "x <- m ;; k" := (dbind m (fun x => k))
  (at level 100, m at next level, right associativity) : decoder_scope.
Local Open Scope decoder_scope.

(** An unrecognised tag is reported with the offset of the tag byte, which
    is the byte that was read last. *)
Definition unknownVariant {A} (tag : byte) : Decoder A :=
  fun r => Err (UnknownVariantError tag (Nat.pred (offset r))).

Definition readBytes (n : nat) : Decoder (list byte) :=
  fun r =>
    if (n <=? List.length (remaining r))%nat
    then Ok (firstn n (remaining r),
             mkReader (skipn n (remaining r)) (offset r + n))
    else Err (TruncatedInputError (offset r)).

Definition readUInt8 : Decoder byte :=
  fun r =>
    match remaining r with
    | b :: rest => Ok (b, mkReader rest (offset r + 1))
    | [] => Err (TruncatedInputError (offset r))
    end.

(** A big-endian unsigned integer of [w] bytes. *)
Definition readInt (w : nat) : Decoder Z :=
  bs <- readBytes w ;; dret (bytesToInt bs).

(** Bytes kept in the model as lower-case hexadecimal text. *)
Definition readHex (n : nat) : Decoder string :=
  bs <- readBytes n ;; dret (bytesToHex bs).

Fixpoint readMany {A} (n : nat) (d : Decoder A) : Decoder (list A) :=
  match n with
  | O => dret []
  | S n' => x <- d ;; xs <- readMany n' d ;; dret (x :: xs)
  end.

(** A sequence: a 4-byte big-endian element count, then the elements. *)
Definition serializeLPList {A} (enc : A -> list byte) (xs : list A) : list byte :=
  intToBytes (Z.of_nat (List.length xs)) 4 ++ concat (map enc xs).

Definition deserializeLPList {A} (d : Decoder A) : Decoder (list A) :=
  n <- readInt 4 ;; readMany (Z.to_nat n) d.

(** A string with a length prefix of [w] bytes. *)
Definition serializeLPString (w : nat) (s : string) : list byte :=
  intToBytes (Z.of_nat (String.length s)) w ++ list_byte_of_string s.

Definition deserializeLPString (w : nat) : Decoder string :=
  n <- readInt w ;; bs <- readBytes (Z.to_nat n) ;; dret (string_of_list_byte bs).

(** ** The data model (specification, section 3) *)

Inductive PubKeyEncoding := Compressed | Uncompressed.

Inductive SingleSigHashMode := SerializeP2PKH | SerializeP2WPKH.

Inductive MultiSigHashMode :=
| SerializeP2SH
| SerializeP2WSH
| SerializeP2SHNonSequential.

(** [AddressHashMode] of the source is the union of the two. *)
Inductive AddressHashMode :=
| SingleSigMode (m : SingleSigHashMode)
| MultiSigMode (m : MultiSigHashMode).

(** The hash modes that refuse uncompressed keys. *)
Definition segwitSingle (m : SingleSigHashMode) : bool :=
  match m with SerializeP2WPKH => true | SerializeP2PKH => false end.
Definition segwitMulti (m : MultiSigHashMode) : bool :=
  match m with SerializeP2WSH => true | _ => false end.

(** One slot of a multi-sig condition: a bare public key or a recoverable
    signature; either one records how the key it stands for is encoded. *)
Inductive TransactionAuthField :=
| PublicKeyField (pubKeyEncoding : PubKeyEncoding) (data : string)
| SignatureField (pubKeyEncoding : PubKeyEncoding) (data : string).

Inductive FieldTag := SignatureTag | PublicKeyTag.

Definition fieldTag (f : TransactionAuthField) : FieldTag :=
  match f with
  | PublicKeyField _ _ => PublicKeyTag
  | SignatureField _ _ => SignatureTag
  end.

Definition fieldEncoding (f : TransactionAuthField) : PubKeyEncoding :=
  match f with
  | PublicKeyField e _ => e
  | SignatureField e _ => e
  end.

Inductive SpendingCondition :=
| SingleSig (hashMode : SingleSigHashMode) (signer : string) (nonce fee : Z)
    (keyEncoding : PubKeyEncoding) (signature : string)
| MultiSig (hashMode : MultiSigHashMode) (signer : string) (nonce fee : Z)
    (fields : list TransactionAuthField) (signaturesRequired : Z).

Definition isSingleSig (c : SpendingCondition) : bool :=
  match c with SingleSig _ _ _ _ _ _ => true | MultiSig _ _ _ _ _ _ => false end.

Definition signerOf (c : SpendingCondition) : string :=
  match c with
  | SingleSig _ s _ _ _ _ => s
  | MultiSig _ s _ _ _ _ => s
  end.

Definition nonceOf (c : SpendingCondition) : Z :=
  match c with
  | SingleSig _ _ n _ _ _ => n
  | MultiSig _ _ n _ _ _ => n
  end.

Definition feeOf (c : SpendingCondition) : Z :=
  match c with
  | SingleSig _ _ _ f _ _ => f
  | MultiSig _ _ _ f _ _ => f
  end.

Definition hashModeOf (c : SpendingCondition) : AddressHashMode :=
  match c with
  | SingleSig m _ _ _ _ _ => SingleSigMode m
  | MultiSig m _ _ _ _ _ => MultiSigMode m
  end.

Definition fieldsOf (c : SpendingCondition) : list TransactionAuthField :=
  match c with
  | SingleSig _ _ _ _ _ _ => []
  | MultiSig _ _ _ _ fs _ => fs
  end.

Definition withFee (f : Z) (c : SpendingCondition) : SpendingCondition :=
  match c with
  | SingleSig m s n _ k sig => SingleSig m s n f k sig
  | MultiSig m s n _ fs r => MultiSig m s n f fs r
  end.

Definition withNonce (n : Z) (c : SpendingCondition) : SpendingCondition :=
  match c with
  | SingleSig m s _ f k sig => SingleSig m s n f k sig
  | MultiSig m s _ f fs r => MultiSig m s n f fs r
  end.

Inductive AuthType := Standard | Sponsored.

Inductive Authorization :=
| StandardAuth (spendingCondition : SpendingCondition)
| SponsoredAuth (spendingCondition sponsorSpendingCondition : SpendingCondition).

Definition authType (a : Authorization) : AuthType :=
  match a with
  | StandardAuth _ => Standard
  | SponsoredAuth _ _ => Sponsored
  end.

(** [auth.spendingCondition]: the origin's condition, in either variant. *)
Definition spendingCondition (a : Authorization) : SpendingCondition :=
  match a with
  | StandardAuth c => c
  | SponsoredAuth c _ => c
  end.

Inductive AnchorMode := OnChainOnly | OffChainOnly | Any.
Inductive PostConditionMode := Allow | Deny.
Inductive ClarityVersion := Clarity1 | Clarity2 | Clarity3.

Record AddressWire := mkAddress {
  version : Z;
  hash160 : string
}.

Inductive PrincipalCV :=
| StandardPrincipalCV (address : AddressWire)
| ContractPrincipalCV (address : AddressWire) (contractName : string).

Inductive PostConditionPrincipal :=
| OriginPrincipal
| StandardPrincipal (address : AddressWire)
| ContractPrincipal (address : AddressWire) (contractName : string).

Record AssetWire := mkAsset {
  assetAddress : AddressWire;
  assetContractName : string;
  assetName : string
}.

Inductive FungibleConditionCode :=
| Equal | Greater | GreaterEqual | Less | LessEqual.

Inductive NonFungibleConditionCode := Sends | DoesNotSend.

(** The values of contract-call arguments and of non-fungible asset names
    reach the envelope already encoded (section 3); their codec is a
    collaborator of the envelope codec. *)
Class ClarityCodec := {
  ClarityValue : Type;
  serializeCV : ClarityValue -> list byte;
  deserializeCV : Decoder ClarityValue
}.

Section Envelope.
Context `{ClarityCodec}.

Inductive PostConditionWire :=
| STXPostConditionWire (principal : PostConditionPrincipal)
    (conditionCode : FungibleConditionCode) (amount : Z)
| FungiblePostConditionWire (principal : PostConditionPrincipal) (asset : AssetWire)
    (conditionCode : FungibleConditionCode) (amount : Z)
| NonFungiblePostConditionWire (principal : PostConditionPrincipal) (asset : AssetWire)
    (assetId : ClarityValue) (conditionCode : NonFungibleConditionCode).

Inductive Payload :=
| TokenTransferPayload (recipient : PrincipalCV) (amount : Z) (memo : string)
| SmartContractPayload (contractName codeBody : string)
    (clarityVersion : option ClarityVersion)
| ContractCallPayload (contractAddress : AddressWire)
    (contractName functionName : string) (functionArgs : list ClarityValue)
| CoinbasePayload (coinbaseBytes : list byte)
| CoinbaseToAltRecipientPayload (coinbaseBytes : list byte) (recipient : PrincipalCV).

Inductive PayloadType :=
| TokenTransfer | SmartContract | VersionedSmartContract | ContractCall
| Coinbase | CoinbaseToAltRecipient.

Definition payloadType (p : Payload) : PayloadType :=
  match p with
  | TokenTransferPayload _ _ _ => TokenTransfer
  | SmartContractPayload _ _ None => SmartContract
  | SmartContractPayload _ _ (Some _) => VersionedSmartContract
  | ContractCallPayload _ _ _ _ => ContractCall
  | CoinbasePayload _ => Coinbase
  | CoinbaseToAltRecipientPayload _ _ => CoinbaseToAltRecipient
  end.

(** The transaction envelope. *)
Record StacksTransaction := mkTransaction {
  txVersion : Z;
  chainId : Z;
  auth : Authorization;
  payload : Payload;
  postConditions : list PostConditionWire;
  postConditionMode : PostConditionMode;
  anchorMode : AnchorMode
}.

(** ** The envelope codec (specification, section 4.4)

    Modelled from the spec: [serializeTransaction] and
    [deserializeTransaction] of the package's [transaction] module and the
    per-variant codecs they dispatch to, none of which is part of the
    sources at hand.  The layout is the one of section 4.4; the tag values
    and the widths the specification leaves open are the ones that can be
    read off the serialized transactions of [transaction.test.ts]. *)

Definition MEMO_MAX_LENGTH_BYTES : nat := 34.
Definition HASH160_BYTES : nat := 20.
Definition RECOVERABLE_SIGNATURE_BYTES : nat := 65.
Definition COMPRESSED_PUBKEY_BYTES : nat := 33.
Definition COINBASE_BYTES : nat := 32.

Definition serializeAddress (a : AddressWire) : list byte :=
  byteOfZ (version a) :: hexBytes (hash160 a).

Definition deserializeAddress : Decoder AddressWire :=
  v <- readInt 1 ;; h <- readHex HASH160_BYTES ;; dret (mkAddress v h).

Definition serializePrincipalCV (p : PrincipalCV) : list byte :=
  match p with
  | StandardPrincipalCV a => x05 :: serializeAddress a
  | ContractPrincipalCV a n => x06 :: serializeAddress a ++ serializeLPString 1 n
  end.

Definition deserializePrincipalCV : Decoder PrincipalCV :=
  t <- readUInt8 ;;
  match t with
  | x05 => a <- deserializeAddress ;; dret (StandardPrincipalCV a)
  | x06 =>
      a <- deserializeAddress ;;
      n <- deserializeLPString 1 ;;
      dret (ContractPrincipalCV a n)
  | _ => unknownVariant t
  end.

Definition serializePrincipal (p : PostConditionPrincipal) : list byte :=
  match p with
  | OriginPrincipal => [x01]
  | StandardPrincipal a => x02 :: serializeAddress a
  | ContractPrincipal a n => x03 :: serializeAddress a ++ serializeLPString 1 n
  end.

Definition deserializePrincipal : Decoder PostConditionPrincipal :=
  t <- readUInt8 ;;
  match t with
  | x01 => dret OriginPrincipal
  | x02 => a <- deserializeAddress ;; dret (StandardPrincipal a)
  | x03 =>
      a <- deserializeAddress ;;
      n <- deserializeLPString 1 ;;
      dret (ContractPrincipal a n)
  | _ => unknownVariant t
  end.

Definition serializeAsset (a : AssetWire) : list byte :=
  serializeAddress (assetAddress a)
    ++ serializeLPString 1 (assetContractName a)
    ++ serializeLPString 1 (assetName a).

Definition deserializeAsset : Decoder AssetWire :=
  a <- deserializeAddress ;;
  c <- deserializeLPString 1 ;;
  n <- deserializeLPString 1 ;;
  dret (mkAsset a c n).

Definition fungibleCodeByte (c : FungibleConditionCode) : byte :=
  match c with
  | Equal => x01 | Greater => x02 | GreaterEqual => x03
  | Less => x04 | LessEqual => x05
  end.

Definition readFungibleCode : Decoder FungibleConditionCode :=
  t <- readUInt8 ;;
  match t with
  | x01 => dret Equal | x02 => dret Greater | x03 => dret GreaterEqual
  | x04 => dret Less | x05 => dret LessEqual
  | _ => unknownVariant t
  end.

Definition nonFungibleCodeByte (c : NonFungibleConditionCode) : byte :=
  match c with Sends => x10 | DoesNotSend => x11 end.

Definition readNonFungibleCode : Decoder NonFungibleConditionCode :=
  t <- readUInt8 ;;
  match t with
  | x10 => dret Sends | x11 => dret DoesNotSend
  | _ => unknownVariant t
  end.

Definition serializePostCondition (pc : PostConditionWire) : list byte :=
  match pc with
  | STXPostConditionWire p c n =>
      x00 :: serializePrincipal p ++ fungibleCodeByte c :: intToBytes n 8
  | FungiblePostConditionWire p a c n =>
      x01 :: serializePrincipal p ++ serializeAsset a
        ++ fungibleCodeByte c :: intToBytes n 8
  | NonFungiblePostConditionWire p a v c =>
      x02 :: serializePrincipal p ++ serializeAsset a
        ++ serializeCV v ++ [nonFungibleCodeByte c]
  end.

Definition deserializePostCondition : Decoder PostConditionWire :=
  t <- readUInt8 ;;
  match t with
  | x00 =>
      p <- deserializePrincipal ;;
      c <- readFungibleCode ;;
      n <- readInt 8 ;;
      dret (STXPostConditionWire p c n)
  | x01 =>
      p <- deserializePrincipal ;;
      a <- deserializeAsset ;;
      c <- readFungibleCode ;;
      n <- readInt 8 ;;
      dret (FungiblePostConditionWire p a c n)
  | x02 =>
      p <- deserializePrincipal ;;
      a <- deserializeAsset ;;
      v <- deserializeCV ;;
      c <- readNonFungibleCode ;;
      dret (NonFungiblePostConditionWire p a v c)
  | _ => unknownVariant t
  end.

(** The memo travels as exactly 34 bytes, padded with zero bytes, and is
    read back without the padding. *)
Definition serializeMemo (m : string) : list byte :=
  let bs := list_byte_of_string m in
  bs ++ repeat x00 (MEMO_MAX_LENGTH_BYTES - List.length bs).

Fixpoint stripTrailingNulls (bs : list byte) : list byte :=
  match bs with
  | [] => []
  | b :: rest =>
      match stripTrailingNulls rest with
      | [] => match b with x00 => [] | _ => [b] end
      | rest' => b :: rest'
      end
  end.

Definition deserializeMemo : Decoder string :=
  bs <- readBytes MEMO_MAX_LENGTH_BYTES ;;
  dret (string_of_list_byte (stripTrailingNulls bs)).

Definition clarityVersionByte (v : ClarityVersion) : byte :=
  match v with Clarity1 => x01 | Clarity2 => x02 | Clarity3 => x03 end.

Definition readClarityVersion : Decoder ClarityVersion :=
  t <- readUInt8 ;;
  match t with
  | x01 => dret Clarity1 | x02 => dret Clarity2 | x03 => dret Clarity3
  | _ => unknownVariant t
  end.

Definition serializePayload (p : Payload) : list byte :=
  match p with
  | TokenTransferPayload r n m =>
      x00 :: serializePrincipalCV r ++ intToBytes n 8 ++ serializeMemo m
  | SmartContractPayload name code None =>
      x01 :: serializeLPString 1 name ++ serializeLPString 4 code
  | SmartContractPayload name code (Some v) =>
      x06 :: clarityVersionByte v :: serializeLPString 1 name ++ serializeLPString 4 code
  | ContractCallPayload a c f args =>
      x02 :: serializeAddress a ++ serializeLPString 1 c ++ serializeLPString 1 f
        ++ serializeLPList serializeCV args
  | CoinbasePayload bs => x04 :: bs
  | CoinbaseToAltRecipientPayload bs r => x05 :: bs ++ serializePrincipalCV r
  end.

Definition deserializePayload : Decoder Payload :=
  t <- readUInt8 ;;
  match t with
  | x00 =>
      r <- deserializePrincipalCV ;;
      n <- readInt 8 ;;
      m <- deserializeMemo ;;
      dret (TokenTransferPayload r n m)
  | x01 =>
      name <- deserializeLPString 1 ;;
      code <- deserializeLPString 4 ;;
      dret (SmartContractPayload name code None)
  | x06 =>
      v <- readClarityVersion ;;
      name <- deserializeLPString 1 ;;
      code <- deserializeLPString 4 ;;
      dret (SmartContractPayload name code (Some v))
  | x02 =>
      a <- deserializeAddress ;;
      c <- deserializeLPString 1 ;;
      f <- deserializeLPString 1 ;;
      args <- deserializeLPList deserializeCV ;;
      dret (ContractCallPayload a c f args)
  | x04 =>
      bs <- readBytes COINBASE_BYTES ;; dret (CoinbasePayload bs)
  | x05 =>
      bs <- readBytes COINBASE_BYTES ;;
      r <- deserializePrincipalCV ;;
      dret (CoinbaseToAltRecipientPayload bs r)
  | _ => unknownVariant t
  end.

Definition singleHashModeByte (m : SingleSigHashMode) : byte :=
  match m with SerializeP2PKH => x00 | SerializeP2WPKH => x02 end.

Definition multiHashModeByte (m : MultiSigHashMode) : byte :=
  match m with
  | SerializeP2SH => x01
  | SerializeP2WSH => x03
  | SerializeP2SHNonSequential => x05
  end.

Definition keyEncodingByte (e : PubKeyEncoding) : byte :=
  match e with Compressed => x00 | Uncompressed => x01 end.

Definition readKeyEncoding : Decoder PubKeyEncoding :=
  t <- readUInt8 ;;
  match t with
  | x00 => dret Compressed | x01 => dret Uncompressed
  | _ => unknownVariant t
  end.

(** An auth field: one tag byte that tells a signature from a public key
    (and the key's encoding), then the 33 bytes of a compressed key or the
    65 bytes of a recoverable signature. *)
Definition serializeAuthField (f : TransactionAuthField) : list byte :=
  match f with
  | PublicKeyField Compressed d => x00 :: hexBytes d
  | PublicKeyField Uncompressed d => x01 :: hexBytes d
  | SignatureField Compressed d => x02 :: hexBytes d
  | SignatureField Uncompressed d => x03 :: hexBytes d
  end.

Definition deserializeAuthField : Decoder TransactionAuthField :=
  t <- readUInt8 ;;
  match t with
  | x00 => d <- readHex COMPRESSED_PUBKEY_BYTES ;; dret (PublicKeyField Compressed d)
  | x01 => d <- readHex COMPRESSED_PUBKEY_BYTES ;; dret (PublicKeyField Uncompressed d)
  | x02 => d <- readHex RECOVERABLE_SIGNATURE_BYTES ;; dret (SignatureField Compressed d)
  | x03 => d <- readHex RECOVERABLE_SIGNATURE_BYTES ;; dret (SignatureField Uncompressed d)
  | _ => unknownVariant t
  end.

Definition isUncompressed (e : PubKeyEncoding) : bool :=
  match e with Uncompressed => true | Compressed => false end.

(** Some field stands for an uncompressed key. *)
Definition haveUncompressed (fs : list TransactionAuthField) : bool :=
  existsb (fun f => isUncompressed (fieldEncoding f)) fs.

Definition serializeSpendingCondition (c : SpendingCondition) : list byte :=
  match c with
  | SingleSig m s n f k sig =>
      singleHashModeByte m :: hexBytes s ++ intToBytes n 8 ++ intToBytes f 8
        ++ keyEncodingByte k :: hexBytes sig
  | MultiSig m s n f fs r =>
      multiHashModeByte m :: hexBytes s ++ intToBytes n 8 ++ intToBytes f 8
        ++ serializeLPList serializeAuthField fs ++ intToBytes r 2
  end.

Definition deserializeSingleSig (m : SingleSigHashMode) : Decoder SpendingCondition :=
  s <- readHex HASH160_BYTES ;;
  n <- readInt 8 ;;
  f <- readInt 8 ;;
  k <- readKeyEncoding ;;
  sig <- readHex RECOVERABLE_SIGNATURE_BYTES ;;
  dret (SingleSig m s n f k sig).

(** The fields are read one by one, each by its own tag, then the
    required-signature count; a partially signed condition decodes.  The
    assertion of [transaction.test.ts] (line 323) fixes the one check made
    here: uncompressed keys under a segwit hash mode are refused. *)
Definition deserializeMultiSig (m : MultiSigHashMode) : Decoder SpendingCondition :=
  s <- readHex HASH160_BYTES ;;
  n <- readInt 8 ;;
  f <- readInt 8 ;;
  fs <- deserializeLPList deserializeAuthField ;;
  r <- readInt 2 ;;
  if haveUncompressed fs && segwitMulti m
  then dthrow (JsError MSG_UNCOMPRESSED_NOT_ALLOWED)
  else dret (MultiSig m s n f fs r).

Definition deserializeSpendingCondition : Decoder SpendingCondition :=
  t <- readUInt8 ;;
  match t with
  | x00 => deserializeSingleSig SerializeP2PKH
  | x02 => deserializeSingleSig SerializeP2WPKH
  | x01 => deserializeMultiSig SerializeP2SH
  | x03 => deserializeMultiSig SerializeP2WSH
  | x05 => deserializeMultiSig SerializeP2SHNonSequential
  | _ => unknownVariant t
  end.

Definition serializeAuthorization (a : Authorization) : list byte :=
  match a with
  | StandardAuth c => x04 :: serializeSpendingCondition c
  | SponsoredAuth c s =>
      x05 :: serializeSpendingCondition c ++ serializeSpendingCondition s
  end.

Definition deserializeAuthorization : Decoder Authorization :=
  t <- readUInt8 ;;
  match t with
  | x04 => c <- deserializeSpendingCondition ;; dret (StandardAuth c)
  | x05 =>
      c <- deserializeSpendingCondition ;;
      s <- deserializeSpendingCondition ;;
      dret (SponsoredAuth c s)
  | _ => unknownVariant t
  end.

Definition anchorModeByte (m : AnchorMode) : byte :=
  match m with OnChainOnly => x01 | OffChainOnly => x02 | Any => x03 end.

Definition readAnchorMode : Decoder AnchorMode :=
  t <- readUInt8 ;;
  match t with
  | x01 => dret OnChainOnly | x02 => dret OffChainOnly | x03 => dret Any
  | _ => unknownVariant t
  end.

Definition postConditionModeByte (m : PostConditionMode) : byte :=
  match m with Allow => x01 | Deny => x02 end.

Definition readPostConditionMode : Decoder PostConditionMode :=
  t <- readUInt8 ;;
  match t with
  | x01 => dret Allow | x02 => dret Deny
  | _ => unknownVariant t
  end.

(** [TransactionVersion] and [ChainID] of the network constants. *)
Definition TransactionVersion_Mainnet : Z := 0x00.
Definition TransactionVersion_Testnet : Z := 0x80.
Definition ChainID_Testnet : Z := 0x80000000.
Definition ChainID_Mainnet : Z := 0x00000001.

Definition readTransactionVersion : Decoder Z :=
  t <- readUInt8 ;;
  match t with
  | x00 => dret TransactionVersion_Mainnet
  | x80 => dret TransactionVersion_Testnet
  | _ => unknownVariant t
  end.

(** [serializeBytes]: version, chain id, authorization, anchor mode,
    post-condition mode, post-conditions, payload. *)
Definition serializeBytes (tx : StacksTransaction) : list byte :=
  byteOfZ (txVersion tx) :: intToBytes (chainId tx) 4
    ++ serializeAuthorization (auth tx)
    ++ anchorModeByte (anchorMode tx) :: postConditionModeByte (postConditionMode tx)
    :: serializeLPList serializePostCondition (postConditions tx)
    ++ serializePayload (payload tx).

Definition readTransaction : Decoder StacksTransaction :=
  v <- readTransactionVersion ;;
  c <- readInt 4 ;;
  a <- deserializeAuthorization ;;
  am <- readAnchorMode ;;
  pm <- readPostConditionMode ;;
  pcs <- deserializeLPList deserializePostCondition ;;
  p <- deserializePayload ;;
  dret (mkTransaction v c a p pcs pm am).

(** [serialize]: the hexadecimal text of [serializeBytes]. *)
Definition serialize (tx : StacksTransaction) : string :=
  bytesToHex (serializeBytes tx).

(** What [deserializeTransaction] accepts: a reader, bytes, or hexadecimal
    text with or without [0x]. *)
Inductive SerializedInput :=
| FromReader (r : BytesReader)
| FromBytes (bs : list byte)
| FromHex (s : string).

Definition deserializeTransaction (i : SerializedInput) : Result StacksTransaction :=
  let run r := match readTransaction r with
               | Ok (tx, _) => Ok tx
               | Err e => Err e
               end in
  match i with
  | FromReader r => run r
  | FromBytes bs => run (mkReader bs 0)
  | FromHex s => rbind (hexToBytes s) (fun bs => run (mkReader bs 0))
  end.

(** ** Structural validity

    What the wire format can carry: every integer fits its width, every
    hexadecimal field has its length, every counted sequence or string fits
    its length prefix, a memo has at most 34 bytes, and a segwit multi-sig
    condition holds no uncompressed key. *)

Definition isUInt (w : nat) (n : Z) : bool :=
  (0 <=? n) && (n <? 256 ^ Z.of_nat w).

Definition fitsPrefix (w : nat) (len : nat) : bool :=
  Z.of_nat len <? 256 ^ Z.of_nat w.

Definition validAddress (a : AddressWire) : bool :=
  isUInt 1 (version a) && isHexOfLength HASH160_BYTES (hash160 a).

Definition validName (s : string) : bool := fitsPrefix 1 (String.length s).

Definition validPrincipalCV (p : PrincipalCV) : bool :=
  match p with
  | StandardPrincipalCV a => validAddress a
  | ContractPrincipalCV a n => validAddress a && validName n
  end.

Definition validPrincipal (p : PostConditionPrincipal) : bool :=
  match p with
  | OriginPrincipal => true
  | StandardPrincipal a => validAddress a
  | ContractPrincipal a n => validAddress a && validName n
  end.

Definition validAsset (a : AssetWire) : bool :=
  validAddress (assetAddress a) && validName (assetContractName a)
    && validName (assetName a).

Definition validPostCondition (pc : PostConditionWire) : bool :=
  match pc with
  | STXPostConditionWire p _ n => validPrincipal p && isUInt 8 n
  | FungiblePostConditionWire p a _ n => validPrincipal p && validAsset a && isUInt 8 n
  | NonFungiblePostConditionWire p a _ _ => validPrincipal p && validAsset a
  end.

Definition validMemo (m : string) : bool :=
  (List.length (list_byte_of_string m) <=? MEMO_MAX_LENGTH_BYTES)%nat.

Definition validPayload (p : Payload) : bool :=
  match p with
  | TokenTransferPayload r n m => validPrincipalCV r && isUInt 8 n && validMemo m
  | SmartContractPayload name code _ =>
      validName name && fitsPrefix 4 (String.length code)
  | ContractCallPayload a c f args =>
      validAddress a && validName c && validName f && fitsPrefix 4 (List.length args)
  | CoinbasePayload bs => Nat.eqb (List.length bs) COINBASE_BYTES
  | CoinbaseToAltRecipientPayload bs r =>
      Nat.eqb (List.length bs) COINBASE_BYTES && validPrincipalCV r
  end.

Definition validAuthField (f : TransactionAuthField) : bool :=
  match f with
  | PublicKeyField _ d => isHexOfLength COMPRESSED_PUBKEY_BYTES d
  | SignatureField _ d => isHexOfLength RECOVERABLE_SIGNATURE_BYTES d
  end.

(** Every part of the condition fits its place on the wire. *)
Definition wellFormedCondition (c : SpendingCondition) : bool :=
  match c with
  | SingleSig _ s n f _ sig =>
      isHexOfLength HASH160_BYTES s && isUInt 8 n && isUInt 8 f
        && isHexOfLength RECOVERABLE_SIGNATURE_BYTES sig
  | MultiSig m s n f fs r =>
      isHexOfLength HASH160_BYTES s && isUInt 8 n && isUInt 8 f
        && forallb validAuthField fs && fitsPrefix 4 (List.length fs)
        && isUInt 2 r
  end.

(** No uncompressed key under a segwit multi-sig hash mode. *)
Definition compressionRule (c : SpendingCondition) : bool :=
  match c with
  | SingleSig _ _ _ _ _ _ => true
  | MultiSig m _ _ _ fs _ => negb (haveUncompressed fs && segwitMulti m)
  end.

Definition validSpendingCondition (c : SpendingCondition) : bool :=
  wellFormedCondition c && compressionRule c.

Definition validAuthorization (a : Authorization) : bool :=
  match a with
  | StandardAuth c => validSpendingCondition c
  | SponsoredAuth c s => validSpendingCondition c && validSpendingCondition s
  end.

Definition validVersion (v : Z) : bool :=
  (v =? TransactionVersion_Mainnet) || (v =? TransactionVersion_Testnet).

Definition validTransaction (tx : StacksTransaction) : bool :=
  validVersion (txVersion tx) && isUInt 4 (chainId tx)
    && validAuthorization (auth tx)
    && forallb validPostCondition (postConditions tx)
    && fitsPrefix 4 (List.length (postConditions tx))
    && validPayload (payload tx).




(** The memo without the zero bytes at its end. *)
Definition withoutTrailingZeroBytes (m : string) : string :=
  string_of_list_byte (stripTrailingNulls (list_byte_of_string m)).

(** The envelope as it is read back from its bytes: the memo of a token
    transfer without the zero bytes at its end, everything else as it
    is. *)
Definition payloadReadBack (p : Payload) : Payload :=
  match p with
  | TokenTransferPayload r n m => TokenTransferPayload r n (withoutTrailingZeroBytes m)
  | _ => p
  end.

Definition readBack (tx : StacksTransaction) : StacksTransaction :=
  mkTransaction (txVersion tx) (chainId tx) (auth tx) (payloadReadBack (payload tx))
    (postConditions tx) (postConditionMode tx) (anchorMode tx).

(** The law asked of the value codec: a value that was written is read
    back, and the bytes behind it are left in the reader. *)
Definition ClarityCodecRoundTrip : Prop :=
  forall (v : ClarityValue) (rest : list byte) (off : nat),
    deserializeCV (mkReader (serializeCV v ++ rest) off)
    = Ok (v, mkReader rest (off + List.length (serializeCV v))).

(** ** Mutators of the envelope

    Modelled from the spec: [setFee], [setNonce] and [setSponsor] of the
    [transaction] module (section 3): they rewrite the fee or nonce of the
    active spending condition and nothing else.  The fee is paid by the
    sponsor when there is one; the nonce is the origin's. *)

Definition withAuth (a : Authorization) (tx : StacksTransaction) : StacksTransaction :=
  mkTransaction (txVersion tx) (chainId tx) a (payload tx) (postConditions tx)
    (postConditionMode tx) (anchorMode tx).

(** The condition whose fee the transaction pays. *)
Definition feeCondition (a : Authorization) : SpendingCondition :=
  match a with
  | StandardAuth c => c
  | SponsoredAuth _ s => s
  end.

Definition setFee (amount : Z) (tx : StacksTransaction) : StacksTransaction :=
  withAuth
    match auth tx with
    | StandardAuth c => StandardAuth (withFee amount c)
    | SponsoredAuth c s => SponsoredAuth c (withFee amount s)
    end tx.

Definition setNonce (n : Z) (tx : StacksTransaction) : StacksTransaction :=
  withAuth
    match auth tx with
    | StandardAuth c => StandardAuth (withNonce n c)
    | SponsoredAuth c s => SponsoredAuth (withNonce n c) s
    end tx.

Definition setSponsor (sponsor : SpendingCondition) (tx : StacksTransaction)
  : Result StacksTransaction :=
  match auth tx with
  | StandardAuth _ => Err NotSponsoredError
  | SponsoredAuth c _ => Ok (withAuth (SponsoredAuth c sponsor) tx)
  end.

(** The forms in which a serialized envelope reaches
    [deserializeTransaction]: a reader over its bytes, the bytes, their
    hexadecimal text, and that text behind [0x]. *)
Definition serializedForms (tx : StacksTransaction) : list SerializedInput :=
  [ FromReader (mkReader (serializeBytes tx) 0);
    FromBytes (serializeBytes tx);
    FromHex (serialize tx);
    FromHex (String "0" (String "x" (serialize tx))) ].

(** The signatures and bare keys an authorization holds, the origin's
    first. *)
Definition authFieldsOf (c : SpendingCondition) : list TransactionAuthField :=
  match c with
  | SingleSig _ _ _ _ k sig => [SignatureField k sig]
  | MultiSig _ _ _ _ fs _ => fs
  end.


End Envelope.

(** The smallest value codec: the two boolean values, one tag byte each. *)
Definition boolCodec : ClarityCodec := {|
  ClarityValue := bool;
  serializeCV := fun b => [if b then x03 else x04];
  deserializeCV :=
    t <- readUInt8 ;;
    match t with
    | x03 => dret true
    | x04 => dret false
    | _ => unknownVariant t
    end
|}.

(** ** Arrays of strings and their default sort

    [Array.prototype.sort()] without a comparator orders strings by their
    code units.  Any sorting algorithm gives the same array, because a list
    has one sorted arrangement under a total, antisymmetric order
    ([jsSort_unique] below); merge sort is the one written here. *)

Definition jsStringLe (a b : string) : Prop := String.leb a b = true.

#[global] Instance jsStringLe_dec (a b : string) : Decision (jsStringLe a b) :=
  decide (String.leb a b = true).

Definition jsSort (l : list string) : list string := merge_sort jsStringLe l.

(** The heap of string arrays: an array is an object with an identity, and
    [slice] makes a new one while [sort] rewrites the one it is called
    on. *)
Definition loc : Type := positive.

Definition HeapM (A : Type) : Type :=
  gmap loc (list string) -> Result (A * gmap loc (list string)).

Definition hret {A} (a : A) : HeapM A := fun h => Ok (a, h).

Definition hbind {A B} (m : HeapM A) (k : A -> HeapM B) : HeapM B :=
  fun h =>
    match m h with
    | Ok (a, h') => k a h'
    | Err e => Err e
    end.

Definition hthrow {A} (e : Error) : HeapM A := fun _ => Err e.

(** A computation that does not touch the heap. *)
Definition hlift {A} (r : Result A) : HeapM A :=
  fun h =>
    match r with
    | Ok a => Ok (a, h)
    | Err e => Err e
    end.

Definition MSG_NOT_AN_ARRAY : string := "TypeError: not an array".

(** The elements of the array at [l]. *)
Definition readArray (l : loc) : HeapM (list string) :=
  fun h =>
    match h !! l with
    | Some v => Ok (v, h)
    | None => Err (JsError MSG_NOT_AN_ARRAY)
    end.

(** [new Array]: a location that is not in use. *)
Definition allocArray (v : list string) : HeapM loc :=
  fun h => let l := fresh (dom h) in Ok (l, <[l := v]> h).

(** [a.slice()]: a fresh array with the elements of [a]. *)
Definition arraySlice (l : loc) : HeapM loc :=
  hbind (readArray l) allocArray.

(** [a.sort()]: sorts [a] in place and returns [a] itself. *)
Definition arraySort (l : loc) : HeapM loc :=
  fun h =>
    match h !! l with
    | Some v => Ok (l, <[l := jsSort v]> h)
    | None => Err (JsError MSG_NOT_AN_ARRAY)
    end.

(** ** Networks ([@stacks/network]) *)

Inductive StacksNetworkName := mainnet | testnet | devnet | mocknet.

Record AddressVersions := mkAddressVersions {
  singleSig : Z;
  multiSig : Z
}.

Module Network.
Record StacksNetwork := mkNetwork {
  chainId : Z;
  transactionVersion : Z;
  peerNetworkId : Z;
  magicBytes : string;
  addressVersion : AddressVersions
}.
End Network.
Import Network (StacksNetwork).

Definition PeerNetworkID_Mainnet : Z := 0x17000000.
Definition PeerNetworkID_Testnet : Z := 0xff000000.

(** A public key: the curve point in its compressed form, and the encoding
    the key was given in. *)
Record PublicKeyWire := mkPublicKey {
  keyEncoding : PubKeyEncoding;
  keyData : string
}.

Definition isCompressed (k : PublicKeyWire) : bool :=
  negb (isUncompressed (keyEncoding k)).

(** ** The collaborators of the builders

    The functions of the sibling modules ([keys], [types],
    [postcondition], [utils], the [c32check] package) and the constants of
    the network package that the builders use and that are not part of the
    sources at hand. *)
Class Environment `{ClarityCodec} := {
  (** the readers of keys and addresses, on the well-formed text they are
      given: hexadecimal keys and c32 addresses *)
  createStacksPublicKey : string -> PublicKeyWire;
  privateKeyToPublic : string -> string;
  (** [addressFromPublicKeys] of the [keys] module throws for the key
      lists it does not accept (an empty list is one) and returns an address
      for the others: [addressRefusal] is what it throws, when it throws,
      and [addressOfPublicKeys] is the address it returns *)
  addressRefusal : Z -> AddressHashMode -> Z -> list PublicKeyWire -> option Error;
  addressOfPublicKeys :
    Z -> AddressHashMode -> Z -> list PublicKeyWire -> AddressWire;
  createAddress : string -> AddressWire;
  c32address : Z -> string -> string;
  principalCV : string -> PrincipalCV;
  (** signing: the hash of a pre-image, a recoverable signature of a hash,
      and the key a signature recovers to *)
  sigHash : list byte -> string;
  signWithKey : string -> string -> string;
  recoverPublicKey : string -> string -> option string;
  (** post-conditions as callers write them *)
  PostCondition : Type;
  postConditionToWire : PostCondition -> PostConditionWire;
  (** contract interfaces and their check of a contract-call payload *)
  ClarityAbi : Type;
  validateContractCall : Payload -> ClarityAbi -> Result unit;
  (** where the node is reached *)
  ApiOpts : Type;
  defaultApiFromNetwork :
    StacksNetworkName + StacksNetwork -> option ApiOpts -> ApiOpts;
  (** what [defaultApiFromNetwork] returns for a network that is
      [undefined] *)
  defaultApiWithoutNetwork : option ApiOpts -> ApiOpts;
  (** constants of the network package *)
  DEFAULT_CHAIN_ID : Z;
  mainnetAddressVersion : AddressVersions;
  testnetAddressVersion : AddressVersions;
  STACKS_MOCKNET : StacksNetwork
}.

Section Model.
Context `{Environment}.

Definition STACKS_MAINNET : StacksNetwork :=
  Network.mkNetwork ChainID_Mainnet TransactionVersion_Mainnet
    PeerNetworkID_Mainnet "X2" mainnetAddressVersion.

Definition STACKS_TESTNET : StacksNetwork :=
  Network.mkNetwork ChainID_Testnet TransactionVersion_Testnet
    PeerNetworkID_Testnet "T2" testnetAddressVersion.

Definition STACKS_DEVNET : StacksNetwork :=
  Network.mkNetwork (Network.chainId STACKS_TESTNET)
    (Network.transactionVersion STACKS_TESTNET)
    (Network.peerNetworkId STACKS_TESTNET) "id"
    (Network.addressVersion STACKS_TESTNET).

(** [networkFrom]: a name stands for the network of that name, a network
    object for itself. *)
Definition networkFrom (n : StacksNetworkName + StacksNetwork) : StacksNetwork :=
  match n with
  | inl mainnet => STACKS_MAINNET
  | inl testnet => STACKS_TESTNET
  | inl devnet => STACKS_DEVNET
  | inl mocknet => STACKS_MOCKNET
  | inr network => network
  end.

(** A property of the options after [Object.assign(defaultOptions,
    txOptions)]: the default when the caller left the property out, and
    otherwise what the caller's property holds, [undefined] included. *)
Definition assigned {A} (defaultValue : A) (given : option (option A)) : option A :=
  match given with
  | None => Some defaultValue
  | Some value => value
  end.

(** [defaultApiFromNetwork(options.network, api)], for a network that may
    be [undefined]. *)
Definition defaultApi (network : option (StacksNetworkName + StacksNetwork))
    (api : option ApiOpts) : ApiOpts :=
  match network with
  | Some network => defaultApiFromNetwork network api
  | None => defaultApiWithoutNetwork api
  end.

(** [network.property], where [network] is what [networkFrom] has handed
    back: it hands back what is not a name as it is, so a network that is
    [undefined] stays so until a property of it is read, and that read
    throws. *)
Definition readNetwork (property : string) (network : option StacksNetwork)
  : Result StacksNetwork :=
  match network with
  | Some network => Ok network
  | None => Err (JsError (MSG_UNDEFINED_READ property))
  end.

(** [addressFromPublicKeys]: the address of the keys, or the error the
    derivation throws. *)
Definition addressFromPublicKeys (version : Z) (hashMode : AddressHashMode)
    (numSigs : Z) (publicKeys : list PublicKeyWire) : Result AddressWire :=
  match addressRefusal version hashMode numSigs publicKeys with
  | Some e => Err e
  | None => Ok (addressOfPublicKeys version hashMode numSigs publicKeys)
  end.

(** ** The matching public-keys array for a multi-sig address
    ([builders.ts], lines 737-765) *)
Definition sortPublicKeysForAddress (publicKeys : loc) (numSigs : Z)
    (hashMode : MultiSigHashMode) (hash : string) : HeapM loc :=
  (* unsorted *)
  hbind (readArray publicKeys) (fun keys =>
  hbind (hlift (addressFromPublicKeys 0 (MultiSigMode hashMode) numSigs
                  (map createStacksPublicKey keys))) (fun addressUnsorted =>
  let hashUnsorted := hash160 addressUnsorted in
  if String.eqb hashUnsorted hash then hret publicKeys
  else
    (* sorted *)
    hbind (hbind (arraySlice publicKeys) arraySort) (fun publicKeysSorted =>
    hbind (readArray publicKeysSorted) (fun keysSorted =>
    hbind (hlift (addressFromPublicKeys 0 (MultiSigMode hashMode) numSigs
                    (map createStacksPublicKey keysSorted))) (fun addressSorted =>
    let hashSorted := hash160 addressSorted in
    if String.eqb hashSorted hash then hret publicKeysSorted
    else hthrow (JsError MSG_NO_MATCHING_ADDRESS)))))).

(** The builders hold their key lists as values; this runs
    [sortPublicKeysForAddress] on a heap that holds the one array and reads
    the array it returns. *)
Definition sortedKeysForAddress (keys : list string) (numSigs : Z)
    (hashMode : MultiSigHashMode) (hash : string) : Result (list string) :=
  match hbind (sortPublicKeysForAddress 1%positive numSigs hashMode hash) readArray
          {[ 1%positive := keys ]} with
  | Ok (v, _) => Ok v
  | Err e => Err e
  end.

(** ** Spending conditions (specification, section 4.2)

    Modelled from the spec: [createSingleSigSpendingCondition],
    [createMultiSigSpendingCondition], [createStandardAuth] and
    [createSponsoredAuth] of the [authorization] module, which is not part
    of the sources at hand.  The signer hash of a condition is derived from
    its keys in the order supplied, and an error of the derivation is the
    error of the constructor; a segwit hash mode refuses an uncompressed
    key when the condition is made, before anything is derived (the message
    is the one asserted at line 288 of [transaction.test.ts]). *)

Definition emptyMessageSignature : string :=
  bytesToHex (repeat x00 RECOVERABLE_SIGNATURE_BYTES).

Definition pubKeyEncodingOf (k : PublicKeyWire) : PubKeyEncoding := keyEncoding k.

Definition createSingleSigSpendingCondition (hashMode : SingleSigHashMode)
    (pubKey : string) (nonce fee : Z) : Result SpendingCondition :=
  let key := createStacksPublicKey pubKey in
  if segwitSingle hashMode && negb (isCompressed key)
  then Err (JsError MSG_COMPRESSED_FOR_SEGWIT)
  else
    rbind (addressFromPublicKeys 0 (SingleSigMode hashMode) 1 [key]) (fun address =>
    let signer := hash160 address in
    Ok (SingleSig hashMode signer nonce fee (pubKeyEncodingOf key)
          emptyMessageSignature)).

Definition createMultiSigSpendingCondition (hashMode : MultiSigHashMode)
    (numSigs : Z) (pubKeys : list string) (nonce fee : Z)
  : Result SpendingCondition :=
  let keys := map createStacksPublicKey pubKeys in
  if segwitMulti hashMode && negb (forallb isCompressed keys)
  then Err (JsError MSG_COMPRESSED_FOR_SEGWIT)
  else
    rbind (addressFromPublicKeys 0 (MultiSigMode hashMode) numSigs keys) (fun address =>
    let signer := hash160 address in
    Ok (MultiSig hashMode signer nonce fee [] numSigs)).

Definition createStandardAuth (c : SpendingCondition) : Authorization :=
  StandardAuth c.

(** The sponsor slot of a sponsored authorization that has no sponsor yet:
    a single-sig condition of the all-zero key, whose address the
    derivation returns. *)
Definition placeholderSponsor : SpendingCondition :=
  let key := createStacksPublicKey (bytesToHex (repeat x00 COMPRESSED_PUBKEY_BYTES)) in
  SingleSig SerializeP2PKH
    (hash160 (addressOfPublicKeys 0 (SingleSigMode SerializeP2PKH) 1 [key]))
    0 0 (pubKeyEncodingOf key) emptyMessageSignature.

Definition createSponsoredAuth (c : SpendingCondition)
    (sponsor : option SpendingCondition) : Authorization :=
  SponsoredAuth c (default placeholderSponsor sponsor).

(** Modelled from the spec: the constructor of [StacksTransaction], which
    is not part of the sources at hand.  What it fills in for the
    arguments left out is what [transaction.test.ts] reads back (lines
    245-266): no post-conditions, mode deny, anchor mode any, the default
    chain id. *)
Definition newStacksTransaction (version : Z) (a : Authorization) (p : Payload)
    (pcs : option (list PostConditionWire)) (pcMode : option PostConditionMode)
    (anchor : option AnchorMode) (chain : option Z) : StacksTransaction :=
  mkTransaction version (default DEFAULT_CHAIN_ID chain) a p (default [] pcs)
    (default Deny pcMode) (default Any anchor).

(** ** The signer (specification, section 4.3)

    Modelled from the spec: [TransactionSigner] of the [signer] module and
    [verifyOrigin], which are not part of the sources at hand.  A signature
    is made over the serialized envelope as it stands, with the fields that
    are already there and without the one about to be added; a signing key
    of 33 bytes stands for a compressed public key. *)

Definition PRIVATE_KEY_COMPRESSED_LENGTH : nat := 33.
Definition PRIVATE_KEY_UNCOMPRESSED_LENGTH : nat := 32.

Definition privateKeyEncoding (privateKey : string) : PubKeyEncoding :=
  if Nat.eqb (List.length (hexBytes privateKey)) PRIVATE_KEY_COMPRESSED_LENGTH
  then Compressed else Uncompressed.

Definition withOrigin (c : SpendingCondition) (a : Authorization) : Authorization :=
  match a with
  | StandardAuth _ => StandardAuth c
  | SponsoredAuth _ s => SponsoredAuth c s
  end.

(** The condition as it is hashed: a single-sig condition without its
    signature, a multi-sig condition with the fields it has. *)
Definition clearCondition (c : SpendingCondition) : SpendingCondition :=
  match c with
  | SingleSig m s n f k _ => SingleSig m s n f k emptyMessageSignature
  | MultiSig _ _ _ _ _ _ => c
  end.

Definition originSigHash (tx : StacksTransaction) : string :=
  sigHash (serializeBytes
             (withAuth (withOrigin (clearCondition (spendingCondition (auth tx)))
                          (auth tx)) tx)).

Record TransactionSigner := mkSigner {
  transaction : StacksTransaction
}.

Definition newTransactionSigner (tx : StacksTransaction) : TransactionSigner :=
  mkSigner tx.

Definition signOrigin (privateKey : string) (s : TransactionSigner)
  : TransactionSigner :=
  let tx := transaction s in
  let signature := signWithKey privateKey (originSigHash tx) in
  let origin :=
    match spendingCondition (auth tx) with
    | SingleSig m sg n f k _ => SingleSig m sg n f k signature
    | MultiSig m sg n f fs r =>
        MultiSig m sg n f
          (fs ++ [SignatureField (privateKeyEncoding privateKey) signature]) r
    end in
  mkSigner (withAuth (withOrigin origin (auth tx)) tx).

Definition appendOrigin (publicKey : PublicKeyWire) (s : TransactionSigner)
  : Result TransactionSigner :=
  let tx := transaction s in
  match spendingCondition (auth tx) with
  | SingleSig _ _ _ _ _ _ => Err NotMultiSigError
  | MultiSig m sg n f fs r =>
      let origin :=
        MultiSig m sg n f
          (fs ++ [PublicKeyField (keyEncoding publicKey) (keyData publicKey)]) r in
      Ok (mkSigner (withAuth (withOrigin origin (auth tx)) tx))
  end.

(** The keys behind the fields [todo], which follow the fields [seen]: a
    declared key as it is, a signature by recovery from the hash of the
    envelope that held the fields before it. *)
Fixpoint recoverKeys (tx : StacksTransaction) (m : MultiSigHashMode)
    (sg : string) (n f r : Z) (seen todo : list TransactionAuthField)
  : Result (list PublicKeyWire) :=
  match todo with
  | [] => Ok []
  | fld :: rest =>
      rbind
        match fld with
        | PublicKeyField e d => Ok (mkPublicKey e d)
        | SignatureField e d =>
            let pre := withAuth (withOrigin (MultiSig m sg n f seen r) (auth tx)) tx in
            match recoverPublicKey (originSigHash pre) d with
            | Some k => Ok (mkPublicKey e k)
            | None => Err (SignatureVerificationError (List.length seen))
            end
        end
        (fun key =>
           rbind (recoverKeys tx m sg n f r (seen ++ [fld]) rest)
             (fun keys => Ok (key :: keys)))
  end.

Definition countSignatures (fs : list TransactionAuthField) : Z :=
  Z.of_nat (List.length (List.filter (fun f => match f with
                                          | SignatureField _ _ => true
                                          | PublicKeyField _ _ => false
                                          end) fs)).

(** [verifyOrigin]: the compression rule of the hash mode first, then the
    keys behind the fields, the number of signatures, and the signer hash
    the keys derive. *)
Definition verifyOrigin (tx : StacksTransaction) : Result unit :=
  match spendingCondition (auth tx) with
  | SingleSig m sg n f k sig =>
      if segwitSingle m && isUncompressed k
      then Err (JsError MSG_UNCOMPRESSED_NOT_ALLOWED)
      else
        match recoverPublicKey (originSigHash tx) sig with
        | None => Err (SignatureVerificationError 0)
        | Some d =>
            rbind (addressFromPublicKeys 0 (SingleSigMode m) 1 [mkPublicKey k d])
              (fun address =>
            if String.eqb (hash160 address) sg
            then Ok tt else Err (SignatureVerificationError 0))
        end
  | MultiSig m sg n f fs r =>
      if haveUncompressed fs && segwitMulti m
      then Err (JsError MSG_UNCOMPRESSED_NOT_ALLOWED)
      else
        rbind (recoverKeys tx m sg n f r [] fs) (fun keys =>
        if countSignatures fs <? r
        then Err (SignatureVerificationError (List.length fs))
        else
          rbind (addressFromPublicKeys 0 (MultiSigMode m) r keys) (fun address =>
          if String.eqb (hash160 address) sg
          then Ok tt else Err (SignatureVerificationError (List.length fs))))
  end.

(** ** Payloads

    Modelled from the spec: the payload constructors of the [payload]
    module, which is not part of the sources at hand.  A memo holds at
    most 34 bytes (section 3), and a longer one is refused when the payload
    is made; so is, after it, an amount that is negative or wider than 64
    bits (section 4.1). *)

Definition MSG_MEMO_TOO_LONG : string :=
  "Memo exceeds maximum length of 34 bytes".

Definition createTokenTransferPayload (recipient : string + PrincipalCV)
    (amount : Z) (memo : string) : Result Payload :=
  let recipientCV :=
    match recipient with
    | inl address => principalCV address
    | inr cv => cv
    end in
  if negb (validMemo memo) then Err (JsError MSG_MEMO_TOO_LONG)
  else if isUInt 8 amount then Ok (TokenTransferPayload recipientCV amount memo)
  else Err InvalidAmountError.

Definition createSmartContractPayload (contractName codeBody : string)
    (clarityVersion : option ClarityVersion) : Payload :=
  SmartContractPayload contractName codeBody clarityVersion.

Definition createContractCallPayload (contractAddress contractName functionName : string)
    (functionArgs : list ClarityValue) : Payload :=
  ContractCallPayload (createAddress contractAddress) contractName functionName
    functionArgs.

Definition createLPList {A} (values : list A) : list A := values.

End Model.

(** ** Options of the builders ([builders.ts], lines 46-104, 238-275,
    413-449)

    An optional property is an [option]; [None] is a property the caller
    left out.  The [network] is told apart further, because the source
    tests for it (line 482): [Some None] is a property that is there and
    holds [undefined], which [Object.assign] copies over the default.  The
    union of the single-sig and the multi-sig options of a builder is the
    [who] component. *)

Record UnsignedMultiSigOptions := mkMultiSigOptions {
  (** the minimum required signatures N (in a N of M multi-sig) *)
  numSignatures : Z;
  (** the M public keys, which together form the address of the account *)
  publicKeys : list string;
  (** the address of the multi-sig account *)
  address : option string;
  useNonSequentialMultiSig : option bool
}.

(** [{ publicKey }] or [UnsignedMultiSigOptions]. *)
Inductive UnsignedKeys :=
| WithPublicKey (publicKey : string)
| WithPublicKeys (multiSigOptions : UnsignedMultiSigOptions).

(** [{ senderKey }] or [SignedMultiSigOptions]. *)
Inductive SignedKeys :=
| WithSenderKey (senderKey : string)
| WithSignerKeys (multiSigOptions : UnsignedMultiSigOptions) (signerKeys : list string).

Module TokenTransferOptions.
Record t {CV : ClarityCodec} {Env : Environment} (W : Type) := mk {
  recipient : string + PrincipalCV;
  amount : Z;
  fee : option Z;
  nonce : option Z;
  network : option (option (StacksNetworkName + StacksNetwork));
  memo : option string;
  sponsored : option bool;
  api : option ApiOpts;
  who : W
}.
Arguments mk {CV Env W}.
Arguments recipient {CV Env W}.
Arguments amount {CV Env W}.
Arguments fee {CV Env W}.
Arguments nonce {CV Env W}.
Arguments network {CV Env W}.
Arguments memo {CV Env W}.
Arguments sponsored {CV Env W}.
Arguments api {CV Env W}.
Arguments who {CV Env W}.
End TokenTransferOptions.

Module ContractDeployOptions.
Record t {CV : ClarityCodec} {Env : Environment} (W : Type) := mk {
  clarityVersion : option ClarityVersion;
  contractName : string;
  codeBody : string;
  fee : option Z;
  nonce : option Z;
  network : option (option (StacksNetworkName + StacksNetwork));
  api : option ApiOpts;
  postConditionMode : option PostConditionMode;
  postConditions : option (list PostConditionWire);
  sponsored : option bool;
  who : W
}.
Arguments mk {CV Env W}.
Arguments clarityVersion {CV Env W}.
Arguments contractName {CV Env W}.
Arguments codeBody {CV Env W}.
Arguments fee {CV Env W}.
Arguments nonce {CV Env W}.
Arguments network {CV Env W}.
Arguments api {CV Env W}.
Arguments postConditionMode {CV Env W}.
Arguments postConditions {CV Env W}.
Arguments sponsored {CV Env W}.
Arguments who {CV Env W}.
End ContractDeployOptions.

Module ContractCallOptions.
Record t {CV : ClarityCodec} {Env : Environment} (W : Type) := mk {
  contractAddress : string;
  contractName : string;
  functionName : string;
  functionArgs : list ClarityValue;
  fee : option Z;
  nonce : option Z;
  network : option (option (StacksNetworkName + StacksNetwork));
  api : option ApiOpts;
  postConditionMode : option PostConditionMode;
  postConditions : option (list PostCondition);
  validateWithAbi : option (bool + ClarityAbi);
  sponsored : option bool;
  who : W
}.
Arguments mk {CV Env W}.
Arguments contractAddress {CV Env W}.
Arguments contractName {CV Env W}.
Arguments functionName {CV Env W}.
Arguments functionArgs {CV Env W}.
Arguments fee {CV Env W}.
Arguments nonce {CV Env W}.
Arguments network {CV Env W}.
Arguments api {CV Env W}.
Arguments postConditionMode {CV Env W}.
Arguments postConditions {CV Env W}.
Arguments validateWithAbi {CV Env W}.
Arguments sponsored {CV Env W}.
Arguments who {CV Env W}.
End ContractCallOptions.

(** ** The network collaborators (specification, section 6) and the
    computations that await them *)

Inductive Call {CV : ClarityCodec} {Env : Environment} :=
| EstimateFee (transaction : StacksTransaction) (api : ApiOpts)
| GetNonce (address : string) (api : ApiOpts)
| GetAbi (contractAddress contractName : string) (api : ApiOpts).

Class Collaborators {CV : ClarityCodec} {Env : Environment} := {
  estimateFee : StacksTransaction -> ApiOpts -> Result Z;
  getNonce : string -> ApiOpts -> Result Z;
  getAbi : string -> string -> ApiOpts -> Result ClarityAbi
}.

Section Builders.
Context {CV : ClarityCodec} {Env : Environment} {Net : Collaborators}.

(** An asynchronous computation: it extends the log of the calls made to
    the collaborators and returns or throws. *)
Definition Async (A : Type) : Type := list Call -> list Call * Result A.

Definition aret {A} (a : A) : Async A := fun log => (log, Ok a).

Definition abind {A B} (m : Async A) (k : A -> Async B) : Async B :=
  fun log =>
    match m log with
    | (log', Ok a) => k a log'
    | (log', Err e) => (log', Err e)
    end.

Definition lift {A} (r : Result A) : Async A := fun log => (log, r).

(** [await c r]: the call [c] is made and answers [r]. *)
Definition await {A} (c : Call) (r : Result A) : Async A :=
  fun log => (log ++ [c], r).

Definition run {A} (m : Async A) : list Call * Result A := m [].

Declare Scope async_scope.
Delimit Scope async_scope with async.
Notation "x <- m ;; k" := (abind m (fun x => k))
  (at level 100, m at next level, right associativity) : async_scope.
Declare Scope result_scope.
Delimit Scope result_scope with result.
Notation "x <- m ;; k" := (rbind m (fun x => k))
  (at level 100, m at next level, right associativity) : result_scope.
Local Open Scope async_scope.

(** JavaScript truthiness of an optional string and of an optional
    boolean. *)
Definition truthyString (s : option string) : option string :=
  match s with
  | Some EmptyString => None
  | _ => s
  end.

Definition truthyBool (b : option bool) : bool := default false b.

(** ** The builders ([builders.ts]) *)

(** The spending condition of the origin: the block that the three
    unsigned builders share word for word (lines 133-165, 339-371 and
    496-528). *)
Definition originSpendingCondition (who : UnsignedKeys) (nonce fee : Z)
  : Result SpendingCondition :=
  match who with
  | WithPublicKey publicKey =>
      (* single-sig *)
      createSingleSigSpendingCondition SerializeP2PKH publicKey nonce fee
  | WithPublicKeys options =>
      (* multi-sig *)
      let hashMode :=
        if truthyBool (useNonSequentialMultiSig options)
        then SerializeP2SHNonSequential
        else SerializeP2SH in
      (publicKeys <-
         match truthyString (address options) with
         | Some address =>
             sortedKeysForAddress (publicKeys options) (numSignatures options)
               hashMode (hash160 (createAddress address))
         | None => Ok (publicKeys options)
         end ;;
       createMultiSigSpendingCondition hashMode (numSignatures options)
         publicKeys nonce fee)%result
  end.

(** [if (txOptions.fee == null) { ... }] (lines 181-184, 395-398 and
    549-552). *)
Definition estimateFeeIfOmitted (fee : option Z) (api : ApiOpts)
    (transaction : StacksTransaction) : Async StacksTransaction :=
  match fee with
  | None =>
      fee <- await (EstimateFee transaction api) (estimateFee transaction api) ;;
      aret (setFee fee transaction)
  | Some _ => aret transaction
  end.

(** [if (txOptions.nonce == null) { ... }] (lines 186-191, 400-405 and
    554-559). *)
Definition getNonceIfOmitted (nonce : option Z) (network : StacksNetwork)
    (api : ApiOpts) (transaction : StacksTransaction) : Async StacksTransaction :=
  match nonce with
  | None =>
      let addressVersion := singleSig (Network.addressVersion network) in
      let address :=
        c32address addressVersion (signerOf (spendingCondition (auth transaction))) in
      txNonce <- await (GetNonce address api) (getNonce address api) ;;
      aret (setNonce txNonce transaction)
  | Some _ => aret transaction
  end.

(** Generates an unsigned token transfer transaction (lines 115-194). *)
Definition makeUnsignedSTXTokenTransfer
    (txOptions : TokenTransferOptions.t UnsignedKeys) : Async StacksTransaction :=
  (* Object.assign(defaultOptions, txOptions) *)
  let fee := default 0 (TokenTransferOptions.fee txOptions) in
  let nonce := default 0 (TokenTransferOptions.nonce txOptions) in
  let network := assigned (inr STACKS_MAINNET) (TokenTransferOptions.network txOptions) in
  let memo := default EmptyString (TokenTransferOptions.memo txOptions) in
  let sponsored := default false (TokenTransferOptions.sponsored txOptions) in
  let api := defaultApi network (TokenTransferOptions.api txOptions) in
  payload <- lift (createTokenTransferPayload
                     (TokenTransferOptions.recipient txOptions)
                     (TokenTransferOptions.amount txOptions) memo) ;;
  let network := option_map networkFrom network in
  spendingCondition <-
    lift (originSpendingCondition (TokenTransferOptions.who txOptions) nonce fee) ;;
  let authorization :=
    if sponsored then createSponsoredAuth spendingCondition None
    else createStandardAuth spendingCondition in
  network <- lift (readNetwork "transactionVersion" network) ;;
  let transaction :=
    newStacksTransaction (Network.transactionVersion network) authorization payload
      None (* no post conditions on STX transfers (see SIP-005) *)
      None (* no post conditions on STX transfers (see SIP-005) *)
      (Some Any) (Some (Network.chainId network)) in
  transaction <-
    estimateFeeIfOmitted (TokenTransferOptions.fee txOptions) api transaction ;;
  transaction <-
    getNonceIfOmitted (TokenTransferOptions.nonce txOptions) network api transaction ;;
  aret transaction.

(** Generates an unsigned contract deploy transaction (lines 316-408). *)
Definition makeUnsignedContractDeploy
    (txOptions : ContractDeployOptions.t UnsignedKeys) : Async StacksTransaction :=
  let fee := default 0 (ContractDeployOptions.fee txOptions) in
  let nonce := default 0 (ContractDeployOptions.nonce txOptions) in
  let network := assigned (inr STACKS_MAINNET) (ContractDeployOptions.network txOptions) in
  let postConditionMode :=
    default Deny (ContractDeployOptions.postConditionMode txOptions) in
  let sponsored := default false (ContractDeployOptions.sponsored txOptions) in
  let clarityVersion :=
    default Clarity2 (ContractDeployOptions.clarityVersion txOptions) in
  let api := defaultApi network (ContractDeployOptions.api txOptions) in
  let payload :=
    createSmartContractPayload (ContractDeployOptions.contractName txOptions)
      (ContractDeployOptions.codeBody txOptions) (Some clarityVersion) in
  let network := option_map networkFrom network in
  spendingCondition <-
    lift (originSpendingCondition (ContractDeployOptions.who txOptions) nonce fee) ;;
  let authorization :=
    if sponsored then createSponsoredAuth spendingCondition None
    else createStandardAuth spendingCondition in
  let postConditions := default [] (ContractDeployOptions.postConditions txOptions) in
  let lpPostConditions := createLPList postConditions in
  network <- lift (readNetwork "transactionVersion" network) ;;
  let transaction :=
    newStacksTransaction (Network.transactionVersion network) authorization payload
      (Some lpPostConditions) (Some postConditionMode)
      (Some Any) (Some (Network.chainId network)) in
  transaction <-
    estimateFeeIfOmitted (ContractDeployOptions.fee txOptions) api transaction ;;
  transaction <-
    getNonceIfOmitted (ContractDeployOptions.nonce txOptions) network api transaction ;;
  aret transaction.

(** [if (options?.validateWithAbi) { ... }] (lines 479-492).  [network]
    is [options.network] as it stands after [Object.assign]: [None] is a
    network that is [undefined], for which a validation against a fetched
    interface throws before anything is fetched. *)
Definition validateWithAbiIfAsked (validateWithAbi : option (bool + ClarityAbi))
    (network : option (StacksNetworkName + StacksNetwork))
    (contractAddress contractName : string) (api : ApiOpts) (payload : Payload)
  : Async unit :=
  match validateWithAbi with
  | Some (inl true) =>
      abi <- match network with
             | Some _ =>
                 await (GetAbi contractAddress contractName api)
                   (getAbi contractAddress contractName api)
             | None => lift (Err (JsError MSG_NETWORK_REQUIRED_FOR_ABI))
             end ;;
      lift (validateContractCall payload abi)
  | Some (inr abi) => lift (validateContractCall payload abi)
  | Some (inl false) | None => aret tt
  end.

(** Generates an unsigned contract call transaction (lines 458-562). *)
Definition makeUnsignedContractCall
    (txOptions : ContractCallOptions.t UnsignedKeys) : Async StacksTransaction :=
  let fee := default 0 (ContractCallOptions.fee txOptions) in
  let nonce := default 0 (ContractCallOptions.nonce txOptions) in
  let network := assigned (inr STACKS_MAINNET) (ContractCallOptions.network txOptions) in
  let postConditionMode :=
    default Deny (ContractCallOptions.postConditionMode txOptions) in
  let sponsored := default false (ContractCallOptions.sponsored txOptions) in
  let api := defaultApi network (ContractCallOptions.api txOptions) in
  let payload :=
    createContractCallPayload (ContractCallOptions.contractAddress txOptions)
      (ContractCallOptions.contractName txOptions)
      (ContractCallOptions.functionName txOptions)
      (ContractCallOptions.functionArgs txOptions) in
  _ <- validateWithAbiIfAsked (ContractCallOptions.validateWithAbi txOptions)
         network
         (ContractCallOptions.contractAddress txOptions)
         (ContractCallOptions.contractName txOptions) api payload ;;
  let network := option_map networkFrom network in
  spendingCondition <-
    lift (originSpendingCondition (ContractCallOptions.who txOptions) nonce fee) ;;
  let authorization :=
    if sponsored then createSponsoredAuth spendingCondition None
    else createStandardAuth spendingCondition in
  let postConditions :=
    map postConditionToWire
      (default [] (ContractCallOptions.postConditions txOptions)) in
  let lpPostConditions := createLPList postConditions in
  network <- lift (readNetwork "transactionVersion" network) ;;
  let transaction :=
    newStacksTransaction (Network.transactionVersion network) authorization payload
      (Some lpPostConditions) (Some postConditionMode)
      (Some Any) (Some (Network.chainId network)) in
  transaction <-
    estimateFeeIfOmitted (ContractCallOptions.fee txOptions) api transaction ;;
  transaction <-
    getNonceIfOmitted (ContractCallOptions.nonce txOptions) network api transaction ;;
  aret transaction.

(** One turn of the loop of [mutatingSignAppendMultiSig] (lines 723-733):
    the first signer key whose public key is [publicKey] signs, or else the
    public key is appended. *)
Definition signOrAppend (signerKeys : list string) (signer : TransactionSigner)
    (publicKey : string) : Result TransactionSigner :=
  let signerKey :=
    List.find (fun key => String.eqb (privateKeyToPublic key) publicKey) signerKeys in
  match truthyString signerKey with
  | Some signerKey =>
      (* either sign and append message signature *)
      Ok (signOrigin signerKey signer)
  | None =>
      (* or append the public key (which did not sign here) *)
      appendOrigin (createStacksPublicKey publicKey) signer
  end.

Fixpoint signInOrder (signerKeys : list string) (signer : TransactionSigner)
    (pubs : list string) : Result TransactionSigner :=
  match pubs with
  | [] => Ok signer
  | publicKey :: rest =>
      (signer' <- signOrAppend signerKeys signer publicKey ;;
       signInOrder signerKeys signer' rest)%result
  end.

(** Multi-sig signing re-use (lines 700-734); the transaction that is
    returned is the one the signer has mutated. *)
Definition mutatingSignAppendMultiSig (transaction : StacksTransaction)
    (publicKeys : list string) (signerKeys : list string) (address : option string)
  : Result StacksTransaction :=
  match spendingCondition (auth transaction) with
  | SingleSig _ _ _ _ _ _ => Err (JsError MSG_NOT_MULTISIG)
  | MultiSig hashMode _ _ _ _ signaturesRequired =>
      let signer := newTransactionSigner transaction in
      (pubs <-
         match truthyString address with
         | Some address =>
             sortedKeysForAddress publicKeys signaturesRequired hashMode
               (hash160 (createAddress address))
         | None => Ok publicKeys
         end ;;
       (* sign in order of public keys *)
       signer' <- signInOrder signerKeys signer pubs ;;
       Ok (let 'mkSigner mutated := signer' in mutated))%result
  end.

(** Generates a signed token transfer transaction (lines 205-233). *)
Definition makeSTXTokenTransfer
    (txOptions : TokenTransferOptions.t SignedKeys) : Async StacksTransaction :=
  let options who :=
    TokenTransferOptions.mk
      (TokenTransferOptions.recipient txOptions) (TokenTransferOptions.amount txOptions)
      (TokenTransferOptions.fee txOptions) (TokenTransferOptions.nonce txOptions)
      (TokenTransferOptions.network txOptions) (TokenTransferOptions.memo txOptions)
      (TokenTransferOptions.sponsored txOptions) (TokenTransferOptions.api txOptions)
      who in
  match TokenTransferOptions.who txOptions with
  | WithSenderKey senderKey =>
      (* single-sig *)
      let publicKey := privateKeyToPublic senderKey in
      transaction <- makeUnsignedSTXTokenTransfer (options (WithPublicKey publicKey)) ;;
      let privKey := senderKey in
      let signer := newTransactionSigner transaction in
      let 'mkSigner mutated := signOrigin privKey signer in
      aret mutated
  | WithSignerKeys multiSigOptions signerKeys =>
      (* multi-sig *)
      transaction <- makeUnsignedSTXTokenTransfer (options (WithPublicKeys multiSigOptions)) ;;
      lift (mutatingSignAppendMultiSig transaction (publicKeys multiSigOptions)
              signerKeys (address multiSigOptions))
  end.

(** Generates a signed contract deploy transaction (lines 286-314). *)
Definition makeContractDeploy
    (txOptions : ContractDeployOptions.t SignedKeys) : Async StacksTransaction :=
  let options who :=
    ContractDeployOptions.mk
      (ContractDeployOptions.clarityVersion txOptions)
      (ContractDeployOptions.contractName txOptions)
      (ContractDeployOptions.codeBody txOptions)
      (ContractDeployOptions.fee txOptions) (ContractDeployOptions.nonce txOptions)
      (ContractDeployOptions.network txOptions) (ContractDeployOptions.api txOptions)
      (ContractDeployOptions.postConditionMode txOptions)
      (ContractDeployOptions.postConditions txOptions)
      (ContractDeployOptions.sponsored txOptions) who in
  match ContractDeployOptions.who txOptions with
  | WithSenderKey senderKey =>
      let publicKey := privateKeyToPublic senderKey in
      transaction <- makeUnsignedContractDeploy (options (WithPublicKey publicKey)) ;;
      let privKey := senderKey in
      let signer := newTransactionSigner transaction in
      let 'mkSigner mutated := signOrigin privKey signer in
      aret mutated
  | WithSignerKeys multiSigOptions signerKeys =>
      transaction <- makeUnsignedContractDeploy (options (WithPublicKeys multiSigOptions)) ;;
      lift (mutatingSignAppendMultiSig transaction (publicKeys multiSigOptions)
              signerKeys (address multiSigOptions))
  end.

(** Generates a signed contract call transaction (lines 573-601). *)
Definition makeContractCall
    (txOptions : ContractCallOptions.t SignedKeys) : Async StacksTransaction :=
  let options who :=
    ContractCallOptions.mk
      (ContractCallOptions.contractAddress txOptions)
      (ContractCallOptions.contractName txOptions)
      (ContractCallOptions.functionName txOptions)
      (ContractCallOptions.functionArgs txOptions)
      (ContractCallOptions.fee txOptions) (ContractCallOptions.nonce txOptions)
      (ContractCallOptions.network txOptions) (ContractCallOptions.api txOptions)
      (ContractCallOptions.postConditionMode txOptions)
      (ContractCallOptions.postConditions txOptions)
      (ContractCallOptions.validateWithAbi txOptions)
      (ContractCallOptions.sponsored txOptions) who in
  match ContractCallOptions.who txOptions with
  | WithSenderKey senderKey =>
      let publicKey := privateKeyToPublic senderKey in
      transaction <- makeUnsignedContractCall (options (WithPublicKey publicKey)) ;;
      let privKey := senderKey in
      let signer := newTransactionSigner transaction in
      let 'mkSigner mutated := signOrigin privKey signer in
      aret mutated
  | WithSignerKeys multiSigOptions signerKeys =>
      transaction <- makeUnsignedContractCall (options (WithPublicKeys multiSigOptions)) ;;
      lift (mutatingSignAppendMultiSig transaction (publicKeys multiSigOptions)
              signerKeys (address multiSigOptions))
  end.

End Builders.

(** ** A small environment

    Stand-ins for the collaborators, simple enough to evaluate: they are
    used to run the model on concrete inputs.  A key of 33 bytes is a
    compressed key, text that starts with [04] an uncompressed one; the
    signer hash takes its bytes from the keys in their order, and no
    address is derived from an empty list of keys. *)

Definition exampleIsUncompressedText (s : string) : bool :=
  match s with
  | String "0" (String "4" _) => true
  | _ => false
  end.

Definition exampleCreateStacksPublicKey (s : string) : PublicKeyWire :=
  mkPublicKey (if exampleIsUncompressedText s then Uncompressed else Compressed)
    (String "0" (String "2" (String.substring 2 64 s))).

Definition examplePrivateKeyToPublic (k : string) : string :=
  if Nat.eqb (List.length (hexBytes k)) 33
  then String "0" (String "2" (String.substring 0 64 k))
  else String "0" (String "4" (String.append (String.substring 0 64 k)
                                               (String.substring 0 64 k))).

Definition exampleHash (m : AddressHashMode) (n : Z) (keys : list PublicKeyWire) : string :=
  let tagOf :=
    match m with
    | SingleSigMode h => singleHashModeByte h
    | MultiSigMode h => multiHashModeByte h
    end in
  bytesToHex
    (firstn 20
       (tagOf :: byteOfZ n
          :: concat (map (fun k => firstn 6 (skipn 1 (hexBytes (keyData k)))) keys)
          ++ repeat x00 20)).

(** A signature carries the hash it signs and the key that signed it;
    recovery reads the key back when the hash is the one signed. *)
Definition exampleSignWithKey (privateKey hash : string) : string :=
  bytesToHex (firstn 65 (x01 :: hexBytes hash ++ hexBytes privateKey ++ repeat x00 65)).

Definition exampleRecoverPublicKey (hash signature : string) : option string :=
  let bs := hexBytes signature in
  if String.eqb (bytesToHex (firstn 32 (skipn 1 bs))) hash
  then Some (String "0" (String "2" (bytesToHex (firstn 32 (skipn 33 bs)))))
  else None.

Definition exampleEnvironment : @Environment boolCodec := {|
  createStacksPublicKey := exampleCreateStacksPublicKey;
  privateKeyToPublic := examplePrivateKeyToPublic;
  addressRefusal := fun _ _ _ keys =>
    match keys with
    | [] => Some (JsError "Invalid number of public keys")
    | _ => None
    end;
  addressOfPublicKeys := fun v m n keys => mkAddress v (exampleHash m n keys);
  createAddress := fun s => mkAddress 22 s;
  c32address := fun v h => String.append (if v =? 22 then "SP-" else "ST-") h;
  principalCV := fun s => StandardPrincipalCV (mkAddress 22 s);
  sigHash := fun bs => bytesToHex (firstn 32 (bs ++ repeat x00 32));
  signWithKey := exampleSignWithKey;
  recoverPublicKey := exampleRecoverPublicKey;
  PostCondition := @PostConditionWire boolCodec;
  postConditionToWire := fun pc => pc;
  ClarityAbi := unit;
  validateContractCall := fun _ _ => Ok tt;
  ApiOpts := string;
  defaultApiFromNetwork := fun _ api => default "https://api.example" api;
  defaultApiWithoutNetwork := fun api => default "https://api.example" api;
  DEFAULT_CHAIN_ID := ChainID_Mainnet;
  mainnetAddressVersion := mkAddressVersions 22 20;
  testnetAddressVersion := mkAddressVersions 26 21;
  STACKS_MOCKNET :=
    Network.mkNetwork ChainID_Testnet TransactionVersion_Testnet
      PeerNetworkID_Testnet "id" (mkAddressVersions 26 21)
|}.

Definition exampleCollaborators : @Collaborators boolCodec exampleEnvironment := {|
  estimateFee := fun _ _ => Ok 180;
  getNonce := fun _ _ => Ok 7;
  getAbi := fun _ _ _ => Ok (tt : @ClarityAbi boolCodec exampleEnvironment)
|}.

(** The keys of [transaction.test.ts] (lines 209-213 and 277-281). *)
Definition examplePrivKeys : list string :=
  [ "6d430bb91222408e7706c9001cfaeb91b08c2be6d5ac95779ab52c6b431950e001";
    "2a584d899fed1d24e26b524f202763c8ab30260167429f157f1c119f550fa6af01";
    "d5200dee706ee53ae98a03fba6cf4fdcc5084c30cfa9e1b3462dcdeaa3e0f1d201" ].

Definition exampleUncompressedPrivKeys : list string :=
  [ "6d430bb91222408e7706c9001cfaeb91b08c2be6d5ac95779ab52c6b431950e0";
    "2a584d899fed1d24e26b524f202763c8ab30260167429f157f1c119f550fa6af";
    "d5200dee706ee53ae98a03fba6cf4fdcc5084c30cfa9e1b3462dcdeaa3e0f1d2" ].

Definition examplePubKeys : list string :=
  map examplePrivateKeyToPublic examplePrivKeys.

Definition exampleRecipient : string := "ba27f99e007c7f605a8305e318c1abde3cd220ac".

(** A 2-of-3 token transfer, as lines 204-250 of [transaction.test.ts]
    build it. *)
Definition exampleMultiSigTransfer (hashMode : MultiSigHashMode) (pubKeys : list string)
  : Result (@StacksTransaction boolCodec) :=
  rbind (@createMultiSigSpendingCondition boolCodec exampleEnvironment hashMode 2
           pubKeys 0 0)
    (fun c =>
       rbind (@createTokenTransferPayload boolCodec exampleEnvironment
                (inl exampleRecipient) 2500000 "memo")
         (fun p =>
            Ok (@newStacksTransaction boolCodec exampleEnvironment
                  TransactionVersion_Mainnet (StandardAuth c) p None None None None))).

(** A signed single-sig token transfer with one post-condition, like the
    one of lines 47-87 of [transaction.test.ts]. *)
Definition exampleTransaction : @StacksTransaction boolCodec :=
  mkTransaction TransactionVersion_Testnet ChainID_Testnet
    (StandardAuth
       (SingleSig SerializeP2PKH "fd3cd910d78fe7c4cd697d5228e51a912ff2ba74" 4 0
          Uncompressed
          "008d36064b250dba5d3221ac235a9320adb072cfc23cd63511e6d814f97f0302e66c2ece80d7512df1b3e90ca6dce18179cb67b447973c739825ce6c6756bc247d"))
    (TokenTransferPayload (StandardPrincipalCV (mkAddress 22 exampleRecipient))
       2500000 "memo (not included")
    [STXPostConditionWire (StandardPrincipal (mkAddress 22 exampleRecipient))
       GreaterEqual 0]
    Deny Any.


(** The keys of the test in the reverse of their order, in a heap of their
    own, and the signer hash that their sorted order derives. *)
Definition exampleUnsortedKeys : list string := rev examplePubKeys.

Definition exampleHeap : gmap loc (list string) :=
  {[ 1%positive := exampleUnsortedKeys ]}.

Definition exampleSortedTarget : string :=
  exampleHash (MultiSigMode SerializeP2SH) 2
    (map exampleCreateStacksPublicKey (jsSort exampleUnsortedKeys)).

Definition exampleUncompressedPubKeys : list string :=
  map examplePrivateKeyToPublic exampleUncompressedPrivKeys.

(** A signer key that stands for none of the public keys of the test. *)
Definition exampleStrangerKey : string :=
  "3372fdabb09819bb6c9446da8a067840c81dcf8d229d048de36caac3562c5f7301".

(** Options of a 2-of-3 signed token transfer that leave fee, nonce and
    network to the builder. *)
Definition exampleSignedTransferOptions
  : @TokenTransferOptions.t boolCodec exampleEnvironment SignedKeys :=
  TokenTransferOptions.mk (inl exampleRecipient) 2500000 None None None None None None
    (WithSignerKeys (mkMultiSigOptions 2 examplePubKeys None None)
       (firstn 2 examplePrivKeys)).

(** The unsigned 2-of-3 token transfer of the test, and the same with its
    hash mode forced to the segwit one after the condition was made from
    uncompressed keys (lines 290-297 of [transaction.test.ts]). *)
Definition exampleUnsignedMultiSig : @StacksTransaction boolCodec :=
  mkTransaction TransactionVersion_Mainnet ChainID_Mainnet
    (StandardAuth
       (MultiSig SerializeP2SH
          (exampleHash (MultiSigMode SerializeP2SH) 2
             (map exampleCreateStacksPublicKey examplePubKeys))
          0 0 [] 2))
    (TokenTransferPayload (StandardPrincipalCV (mkAddress 22 exampleRecipient))
       2500000 "memo")
    [] Deny Any.

Definition exampleForcedSegwit : @StacksTransaction boolCodec :=
  mkTransaction TransactionVersion_Mainnet ChainID_Mainnet
    (StandardAuth
       (MultiSig SerializeP2WSH
          (exampleHash (MultiSigMode SerializeP2SH) 2
             (map exampleCreateStacksPublicKey exampleUncompressedPubKeys))
          0 0 [] 2))
    (TokenTransferPayload (StandardPrincipalCV (mkAddress 22 exampleRecipient))
       2500000 "memo")
    [] Deny Any.

(** The serialized transactions of the two coinbase tests, lines 393-435
    of [transaction.test.ts]. *)
Definition exampleCoinbaseToStandardPrincipal : string :=
  "0x80800000000400fd3cd910d78fe7c4cd697d5228e51a912ff2ba740000000000000004000000000000000001008d36064b250dba5d3221ac235a9320adb072cfc23cd63511e6d814f97f0302e66c2ece80d7512df1b3e90ca6dce18179cb67b447973c739825ce6c6756bc247d010200000000050000000000000000000000000000000000000000000000000000000000000000051aba27f99e007c7f605a8305e318c1abde3cd220ac".

Definition exampleCoinbaseToContractPrincipal : string :=
  "0x8080000000040055a0a92720d20398211cd4c7663d65d018efcc1f00000000000000030000000000000000010118da31f542913e8c56961b87ee4794924e655a28a2034e37ef4823eeddf074747285bd6efdfbd84eecdf62cffa7c1864e683c688f4c105f4db7429066735b4e2010200000000050000000000000000000000000000000000000000000000000000000000000000061aba27f99e007c7f605a8305e318c1abde3cd220ac0b68656c6c6f5f776f726c64".

(** * Terms of the specification

    The predicates and views in which the properties below are stated. *)

Definition decodes {A} (d : Decoder A) (a : A) (bs : list byte) : Prop :=
  forall (rest : list byte) (off : nat),
    d (mkReader (bs ++ rest) off) = Ok (a, mkReader rest (off + List.length bs)).

Section ReconciliationTerms.
Context `{Environment}.

(** The derivation of the signer hash from a list of keys, in the order
    given: the hash, or the error that the derivation throws. *)
Definition deriveHash (hashMode : MultiSigHashMode) (numSigs : Z)
    (keys : list string) : Result string :=
  rbind (addressFromPublicKeys 0 (MultiSigMode hashMode) numSigs
           (map createStacksPublicKey keys))
    (fun address => Ok (hash160 address)).

(** The signer hash that a list of keys derives, in the order given: the
    hash of the address that the derivation returns. *)
Definition derivedHash (hashMode : MultiSigHashMode) (numSigs : Z)
    (keys : list string) : string :=
  hash160 (addressOfPublicKeys 0 (MultiSigMode hashMode) numSigs
             (map createStacksPublicKey keys)).

End ReconciliationTerms.

Section SignerTerms.
Context `{Environment}.

(** The envelope [tx] with [fields] as the auth fields of its multi-sig
    origin. *)
Definition withOriginFields (fields : list TransactionAuthField)
    (tx : StacksTransaction) : StacksTransaction :=
  match spendingCondition (auth tx) with
  | SingleSig _ _ _ _ _ _ => tx
  | MultiSig m sg n f _ r => withAuth (withOrigin (MultiSig m sg n f fields r) (auth tx)) tx
  end.

(** The signer key that signs for a public key in the loop of
    [mutatingSignAppendMultiSig]. *)
Definition signerKeyFor (signerKeys : list string) (publicKey : string) : option string :=
  truthyString
    (List.find (fun key => String.eqb (privateKeyToPublic key) publicKey) signerKeys).

(** The auth field that a public key contributes: a signature when a
    signer key stands for it, the bare key otherwise. *)
Definition fieldStandsFor (signerKeys : list string) (publicKey : string)
    (fld : TransactionAuthField) : Prop :=
  match signerKeyFor signerKeys publicKey with
  | Some key => exists signature, fld = SignatureField (privateKeyEncoding key) signature
  | None =>
      fld = PublicKeyField (keyEncoding (createStacksPublicKey publicKey))
              (keyData (createStacksPublicKey publicKey))
  end.

Definition hasSignerKey (signerKeys : list string) (publicKey : string) : bool :=
  match signerKeyFor signerKeys publicKey with Some _ => true | None => false end.

End SignerTerms.

Section SignedBuildersTerms.
Context `{Environment}.

(** The order in which [mutatingSignAppendMultiSig] walks the public keys:
    the reconciled order when an address is given, the given order
    otherwise. *)
Definition signingOrder (publicKeys : list string) (signaturesRequired : Z)
    (hashMode : MultiSigHashMode) (address : option string) : Result (list string) :=
  match truthyString address with
  | Some address =>
      sortedKeysForAddress publicKeys signaturesRequired hashMode
        (hash160 (createAddress address))
  | None => Ok publicKeys
  end.

End SignedBuildersTerms.

(** [refuses d e bs]: on any reader that starts with [bs], the decoder [d]
    throws [e]. *)
Definition refuses {A} (d : Decoder A) (e : Error) (bs : list byte) : Prop :=
  forall (rest : list byte) (off : nat), d (mkReader (bs ++ rest) off) = Err e.

Section CompressionRuleTerms.
Context `{Environment}.

(** Everything that is read before the compression rule is checked fits
    its place on the wire. *)
Definition wellFormedUpToOrigin (tx : StacksTransaction) : bool :=
  validVersion (txVersion tx) && isUInt 4 (chainId tx)
    && wellFormedCondition (spendingCondition (auth tx)).

End CompressionRuleTerms.

Section BuilderPropertiesTerms.
Context {CV : ClarityCodec} {Env : Environment} {Net : Collaborators}.

Definition isEstimateFee (c : Call) : bool :=
  match c with EstimateFee _ _ => true | _ => false end.

Definition isGetNonce (c : Call) : bool :=
  match c with GetNonce _ _ => true | _ => false end.

(** What the three unsigned builders have in common in their options. *)
Record CommonOptions := mkCommonOptions {
  givenFee : option Z;
  givenNonce : option Z;
  givenNetwork : option (option (StacksNetworkName + StacksNetwork));
  givenSponsored : option bool;
  givenPostConditionMode : option PostConditionMode;
  givenKeys : UnsignedKeys
}.

Definition tokenTransferOptions (o : TokenTransferOptions.t UnsignedKeys) : CommonOptions :=
  mkCommonOptions (TokenTransferOptions.fee o) (TokenTransferOptions.nonce o)
    (TokenTransferOptions.network o) (TokenTransferOptions.sponsored o) None
    (TokenTransferOptions.who o).

Definition contractDeployOptions (o : ContractDeployOptions.t UnsignedKeys) : CommonOptions :=
  mkCommonOptions (ContractDeployOptions.fee o) (ContractDeployOptions.nonce o)
    (ContractDeployOptions.network o) (ContractDeployOptions.sponsored o)
    (ContractDeployOptions.postConditionMode o) (ContractDeployOptions.who o).

Definition contractCallOptions (o : ContractCallOptions.t UnsignedKeys) : CommonOptions :=
  mkCommonOptions (ContractCallOptions.fee o) (ContractCallOptions.nonce o)
    (ContractCallOptions.network o) (ContractCallOptions.sponsored o)
    (ContractCallOptions.postConditionMode o) (ContractCallOptions.who o).

(** [options.network], once the default is in. *)
Definition networkOption (o : CommonOptions)
  : option (StacksNetworkName + StacksNetwork) :=
  assigned (inr STACKS_MAINNET) (givenNetwork o).

(** The network that the builder works with: the one of [options.network].
    When that is [undefined] there is none, and the builder throws where it
    reads the version; the terms below are then about no call and no
    envelope, and the mainnet profile fills the place. *)
Definition resolvedNetwork (o : CommonOptions) : StacksNetwork :=
  networkFrom (default (inr STACKS_MAINNET) (networkOption o)).

(** The spending condition the options ask for. *)
Definition dispatched (who : UnsignedKeys) (c : SpendingCondition) : Prop :=
  match who with
  | WithPublicKey publicKey =>
      createSingleSigSpendingCondition SerializeP2PKH publicKey (nonceOf c) (feeOf c)
      = Ok c
  | WithPublicKeys options =>
      exists keys,
        createMultiSigSpendingCondition
          (if truthyBool (useNonSequentialMultiSig options)
           then SerializeP2SHNonSequential else SerializeP2SH)
          (numSignatures options) keys (nonceOf c) (feeOf c)
        = Ok c
        /\ keys ≡ₚ publicKeys options
  end.

(** What a run of an unsigned builder guarantees: which collaborators were
    called, what they were given, and what the envelope holds. *)
Definition BuilderContract (o : CommonOptions)
    (outcome : list Call * Result StacksTransaction) : Prop :=
  let log := fst outcome in
  (* a collaborator is called only for an option that was left out *)
  (existsb isEstimateFee log = true -> givenFee o = None)
  /\ (existsb isGetNonce log = true -> givenNonce o = None)
  (* the envelope given to the estimator holds the default fee *)
  /\ (forall tx0 api,
        In (EstimateFee tx0 api) log ->
        feeOf (spendingCondition (auth tx0)) = 0
        /\ nonceOf (spendingCondition (auth tx0)) = default 0 (givenNonce o))
  /\ forall tx,
       snd outcome = Ok tx ->
       (* and it is called whenever the option was left out *)
       (givenFee o = None ->
          existsb isEstimateFee log = true
          /\ exists tx0 api,
               In (EstimateFee tx0 api) log
               /\ estimateFee tx0 api = Ok (feeOf (feeCondition (auth tx))))
       /\ (givenNonce o = None ->
             existsb isGetNonce log = true
             /\ exists address api,
                  In (GetNonce address api) log
                  /\ getNonce address api = Ok (nonceOf (spendingCondition (auth tx))))
       (* what was supplied is used as it is *)
       /\ (forall fee, givenFee o = Some fee ->
                       feeOf (spendingCondition (auth tx)) = fee)
       /\ (forall nonce, givenNonce o = Some nonce ->
                         nonceOf (spendingCondition (auth tx)) = nonce)
       (* the defaults of the other options *)
       /\ txVersion tx = Network.transactionVersion (resolvedNetwork o)
       /\ chainId tx = Network.chainId (resolvedNetwork o)
       /\ (givenNetwork o = None ->
             txVersion tx = TransactionVersion_Mainnet /\ chainId tx = ChainID_Mainnet)
       /\ anchorMode tx = Any
       /\ postConditionMode tx = default Deny (givenPostConditionMode o)
       /\ authType (auth tx)
          = (if default false (givenSponsored o) then Sponsored else Standard)
       (* single-sig for one public key, multi-sig for a key set *)
       /\ isSingleSig (spendingCondition (auth tx))
          = (match givenKeys o with WithPublicKey _ => true | WithPublicKeys _ => false end)
       /\ dispatched (givenKeys o) (spendingCondition (auth tx)).

(** The part the three unsigned builders run after the payload and the
    spending condition are made, on a network that is there. *)
Definition assembleOn (o : CommonOptions) (api : ApiOpts) (p : Payload)
    (pcs : option (list PostConditionWire)) (c : SpendingCondition)
  : Async StacksTransaction :=
  let network := resolvedNetwork o in
  let authorization :=
    if default false (givenSponsored o) then createSponsoredAuth c None
    else createStandardAuth c in
  let transaction :=
    newStacksTransaction (Network.transactionVersion network) authorization p
      pcs (Some (default Deny (givenPostConditionMode o)))
      (Some Any) (Some (Network.chainId network)) in
  abind (estimateFeeIfOmitted (givenFee o) api transaction) (fun transaction =>
  abind (getNonceIfOmitted (givenNonce o) network api transaction) (fun transaction =>
  aret transaction)).

(** The part the three unsigned builders run after the payload and the
    spending condition are made: the version of the network is read, which
    throws when the network is [undefined], and the rest follows. *)
Definition assemble (o : CommonOptions) (api : ApiOpts) (p : Payload)
    (pcs : option (list PostConditionWire)) (c : SpendingCondition)
  : Async StacksTransaction :=
  abind (lift (readNetwork "transactionVersion"
                 (option_map networkFrom (networkOption o))))
    (fun _ => assembleOn o api p pcs c).

(** What the nonce lookup is asked: the address made of the single-sig
    address version of the network and the signer hash of the origin's
    condition, whichever kind of condition that is. *)
Definition NonceLookupContract (o : CommonOptions)
    (outcome : list Call * Result StacksTransaction) : Prop :=
  forall address api,
    In (GetNonce address api) (fst outcome) ->
    givenNonce o = None
    /\ exists c,
         originSpendingCondition (givenKeys o) (default 0 (givenNonce o))
           (default 0 (givenFee o)) = Ok c
         /\ address
            = c32address (singleSig (Network.addressVersion (resolvedNetwork o)))
                (signerOf c)
         /\ match givenKeys o with
            | WithPublicKey _ => isSingleSig c = true
            | WithPublicKeys options =>
                isSingleSig c = false
                /\ exists keys,
                     keys ≡ₚ publicKeys options
                     /\ signerOf c
                        = derivedHash
                            (if truthyBool (useNonSequentialMultiSig options)
                             then SerializeP2SHNonSequential else SerializeP2SH)
                            (numSignatures options) keys
            end.

Definition sponsorOf (a : Authorization) : option SpendingCondition :=
  match a with
  | StandardAuth _ => None
  | SponsoredAuth _ s => Some s
  end.

(** [signedFrom tx tx']: [tx'] is [tx] with signatures or bare keys put in
    its origin condition, and nothing else changed. *)
Definition signedFrom (tx tx' : StacksTransaction) : Prop :=
  txVersion tx' = txVersion tx
  /\ chainId tx' = chainId tx
  /\ payload tx' = payload tx
  /\ postConditions tx' = postConditions tx
  /\ postConditionMode tx' = postConditionMode tx
  /\ anchorMode tx' = anchorMode tx
  /\ authType (auth tx') = authType (auth tx)
  /\ sponsorOf (auth tx') = sponsorOf (auth tx)
  /\ hashModeOf (spendingCondition (auth tx')) = hashModeOf (spendingCondition (auth tx))
  /\ signerOf (spendingCondition (auth tx')) = signerOf (spendingCondition (auth tx))
  /\ nonceOf (spendingCondition (auth tx')) = nonceOf (spendingCondition (auth tx))
  /\ feeOf (spendingCondition (auth tx')) = feeOf (spendingCondition (auth tx)).

(** The public-key options that a signed builder hands to the unsigned
    builder. *)
Definition unsignedKeys (who : SignedKeys) : UnsignedKeys :=
  match who with
  | WithSenderKey senderKey => WithPublicKey (privateKeyToPublic senderKey)
  | WithSignerKeys multiSigOptions _ => WithPublicKeys multiSigOptions
  end.

Definition unsignedTokenTransfer (o : TokenTransferOptions.t SignedKeys)
  : TokenTransferOptions.t UnsignedKeys :=
  TokenTransferOptions.mk
    (TokenTransferOptions.recipient o) (TokenTransferOptions.amount o)
    (TokenTransferOptions.fee o) (TokenTransferOptions.nonce o)
    (TokenTransferOptions.network o) (TokenTransferOptions.memo o)
    (TokenTransferOptions.sponsored o) (TokenTransferOptions.api o)
    (unsignedKeys (TokenTransferOptions.who o)).

Definition unsignedContractDeploy (o : ContractDeployOptions.t SignedKeys)
  : ContractDeployOptions.t UnsignedKeys :=
  ContractDeployOptions.mk
    (ContractDeployOptions.clarityVersion o) (ContractDeployOptions.contractName o)
    (ContractDeployOptions.codeBody o) (ContractDeployOptions.fee o)
    (ContractDeployOptions.nonce o) (ContractDeployOptions.network o)
    (ContractDeployOptions.api o) (ContractDeployOptions.postConditionMode o)
    (ContractDeployOptions.postConditions o) (ContractDeployOptions.sponsored o)
    (unsignedKeys (ContractDeployOptions.who o)).

Definition unsignedContractCall (o : ContractCallOptions.t SignedKeys)
  : ContractCallOptions.t UnsignedKeys :=
  ContractCallOptions.mk
    (ContractCallOptions.contractAddress o) (ContractCallOptions.contractName o)
    (ContractCallOptions.functionName o) (ContractCallOptions.functionArgs o)
    (ContractCallOptions.fee o) (ContractCallOptions.nonce o)
    (ContractCallOptions.network o) (ContractCallOptions.api o)
    (ContractCallOptions.postConditionMode o) (ContractCallOptions.postConditions o)
    (ContractCallOptions.validateWithAbi o) (ContractCallOptions.sponsored o)
    (unsignedKeys (ContractCallOptions.who o)).

(** A signed builder makes the calls of the unsigned builder it hands its
    options to, and returns that builder's envelope with the signatures
    put in. *)
Definition SignedBuilderContract (unsignedOutcome outcome : list Call * Result StacksTransaction)
  : Prop :=
  fst outcome = fst unsignedOutcome
  /\ forall tx',
       snd outcome = Ok tx' ->
       exists tx, snd unsignedOutcome = Ok tx /\ signedFrom tx tx'.

End BuilderPropertiesTerms.
(** * Sponsoring ([builders.ts], lines 603-697) *)

(** [whenTransactionVersion] ([constants.ts], lines 19-22): the entry of a
    record that is keyed by the two transaction versions.  A version that
    is neither of the two has no entry. *)
Record TransactionVersionRecord (T : Type) := mkVersionRecord {
  whenMainnet : T;
  whenTestnet : T
}.
Arguments mkVersionRecord {T}.
Arguments whenMainnet {T}.
Arguments whenTestnet {T}.

Definition whenTransactionVersion {T} (transactionVersion : Z)
    (map : TransactionVersionRecord T) : option T :=
  if transactionVersion =? TransactionVersion_Mainnet then Some (whenMainnet map)
  else if transactionVersion =? TransactionVersion_Testnet then Some (whenTestnet map)
  else None.

(** The names of the payload types, as the reverse mapping of the
    [PayloadType] enumeration gives them. *)
Definition payloadTypeName (t : PayloadType) : string :=
  match t with
  | TokenTransfer => "TokenTransfer"
  | SmartContract => "SmartContract"
  | VersionedSmartContract => "VersionedSmartContract"
  | ContractCall => "ContractCall"
  | Coinbase => "Coinbase"
  | CoinbaseToAltRecipient => "CoinbaseToAltRecipient"
  end.

Definition MSG_SPONSORING_NOT_SUPPORTED : string :=
  "Sponsored transactions not supported for transaction type ".
(** What reading [network.addressVersion] throws when [network] is
    [undefined]. *)
Definition MSG_UNDEFINED_NETWORK : string := MSG_UNDEFINED_READ "addressVersion".

(** The functions of the [keys], [signer] and [network] modules that
    [sponsorTransaction] uses and that are not part of the sources at hand:
    the address of a public key, the signer that works on a sponsored
    transaction -- on a copy of it, which is the transaction the signer
    hands out -- and its signature as the sponsor. *)
Class SponsorSigning `{Environment} := {
  publicKeyToAddress : Z -> string -> string;
  createSponsorSigner :
    StacksTransaction -> SpendingCondition -> Result TransactionSigner;
  signSponsor : string -> TransactionSigner -> Result TransactionSigner
}.

(** [SponsorOptionsOpts] (lines 606-621), without its [transaction]: that
    property refers to an object of the caller which [sponsorTransaction]
    writes to, and is kept as the state of the computation below. *)
Module SponsorOptionsOpts.
Record t {CV : ClarityCodec} {Env : Environment} := mk {
  (** the sponsor's private key *)
  sponsorPrivateKey : string;
  (** the transaction fee amount to sponsor *)
  fee : option Z;
  (** the nonce of the sponsor account *)
  sponsorNonce : option Z;
  (** the hashmode of the sponsor's address *)
  sponsorAddressHashmode : option SingleSigHashMode;
  (** the network that the transaction will be broadcast to; [Some None]
      is a property that is there and holds [undefined] *)
  network : option (option (StacksNetworkName + StacksNetwork));
  api : option ApiOpts
}.
Arguments mk {CV Env}.
End SponsorOptionsOpts.

Section Sponsoring.
Context {CV : ClarityCodec} {Env : Environment} {Net : Collaborators}
        {Sig : SponsorSigning}.

(** A computation that awaits collaborators and writes to the transaction
    object of the caller: it is given the object and the log of the calls
    made, and leaves both as they are when it returns or throws. *)
Definition Mutating (A : Type) : Type :=
  StacksTransaction -> list Call -> StacksTransaction * list Call * Result A.

Definition mret {A} (a : A) : Mutating A := fun object log => (object, log, Ok a).

Definition mthrow {A} (e : Error) : Mutating A := fun object log => (object, log, Err e).

Definition mbind {A B} (m : Mutating A) (k : A -> Mutating B) : Mutating B :=
  fun object log =>
    match m object log with
    | (object', log', Ok a) => k a object' log'
    | (object', log', Err e) => (object', log', Err e)
    end.

(** The object as it stands. *)
Definition current : Mutating StacksTransaction :=
  fun object log => (object, log, Ok object).

(** A method of the object that rewrites it, or throws and leaves it. *)
Definition mutate (method : StacksTransaction -> Result StacksTransaction)
  : Mutating unit :=
  fun object log =>
    match method object with
    | Ok object' => (object', log, Ok tt)
    | Err e => (object, log, Err e)
    end.

Definition awaiting {A} (m : Async A) : Mutating A :=
  fun object log => let '(log', r) := m log in (object, log', r).

Definition returning {A} (r : Result A) : Mutating A :=
  fun object log => (object, log, r).

Declare Scope mutating_scope.
Delimit Scope mutating_scope with mutating.
Notation "x <- m ;; k" := (mbind m (fun x => k))
  (at level 100, m at next level, right associativity) : mutating_scope.
Local Open Scope mutating_scope.

(** [switch (options.transaction.payload.payloadType)] (lines 653-666):
    the payload types whose fee is estimated. *)
Definition sponsoringSupported (t : PayloadType) : bool :=
  match t with
  | TokenTransfer | SmartContract | VersionedSmartContract | ContractCall => true
  | Coinbase | CoinbaseToAltRecipient => false
  end.

(** [if (sponsorOptions.fee == null) { ... }] (lines 651-669). *)
Definition sponsoredFee (fee : option Z) (api : ApiOpts) : Mutating Z :=
  match fee with
  | None =>
      transaction <- current ;;
      txFee <-
        (if sponsoringSupported (payloadType (payload transaction))
         then awaiting (await (EstimateFee transaction api)
                          (estimateFee transaction api))
         else mthrow (JsError (String.append MSG_SPONSORING_NOT_SUPPORTED
                                 (payloadTypeName
                                    (payloadType (payload transaction)))))) ;;
      _ <- mutate (fun object => Ok (setFee txFee object)) ;;
      mret txFee
  | Some fee => mret fee
  end.

(** [if (sponsorOptions.sponsorNonce == null) { ... }] (lines 671-676).
    This is where [network] is read for the first time: a network that is
    [undefined] makes the read throw. *)
Definition sponsoredNonce (sponsorNonce : option Z) (network : option StacksNetwork)
    (sponsorPubKey : string) (api : ApiOpts) : Mutating Z :=
  match sponsorNonce with
  | None =>
      match network with
      | None => mthrow (JsError MSG_UNDEFINED_NETWORK)
      | Some network =>
          let addressVersion := singleSig (Network.addressVersion network) in
          let address := publicKeyToAddress addressVersion sponsorPubKey in
          awaiting (await (GetNonce address api) (getNonce address api))
      end
  | Some sponsorNonce => mret sponsorNonce
  end.

(** The network option once the defaults are in: what the caller's
    property holds, or else the network detected from the version of the
    transaction (lines 635-648); [None] is [undefined], which is what the
    record of the two networks gives for any other version. *)
Definition sponsorNetworkOption
    (given : option (option (StacksNetworkName + StacksNetwork)))
    (transaction : StacksTransaction) : option (StacksNetworkName + StacksNetwork) :=
  let defaultNetwork :=
    whenTransactionVersion (txVersion transaction)
      (mkVersionRecord STACKS_MAINNET STACKS_TESTNET) in
      (* detect network from transaction version *)
  match given with
  | Some network => network
  | None => option_map inr defaultNetwork
  end.

(** [options.api] (line 648): the default for the network, which may be
    [undefined]. *)
Definition sponsorApi (sponsorOptions : SponsorOptionsOpts.t)
    (transaction : StacksTransaction) : ApiOpts :=
  defaultApi
    (sponsorNetworkOption (SponsorOptionsOpts.network sponsorOptions) transaction)
    (SponsorOptionsOpts.api sponsorOptions).

(** Constructs and signs a sponsored transaction as the sponsor (lines
    632-697).  The version of a transaction is one of the two by its type
    in the source; for another one the record of the networks has no
    entry and the default network is [undefined], and so is a network
    that the caller supplies as [undefined].  [networkFrom] hands back what
    is not a name, so the network stays [undefined] until it is read, which
    is where the nonce is looked up. *)
Definition sponsorTransaction (sponsorOptions : SponsorOptionsOpts.t)
  : Mutating StacksTransaction :=
  transaction <- current ;;
  let sponsorAddressHashmode :=
    default SerializeP2PKH (SponsorOptionsOpts.sponsorAddressHashmode sponsorOptions) in
  let networkOption :=
    sponsorNetworkOption (SponsorOptionsOpts.network sponsorOptions) transaction in
  let api := sponsorApi sponsorOptions transaction in
  let network := option_map networkFrom networkOption in
  let sponsorPubKey :=
    privateKeyToPublic (SponsorOptionsOpts.sponsorPrivateKey sponsorOptions) in
  fee <- sponsoredFee (SponsorOptionsOpts.fee sponsorOptions) api ;;
  sponsorNonce <-
    sponsoredNonce (SponsorOptionsOpts.sponsorNonce sponsorOptions) network
      sponsorPubKey api ;;
  sponsorSpendingCondition <-
    returning (createSingleSigSpendingCondition sponsorAddressHashmode
                 sponsorPubKey sponsorNonce fee) ;;
  _ <- mutate (setSponsor sponsorSpendingCondition) ;;
  let privKey := SponsorOptionsOpts.sponsorPrivateKey sponsorOptions in
  transaction <- current ;;
  signer <- returning (createSponsorSigner transaction sponsorSpendingCondition) ;;
  signer <- returning (signSponsor privKey signer) ;;
  let 'mkSigner signed := signer in
  mret signed.

(** A run on the transaction object of the caller, from an empty log:
    the object as it is left, the calls made, and what is returned or
    thrown. *)
Definition sponsoring (sponsorOptions : SponsorOptionsOpts.t)
    (transaction : StacksTransaction)
  : StacksTransaction * list Call * Result StacksTransaction :=
  sponsorTransaction sponsorOptions transaction [].

(** The three parts of a run. *)
Definition objectAfter {A} (outcome : StacksTransaction * list Call * Result A)
  : StacksTransaction := fst (fst outcome).

Definition callsOf {A} (outcome : StacksTransaction * list Call * Result A)
  : list Call := snd (fst outcome).

Definition resultOf {A} (outcome : StacksTransaction * list Call * Result A)
  : Result A := snd outcome.

End Sponsoring.

(** * Terms of the further properties *)

Section FurtherTerms.
Context {CV : ClarityCodec} {Env : Environment} {Net : Collaborators}.

(** [answers c e]: the collaborator that the call [c] reaches answers with
    the error [e]. *)
Definition answers (c : Call) (e : Error) : Prop :=
  match c with
  | EstimateFee transaction api => estimateFee transaction api = Err e
  | GetNonce address api => getNonce address api = Err e
  | GetAbi contractAddress contractName api =>
      getAbi contractAddress contractName api = Err e
  end.

Definition isGetAbi (c : Call) : bool :=
  match c with GetAbi _ _ _ => true | _ => false end.

(** The hash mode that the multi-sig options ask for. *)
Definition multiSigHashModeOf (options : UnsignedMultiSigOptions) : MultiSigHashMode :=
  if truthyBool (useNonSequentialMultiSig options)
  then SerializeP2SHNonSequential else SerializeP2SH.

(** The six builders and their options. *)
Inductive Build :=
| TransferUnsigned (o : TokenTransferOptions.t UnsignedKeys)
| DeployUnsigned (o : ContractDeployOptions.t UnsignedKeys)
| CallUnsigned (o : ContractCallOptions.t UnsignedKeys)
| TransferSigned (o : TokenTransferOptions.t SignedKeys)
| DeploySigned (o : ContractDeployOptions.t SignedKeys)
| CallSigned (o : ContractCallOptions.t SignedKeys).

Definition build (b : Build) : Async StacksTransaction :=
  match b with
  | TransferUnsigned o => makeUnsignedSTXTokenTransfer o
  | DeployUnsigned o => makeUnsignedContractDeploy o
  | CallUnsigned o => makeUnsignedContractCall o
  | TransferSigned o => makeSTXTokenTransfer o
  | DeploySigned o => makeContractDeploy o
  | CallSigned o => makeContractCall o
  end.

(** The options that the builders have in common; those of a signed
    builder are the ones it hands to its unsigned builder. *)
Definition optionsOf (b : Build) : CommonOptions :=
  match b with
  | TransferUnsigned o => tokenTransferOptions o
  | DeployUnsigned o => contractDeployOptions o
  | CallUnsigned o => contractCallOptions o
  | TransferSigned o => tokenTransferOptions (unsignedTokenTransfer o)
  | DeploySigned o => contractDeployOptions (unsignedContractDeploy o)
  | CallSigned o => contractCallOptions (unsignedContractCall o)
  end.

(** The keys that a signed builder is given to sign with. *)
Definition signedKeysOf (b : Build) : option SignedKeys :=
  match b with
  | TransferUnsigned _ | DeployUnsigned _ | CallUnsigned _ => None
  | TransferSigned o => Some (TokenTransferOptions.who o)
  | DeploySigned o => Some (ContractDeployOptions.who o)
  | CallSigned o => Some (ContractCallOptions.who o)
  end.

(** [options.api], once the default is in. *)
Definition apiOf (b : Build) : ApiOpts :=
  let given :=
    match b with
    | TransferUnsigned o => TokenTransferOptions.api o
    | DeployUnsigned o => ContractDeployOptions.api o
    | CallUnsigned o => ContractCallOptions.api o
    | TransferSigned o => TokenTransferOptions.api o
    | DeploySigned o => ContractDeployOptions.api o
    | CallSigned o => ContractCallOptions.api o
    end in
  defaultApi (networkOption (optionsOf b)) given.

(** The payload that the options ask for. *)
Definition askedPayload (b : Build) : Result Payload :=
  let transfer {W} (o : TokenTransferOptions.t W) :=
    createTokenTransferPayload (TokenTransferOptions.recipient o)
      (TokenTransferOptions.amount o)
      (default EmptyString (TokenTransferOptions.memo o)) in
  let deploy {W} (o : ContractDeployOptions.t W) :=
    Ok (createSmartContractPayload (ContractDeployOptions.contractName o)
          (ContractDeployOptions.codeBody o)
          (Some (default Clarity2 (ContractDeployOptions.clarityVersion o)))) in
  let call {W} (o : ContractCallOptions.t W) :=
    Ok (createContractCallPayload (ContractCallOptions.contractAddress o)
          (ContractCallOptions.contractName o) (ContractCallOptions.functionName o)
          (ContractCallOptions.functionArgs o)) in
  match b with
  | TransferUnsigned o => transfer o
  | DeployUnsigned o => deploy o
  | CallUnsigned o => call o
  | TransferSigned o => transfer o
  | DeploySigned o => deploy o
  | CallSigned o => call o
  end.

(** The post-conditions that the options ask for, as they go on the
    wire; a token transfer has no such option. *)
Definition askedPostConditions (b : Build) : list PostConditionWire :=
  match b with
  | TransferUnsigned _ | TransferSigned _ => []
  | DeployUnsigned o => default [] (ContractDeployOptions.postConditions o)
  | DeploySigned o => default [] (ContractDeployOptions.postConditions o)
  | CallUnsigned o =>
      map postConditionToWire (default [] (ContractCallOptions.postConditions o))
  | CallSigned o =>
      map postConditionToWire (default [] (ContractCallOptions.postConditions o))
  end.

(** What a contract-call builder is asked to validate with. *)
Definition askedValidation (b : Build) : option (bool + ClarityAbi) :=
  match b with
  | CallUnsigned o => ContractCallOptions.validateWithAbi o
  | CallSigned o => ContractCallOptions.validateWithAbi o
  | _ => None
  end.

(** The contract that a contract-call builder names. *)
Definition askedContract (b : Build) : string * string :=
  match b with
  | CallUnsigned o =>
      (ContractCallOptions.contractAddress o, ContractCallOptions.contractName o)
  | CallSigned o =>
      (ContractCallOptions.contractAddress o, ContractCallOptions.contractName o)
  | _ => (EmptyString, EmptyString)
  end.

(** The interface that the payload of a contract call is validated
    against, when validation is asked for: the one fetched, or the one
    supplied.  Nothing is fetched for a network that is [undefined]. *)
Definition validationAbi (b : Build) : option (Result ClarityAbi) :=
  match askedValidation b with
  | Some (inl true) =>
      match networkOption (optionsOf b) with
      | Some _ =>
          Some (getAbi (fst (askedContract b)) (snd (askedContract b)) (apiOf b))
      | None => Some (Err (JsError MSG_NETWORK_REQUIRED_FOR_ABI))
      end
  | Some (inr abi) => Some (Ok abi)
  | Some (inl false) | None => None
  end.

(** The call that fetches the interface, when it has to be fetched. *)
Definition abiCalls (b : Build) : list Call :=
  match askedValidation b, networkOption (optionsOf b) with
  | Some (inl true), Some _ =>
      [GetAbi (fst (askedContract b)) (snd (askedContract b)) (apiOf b)]
  | _, _ => []
  end.

(** The first part of a builder, up to the spending condition: the
    payload is made and, for a contract call, validated. *)
Definition payloadStep (b : Build) : list Call * Result Payload :=
  match askedPayload b with
  | Err e => ([], Err e)
  | Ok p =>
      let '(log, r) :=
        run (validateWithAbiIfAsked (askedValidation b)
               (networkOption (optionsOf b))
               (fst (askedContract b)) (snd (askedContract b)) (apiOf b) p) in
      (log, rbind r (fun _ => Ok p))
  end.

(** The post-conditions that a builder hands to the constructor of the
    envelope: a token transfer hands it none. *)
Definition postConditionsArgument (b : Build) : option (list PostConditionWire) :=
  match b with
  | TransferUnsigned _ | TransferSigned _ => None
  | _ => Some (askedPostConditions b)
  end.

(** The envelope as the constructor makes it, before the fee and the
    nonce are looked up. *)
Definition draft (o : CommonOptions) (p : Payload)
    (pcs : option (list PostConditionWire)) (c : SpendingCondition) : StacksTransaction :=
  let network := resolvedNetwork o in
  newStacksTransaction (Network.transactionVersion network)
    (if default false (givenSponsored o) then createSponsoredAuth c None
     else createStandardAuth c)
    p pcs (Some (default Deny (givenPostConditionMode o)))
    (Some Any) (Some (Network.chainId network)).

(** The nonce lookup on the envelope [tx], after the calls [log]. *)
Definition nonceStep (o : CommonOptions) (api : ApiOpts) (log : list Call)
    (tx : StacksTransaction) : list Call * Result StacksTransaction :=
  match givenNonce o with
  | Some _ => (log, Ok tx)
  | None =>
      let address :=
        c32address (singleSig (Network.addressVersion (resolvedNetwork o)))
          (signerOf (spendingCondition (auth tx))) in
      (log ++ [GetNonce address api],
       rbind (getNonce address api) (fun n => Ok (setNonce n tx)))
  end.

(** The fee estimate on the envelope [tx], and the nonce lookup after
    it. *)
Definition feeStep (o : CommonOptions) (api : ApiOpts) (log : list Call)
    (tx : StacksTransaction) : list Call * Result StacksTransaction :=
  match givenFee o with
  | Some _ => nonceStep o api log tx
  | None =>
      match estimateFee tx api with
      | Ok fee => nonceStep o api (log ++ [EstimateFee tx api]) (setFee fee tx)
      | Err e => (log ++ [EstimateFee tx api], Err e)
      end
  end.

(** What a signed builder does with the envelope of its unsigned
    builder. *)
Definition signWith (who : option SignedKeys) (tx : StacksTransaction)
  : Result StacksTransaction :=
  match who with
  | None => Ok tx
  | Some (WithSenderKey senderKey) =>
      Ok (transaction (signOrigin senderKey (newTransactionSigner tx)))
  | Some (WithSignerKeys options signerKeys) =>
      mutatingSignAppendMultiSig tx (publicKeys options) signerKeys (address options)
  end.

(** What a builder does once it has made its payload [p] and the
    spending condition [c] of its origin.  It asks the estimator for the
    fee, when none was supplied, on the envelope as the constructor made
    it; it asks for the nonce, when none was supplied and the estimator has
    not answered with an error, at the address of the signer hash under the
    single-sig version; and an unsigned builder returns an envelope when
    the collaborators it asks have answers. *)
Definition BuilderProgress (b : Build) (p : Payload) (c : SpendingCondition)
    (outcome : list Call * Result StacksTransaction) : Prop :=
  let o := optionsOf b in
  let api := apiOf b in
  let unsigned := draft o p (postConditionsArgument b) c in
  let address :=
    c32address (singleSig (Network.addressVersion (resolvedNetwork o))) (signerOf c) in
  let estimated := givenFee o = None -> exists fee, estimateFee unsigned api = Ok fee in
  let lookedUp := givenNonce o = None -> exists nonce, getNonce address api = Ok nonce in
  (givenFee o = None -> In (EstimateFee unsigned api) (fst outcome))
  /\ (givenNonce o = None -> estimated -> In (GetNonce address api) (fst outcome))
  /\ (signedKeysOf b = None -> estimated -> lookedUp ->
      exists tx, snd outcome = Ok tx).

(** A builder in its steps: the payload, the spending condition of the
    origin, the envelope -- for which the network has to be there --, the
    fee, the nonce, the signatures. *)
Definition steps (b : Build) : list Call * Result StacksTransaction :=
  let o := optionsOf b in
  match payloadStep b with
  | (log, Err e) => (log, Err e)
  | (log, Ok p) =>
      match originSpendingCondition (givenKeys o) (default 0 (givenNonce o))
              (default 0 (givenFee o)) with
      | Err e => (log, Err e)
      | Ok c =>
          match networkOption o with
          | None => (log, Err (JsError (MSG_UNDEFINED_READ "transactionVersion")))
          | Some _ =>
              let '(log', r) :=
                feeStep o (apiOf b) log
                  (draft o p
                     (match b with
                      | TransferUnsigned _ | TransferSigned _ => None
                      | _ => Some (askedPostConditions b)
                      end) c) in
              (log', rbind r (signWith (signedKeysOf b)))
          end
      end
  end.

End FurtherTerms.

(** ** Further inputs for the small environment *)

(** A sponsor signer for the small environment: it takes a transaction
    that is sponsored, and the sponsor's signature goes into the sponsor's
    condition. *)
Definition exampleSponsorSigning : @SponsorSigning boolCodec exampleEnvironment := {|
  publicKeyToAddress := fun v pk =>
    String.append (if v =? 22 then "SP-" else "ST-") (String.substring 2 40 pk);
  createSponsorSigner := fun tx cond =>
    match auth tx with
    | StandardAuth _ => Err NotSponsoredError
    | SponsoredAuth origin _ => Ok (mkSigner (withAuth (SponsoredAuth origin cond) tx))
    end;
  signSponsor := fun key signer =>
    let tx := transaction signer in
    match auth tx with
    | SponsoredAuth origin (SingleSig m sg n f k _) =>
        Ok (mkSigner
              (withAuth
                 (SponsoredAuth origin
                    (SingleSig m sg n f k
                       (exampleSignWithKey key (serialize tx)))) tx))
    | _ => Err NotSponsoredError
    end
|}.

(** Collaborators of which the fee estimator is out of order. *)
Definition exampleFailingCollaborators
  : @Collaborators boolCodec exampleEnvironment := {|
  estimateFee := fun _ _ => Err (JsError "fee estimation failed");
  getNonce := fun _ _ => Ok 7;
  getAbi := fun _ _ _ => Ok (tt : @ClarityAbi boolCodec exampleEnvironment)
|}.

(** Options of an unsigned 2-of-3 token transfer whose keys are in an
    order of their own, with and without the address that the sorted keys
    derive, and with an address that no order derives. *)
Definition exampleUnsignedTransferOptions (address : option string)
  : @TokenTransferOptions.t boolCodec exampleEnvironment UnsignedKeys :=
  TokenTransferOptions.mk (inl exampleRecipient) 2500000 None None None None None None
    (WithPublicKeys (mkMultiSigOptions 2 exampleUnsortedKeys address None)).

(** The transfer with a [network] that is there and holds [undefined]. *)
Definition exampleTransferUndefinedNetwork
  : @TokenTransferOptions.t boolCodec exampleEnvironment UnsignedKeys :=
  TokenTransferOptions.mk (inl exampleRecipient) 2500000 None None (Some None) None None
    None (WithPublicKeys (mkMultiSigOptions 2 exampleUnsortedKeys None None)).

Definition exampleStrangerAddress : string :=
  "0000000000000000000000000000000000000000".

(** The same transfer, signed by the first two keys. *)
Definition exampleSignedAddressOptions
  : @TokenTransferOptions.t boolCodec exampleEnvironment SignedKeys :=
  TokenTransferOptions.mk (inl exampleRecipient) 2500000 None None None None None None
    (WithSignerKeys (mkMultiSigOptions 2 exampleUnsortedKeys (Some exampleSortedTarget) None)
       (firstn 2 examplePrivKeys)).

(** A contract call that asks for validation against the interface of
    the contract. *)
Definition exampleContractCallOptions
  : @ContractCallOptions.t boolCodec exampleEnvironment UnsignedKeys :=
  ContractCallOptions.mk exampleRecipient "hello_world" "say"
    ([true; false] : list (@ClarityValue boolCodec))
    None None None None None None (Some (inl true)) None
    (WithPublicKey (nth 0 examplePubKeys EmptyString)).

(** The same call with a [network] that is there and holds
    [undefined]. *)
Definition exampleCallUndefinedNetwork
  : @ContractCallOptions.t boolCodec exampleEnvironment UnsignedKeys :=
  ContractCallOptions.mk exampleRecipient "hello_world" "say"
    ([true; false] : list (@ClarityValue boolCodec))
    None None (Some None) None None None (Some (inl true)) None
    (WithPublicKey (nth 0 examplePubKeys EmptyString)).

(** A sponsored token transfer on the test network, still with the
    placeholder for its sponsor; the same with a standard authorization;
    and a sponsored coinbase. *)
Definition exampleSponsoredTransfer : @StacksTransaction boolCodec :=
  mkTransaction TransactionVersion_Testnet ChainID_Testnet
    (SponsoredAuth (spendingCondition (auth exampleTransaction))
       (@placeholderSponsor boolCodec exampleEnvironment))
    (payload exampleTransaction) [] Deny Any.

Definition exampleStandardTransfer : @StacksTransaction boolCodec :=
  mkTransaction TransactionVersion_Testnet ChainID_Testnet
    (StandardAuth (spendingCondition (auth exampleTransaction)))
    (payload exampleTransaction) [] Deny Any.

Definition exampleSponsoredCoinbase : @StacksTransaction boolCodec :=
  mkTransaction TransactionVersion_Testnet ChainID_Testnet
    (auth exampleSponsoredTransfer) (CoinbasePayload (repeat x00 32)) [] Deny Any.

(** A sponsored transfer whose version is neither of the two. *)
Definition exampleUnknownVersionTransfer : @StacksTransaction boolCodec :=
  mkTransaction 1 ChainID_Testnet (auth exampleSponsoredTransfer)
    (payload exampleSponsoredTransfer) [] Deny Any.

(** Options of a sponsor who leaves the fee, the nonce, the hash mode
    and the network to [sponsorTransaction]. *)
Definition exampleSponsorOptions
  : @SponsorOptionsOpts.t boolCodec exampleEnvironment :=
  SponsorOptionsOpts.mk (nth 0 examplePrivKeys EmptyString) None None None None None.

(** * Proofs *)

(** ** Bytes, integers and hexadecimal text *)

Lemma byteOfZ_byteToZ (b : byte) : byteOfZ (byteToZ b) = b.
Proof. destruct b; reflexivity. Qed.

Lemma byteToZ_range (b : byte) : 0 <= byteToZ b < 256.
Proof.
  unfold byteToZ. pose proof (Byte.to_N_bounded b) as Hb.
  split; lia.
Qed.

Lemma byteToZ_byteOfZ (n : Z) : byteToZ (byteOfZ n) = n mod 256.
Proof.
  unfold byteOfZ, byteToZ.
  assert (0 <= n mod 256 < 256) as Hr by (apply Z.mod_pos_bound; lia).
  destruct (Byte.of_N (Z.to_N (n mod 256))) as [b|] eqn:E.
  - apply Byte.to_of_N in E. rewrite E. lia.
  - apply Byte.of_N_None_iff in E. lia.
Qed.

Lemma length_intToBytes (n : Z) (w : nat) : List.length (intToBytes n w) = w.
Proof. induction w as [|w IH]; simpl; [reflexivity | now rewrite IH]. Qed.

Lemma fold_intToBytes (n : Z) (w : nat) (acc : Z) :
  fold_left (fun a b => a * 256 + byteToZ b) (intToBytes n w) acc
  = acc * 256 ^ Z.of_nat w + n mod 256 ^ Z.of_nat w.
Proof.
  revert acc. induction w as [|w IH]; intros acc.
  - simpl. rewrite Z.mod_1_r. lia.
  - cbn [intToBytes fold_left]. rewrite IH, byteToZ_byteOfZ.
    rewrite Nat2Z.inj_succ, Z.pow_succ_r by lia.
    assert (0 < 256 ^ Z.of_nat w) as Hp by (apply Z.pow_pos_nonneg; lia).
    rewrite (Z.mul_comm 256 (256 ^ Z.of_nat w)).
    rewrite (Z.rem_mul_r n (256 ^ Z.of_nat w) 256) by lia.
    ring.
Qed.

Lemma bytesToInt_intToBytes (n : Z) (w : nat) :
  isUInt w n = true -> bytesToInt (intToBytes n w) = n.
Proof.
  unfold isUInt, bytesToInt. intros Hn.
  apply andb_true_iff in Hn as [H0 H1].
  apply Z.leb_le in H0. apply Z.ltb_lt in H1.
  rewrite fold_intToBytes. rewrite Z.mod_small by lia. lia.
Qed.

Lemma hexDigit_cases (P : Z -> Prop) :
  Forall P (map Z.of_nat (seq 0 16)) -> forall n, 0 <= n < 16 -> P n.
Proof.
  intros Hall n Hn. rewrite Forall_forall in Hall. apply Hall.
  apply list_elem_of_In, in_map_iff. exists (Z.to_nat n).
  split; [lia | apply in_seq; lia].
Qed.

Lemma hexValue_hexDigit (n : Z) : 0 <= n < 16 -> hexValue (hexDigit n) = Some n.
Proof.
  revert n. apply hexDigit_cases. repeat constructor.
Qed.

Lemma hexPairs_bytesToHex (bs : list byte) : hexPairs (bytesToHex bs) = Ok bs.
Proof.
  induction bs as [|b bs IH]; [reflexivity |].
  cbn [bytesToHex hexPairs]. pose proof (byteToZ_range b) as Hb.
  rewrite !hexValue_hexDigit.
  - rewrite IH. f_equal. f_equal.
    rewrite <- Z.div_mod by lia. apply byteOfZ_byteToZ.
  - apply Z.mod_pos_bound. lia.
  - split; [apply Z.div_pos; lia | apply Z.div_lt_upper_bound; lia].
Qed.

Lemma length_bytesToHex (bs : list byte) :
  String.length (bytesToHex bs) = (2 * List.length bs)%nat.
Proof. induction bs as [|b bs IH]; simpl; [reflexivity | rewrite IH; lia]. Qed.

Lemma hexDigit_not_x (n : Z) : 0 <= n < 16 -> hexDigit n <> "x"%char.
Proof.
  revert n. apply hexDigit_cases. repeat constructor; discriminate.
Qed.

Lemma without0x_bytesToHex (bs : list byte) :
  without0x (bytesToHex bs) = bytesToHex bs.
Proof.
  destruct bs as [|b bs]; [reflexivity |].
  cbn [bytesToHex]. pose proof (byteToZ_range b) as Hb.
  assert (hexDigit (byteToZ b mod 16) <> "x"%char) as Hx
    by (apply hexDigit_not_x, Z.mod_pos_bound; lia).
  unfold without0x.
  destruct (hexDigit (byteToZ b / 16)) as [[] [] [] [] [] [] [] []]; try reflexivity.
  destruct (hexDigit (byteToZ b mod 16)) as [[] [] [] [] [] [] [] []];
    try reflexivity.
  now contradiction Hx.
Qed.

Lemma odd_double (n : nat) : Nat.odd (2 * n) = false.
Proof.
  rewrite <- Nat.negb_even, Nat.even_mul. reflexivity.
Qed.

(** Hexadecimal text is read back to the bytes it was written from. *)
Lemma hexToBytes_bytesToHex (bs : list byte) : hexToBytes (bytesToHex bs) = Ok bs.
Proof.
  unfold hexToBytes. rewrite without0x_bytesToHex, length_bytesToHex, odd_double.
  apply hexPairs_bytesToHex.
Qed.

(** The same text behind a [0x] prefix is read to the same bytes. *)
Lemma hexToBytes_0x_bytesToHex (bs : list byte) :
  hexToBytes (String "0" (String "x" (bytesToHex bs))) = Ok bs.
Proof.
  unfold hexToBytes. cbn [without0x]. rewrite length_bytesToHex, odd_double.
  apply hexPairs_bytesToHex.
Qed.

Lemma isHexOfLength_spec (n : nat) (s : string) :
  isHexOfLength n s = true ->
  List.length (hexBytes s) = n /\ bytesToHex (hexBytes s) = s.
Proof.
  unfold isHexOfLength, hexBytes.
  destruct (hexToBytes s) as [bs|e]; [|discriminate].
  intros Hb. apply andb_true_iff in Hb as [Hl He].
  apply Nat.eqb_eq in Hl. apply String.eqb_eq in He. now split.
Qed.

Lemma isHexOfLength_bytesToHex (bs : list byte) :
  isHexOfLength (List.length bs) (bytesToHex bs) = true.
Proof.
  unfold isHexOfLength. rewrite hexToBytes_bytesToHex.
  now rewrite Nat.eqb_refl, String.eqb_refl.
Qed.

(** ** Decoders

    [decodes d a bs]: on any reader that starts with [bs], the decoder [d]
    returns [a], consumes exactly [bs] and advances the offset by its
    length. *)

Lemma decodes_ret {A} (a : A) : decodes (dret a) a [].
Proof. intros rest off. unfold dret. simpl. now rewrite Nat.add_0_r. Qed.

Lemma decodes_bind {A B} (d : Decoder A) (k : A -> Decoder B) a b bs1 bs2 :
  decodes d a bs1 -> decodes (k a) b bs2 -> decodes (dbind d k) b (bs1 ++ bs2).
Proof.
  intros H1 H2 rest off. unfold dbind.
  rewrite <- app_assoc, H1, H2, length_app, Nat.add_assoc. reflexivity.
Qed.

Lemma decodes_bind_ret {A B} (d : Decoder A) (f : A -> B) a bs :
  decodes d a bs -> decodes (dbind d (fun x => dret (f x))) (f a) bs.
Proof.
  intros H1. rewrite <- (app_nil_r bs).
  eapply decodes_bind; [exact H1 | apply decodes_ret].
Qed.

Lemma decodes_readUInt8 (b : byte) : decodes readUInt8 b [b].
Proof. intros rest off. reflexivity. Qed.

Lemma decodes_readBytes (bs : list byte) : decodes (readBytes (List.length bs)) bs bs.
Proof.
  intros rest off. unfold readBytes. cbn [remaining offset].
  rewrite length_app.
  destruct (Nat.leb_spec (List.length bs) (List.length bs + List.length rest)) as [_|Hlt];
    [|lia].
  rewrite firstn_app, Nat.sub_diag, firstn_all, firstn_O, app_nil_r.
  rewrite skipn_app, Nat.sub_diag, skipn_all, skipn_O. reflexivity.
Qed.

Lemma decodes_readInt (w : nat) (n : Z) :
  isUInt w n = true -> decodes (readInt w) n (intToBytes n w).
Proof.
  intros Hn. unfold readInt.
  rewrite <- (bytesToInt_intToBytes n w Hn) at 1.
  apply decodes_bind_ret.
  rewrite <- (length_intToBytes n w) at 1. apply decodes_readBytes.
Qed.

Lemma decodes_readInt1 (n : Z) :
  isUInt 1 n = true -> decodes (readInt 1) n [byteOfZ n].
Proof.
  intros Hn. pose proof (decodes_readInt 1 n Hn) as Hd.
  cbn [intToBytes] in Hd. change (256 ^ Z.of_nat 0) with 1 in Hd.
  now rewrite Z.div_1_r in Hd.
Qed.

Lemma decodes_readHex (n : nat) (s : string) :
  isHexOfLength n s = true -> decodes (readHex n) s (hexBytes s).
Proof.
  intros Hs. apply isHexOfLength_spec in Hs as [Hl He].
  unfold readHex.
  pose proof (decodes_bind_ret (readBytes n) bytesToHex (hexBytes s) (hexBytes s)) as Hd.
  rewrite He in Hd. apply Hd. rewrite <- Hl. apply decodes_readBytes.
Qed.

Lemma decodes_readMany {A} (d : Decoder A) (enc : A -> list byte) (xs : list A) :
  Forall (fun x => decodes d x (enc x)) xs ->
  decodes (readMany (List.length xs) d) xs (concat (map enc xs)).
Proof.
  induction 1 as [|x xs Hx _ IH]; cbn [readMany List.length map concat].
  - apply decodes_ret.
  - eapply decodes_bind; [exact Hx |]. now apply decodes_bind_ret.
Qed.

Lemma decodes_LPList {A} (d : Decoder A) (enc : A -> list byte) (xs : list A) :
  fitsPrefix 4 (List.length xs) = true ->
  Forall (fun x => decodes d x (enc x)) xs ->
  decodes (deserializeLPList d) xs (serializeLPList enc xs).
Proof.
  intros Hlen Hxs. unfold deserializeLPList, serializeLPList.
  eapply decodes_bind.
  - apply decodes_readInt. unfold isUInt, fitsPrefix in *.
    apply andb_true_iff. split; [apply Z.leb_le; lia | exact Hlen].
  - cbv beta. rewrite Nat2Z.id. now apply decodes_readMany.
Qed.

Lemma length_list_byte_of_string (s : string) :
  List.length (list_byte_of_string s) = String.length s.
Proof.
  induction s as [|c s IH]; [reflexivity |].
  change (list_byte_of_string (String c s))
    with (byte_of_ascii c :: list_byte_of_string s).
  simpl. now rewrite IH.
Qed.

Lemma decodes_LPString (w : nat) (s : string) :
  fitsPrefix w (String.length s) = true ->
  decodes (deserializeLPString w) s (serializeLPString w s).
Proof.
  intros Hlen. unfold deserializeLPString, serializeLPString.
  eapply decodes_bind.
  - apply decodes_readInt. unfold isUInt, fitsPrefix in *.
    apply andb_true_iff. split; [apply Z.leb_le; lia | exact Hlen].
  - cbv beta. rewrite Nat2Z.id.
    rewrite <- (string_of_list_byte_of_string s) at 2.
    apply decodes_bind_ret.
    rewrite <- length_list_byte_of_string. apply decodes_readBytes.
Qed.

(** One step of a decoder against the bytes its encoder wrote: the first
    component is decoded by [tac], the continuation is left as the goal. *)
Ltac decode_with tac :=
  lazymatch goal with
  | |- decodes (dbind _ (fun x => dret _)) _ (_ ++ _ ++ _) =>
      eapply decodes_bind; [tac | cbv beta]
  | |- decodes (dbind _ (fun x => dret _)) _ (_ ++ _ :: _) =>
      eapply decodes_bind; [tac | cbv beta]
  | |- decodes (dbind _ (fun x => dret (@?f x))) _ _ =>
      eapply (decodes_bind_ret _ f); tac
  | |- decodes (dbind _ _) _ (_ ++ _) =>
      eapply decodes_bind; [tac | cbv beta]
  | |- decodes (dbind ?d ?k) ?b (?x :: ?l) =>
      eapply (decodes_bind d k _ b [x] l); [tac | cbv beta]
  end.

Ltac decode_tag :=
  lazymatch goal with
  | |- decodes (dbind readUInt8 ?k) ?b (?x :: ?l) =>
      eapply (decodes_bind readUInt8 k x b [x] l);
      [apply decodes_readUInt8 | cbv beta iota]
  end.


Ltac split_valid :=
  repeat match goal with
    | H : (_ && _)%bool = true |- _ => apply andb_true_iff in H as [? ?]
    end.

(** ** The fee and the nonce of a condition *)

Lemma nonceOf_withNonce n c : nonceOf (withNonce n c) = n.
Proof. now destruct c. Qed.
Lemma feeOf_withFee f c : feeOf (withFee f c) = f.
Proof. now destruct c. Qed.
Lemma nonceOf_withFee f c : nonceOf (withFee f c) = nonceOf c.
Proof. now destruct c. Qed.
Lemma feeOf_withNonce n c : feeOf (withNonce n c) = feeOf c.
Proof. now destruct c. Qed.
Lemma signerOf_withNonce n c : signerOf (withNonce n c) = signerOf c.
Proof. now destruct c. Qed.
Lemma signerOf_withFee f c : signerOf (withFee f c) = signerOf c.
Proof. now destruct c. Qed.
Lemma isSingleSig_withNonce n c : isSingleSig (withNonce n c) = isSingleSig c.
Proof. now destruct c. Qed.
Lemma isSingleSig_withFee f c : isSingleSig (withFee f c) = isSingleSig c.
Proof. now destruct c. Qed.
Lemma withFee_same c : withFee (feeOf c) c = c.
Proof. now destruct c. Qed.
Lemma withNonce_same c : withNonce (nonceOf c) c = c.
Proof. now destruct c. Qed.

(** ** Round trip of the envelope codec *)

Section EnvelopeRoundTrip.
Context `{ClarityCodec}.
Hypothesis cv_round_trip : ClarityCodecRoundTrip.

Lemma decodes_CV (v : ClarityValue) : decodes deserializeCV v (serializeCV v).
Proof. intros rest off. apply cv_round_trip. Qed.

Lemma decodes_address (a : AddressWire) :
  validAddress a = true -> decodes deserializeAddress a (serializeAddress a).
Proof.
  destruct a as [v h]. unfold validAddress, deserializeAddress, serializeAddress.
  cbn [version hash160]. intros Hv. split_valid.
  decode_with ltac:(now apply decodes_readInt1).
  decode_with ltac:(now apply decodes_readHex).
Qed.

Lemma decodes_principalCV (p : PrincipalCV) :
  validPrincipalCV p = true ->
  decodes deserializePrincipalCV p (serializePrincipalCV p).
Proof.
  destruct p as [a|a n]; cbn [validPrincipalCV serializePrincipalCV];
    intros Hv; split_valid; unfold deserializePrincipalCV; decode_tag.
  - decode_with ltac:(now apply decodes_address).
  - decode_with ltac:(now apply decodes_address).
    decode_with ltac:(now apply decodes_LPString).
Qed.

Lemma decodes_principal (p : PostConditionPrincipal) :
  validPrincipal p = true -> decodes deserializePrincipal p (serializePrincipal p).
Proof.
  destruct p as [|a|a n]; cbn [validPrincipal serializePrincipal];
    intros Hv; split_valid; unfold deserializePrincipal; decode_tag.
  - apply decodes_ret.
  - decode_with ltac:(now apply decodes_address).
  - decode_with ltac:(now apply decodes_address).
    decode_with ltac:(now apply decodes_LPString).
Qed.

Lemma decodes_asset (a : AssetWire) :
  validAsset a = true -> decodes deserializeAsset a (serializeAsset a).
Proof.
  destruct a as [a c n]. unfold validAsset, deserializeAsset, serializeAsset.
  cbn [assetAddress assetContractName assetName]. intros Hv. split_valid.
  decode_with ltac:(now apply decodes_address).
  decode_with ltac:(now apply decodes_LPString).
  decode_with ltac:(now apply decodes_LPString).
Qed.

Lemma decodes_fungibleCode (c : FungibleConditionCode) :
  decodes readFungibleCode c [fungibleCodeByte c].
Proof.
  unfold readFungibleCode.
  destruct c; cbn [fungibleCodeByte]; decode_tag; apply decodes_ret.
Qed.

Lemma decodes_nonFungibleCode (c : NonFungibleConditionCode) :
  decodes readNonFungibleCode c [nonFungibleCodeByte c].
Proof.
  unfold readNonFungibleCode.
  destruct c; cbn [nonFungibleCodeByte]; decode_tag; apply decodes_ret.
Qed.

Lemma decodes_postCondition (pc : PostConditionWire) :
  validPostCondition pc = true ->
  decodes deserializePostCondition pc (serializePostCondition pc).
Proof.
  destruct pc as [p c n|p a c n|p a v c];
    cbn [validPostCondition serializePostCondition];
    intros Hv; split_valid; unfold deserializePostCondition; decode_tag.
  - decode_with ltac:(now apply decodes_principal).
    decode_with ltac:(apply decodes_fungibleCode).
    decode_with ltac:(now apply decodes_readInt).
  - decode_with ltac:(now apply decodes_principal).
    decode_with ltac:(now apply decodes_asset).
    decode_with ltac:(apply decodes_fungibleCode).
    decode_with ltac:(now apply decodes_readInt).
  - decode_with ltac:(now apply decodes_principal).
    decode_with ltac:(now apply decodes_asset).
    decode_with ltac:(apply decodes_CV).
    decode_with ltac:(apply decodes_nonFungibleCode).
Qed.

Lemma stripTrailingNulls_nulls (k : nat) : stripTrailingNulls (repeat x00 k) = [].
Proof. induction k as [|k IH]; simpl; [reflexivity | now rewrite IH]. Qed.

Lemma stripTrailingNulls_padded (bs : list byte) (k : nat) :
  stripTrailingNulls (bs ++ repeat x00 k) = stripTrailingNulls bs.
Proof.
  induction bs as [|b bs IH]; cbn [app stripTrailingNulls].
  - apply stripTrailingNulls_nulls.
  - now rewrite IH.
Qed.







Lemma decodes_memo (m : string) :
  validMemo m = true ->
  decodes deserializeMemo (withoutTrailingZeroBytes m) (serializeMemo m).
Proof.
  unfold validMemo, deserializeMemo, serializeMemo, withoutTrailingZeroBytes. cbv zeta.
  intros Hl. apply Nat.leb_le in Hl.
  set (bs := list_byte_of_string m) in *.
  set (k := (MEMO_MAX_LENGTH_BYTES - List.length bs)%nat).
  assert (List.length (bs ++ repeat x00 k) = MEMO_MAX_LENGTH_BYTES) as Hlen
    by (unfold k; rewrite length_app, repeat_length; lia).
  pose proof (decodes_bind_ret (readBytes MEMO_MAX_LENGTH_BYTES)
                (fun bs => string_of_list_byte (stripTrailingNulls bs))
                (bs ++ repeat x00 k) (bs ++ repeat x00 k)) as Hd.
  cbv beta in Hd. rewrite stripTrailingNulls_padded in Hd.
  apply Hd. rewrite <- Hlen. apply decodes_readBytes.
Qed.

Lemma decodes_clarityVersion (v : ClarityVersion) :
  decodes readClarityVersion v [clarityVersionByte v].
Proof.
  unfold readClarityVersion.
  destruct v; cbn [clarityVersionByte]; decode_tag; apply decodes_ret.
Qed.

Lemma decodes_payload (p : Payload) :
  validPayload p = true ->
  decodes deserializePayload (payloadReadBack p) (serializePayload p).
Proof.
  destruct p as [r n m|name code [v|]|a c f args|bs|bs r];
    cbn [validPayload serializePayload payloadReadBack];
    intros Hv; split_valid; unfold deserializePayload; decode_tag.
  - decode_with ltac:(now apply decodes_principalCV).
    decode_with ltac:(now apply decodes_readInt).
    decode_with ltac:(now apply decodes_memo).
  - decode_with ltac:(apply decodes_clarityVersion).
    decode_with ltac:(now apply decodes_LPString).
    decode_with ltac:(now apply decodes_LPString).
  - decode_with ltac:(now apply decodes_LPString).
    decode_with ltac:(now apply decodes_LPString).
  - decode_with ltac:(now apply decodes_address).
    decode_with ltac:(now apply decodes_LPString).
    decode_with ltac:(now apply decodes_LPString).
    decode_with ltac:(apply decodes_LPList;
                      [assumption | apply Forall_forall; intros; apply decodes_CV]).
  - match goal with Hl : Nat.eqb _ _ = true |- _ => apply Nat.eqb_eq in Hl end.
    decode_with ltac:(match goal with Hl : List.length _ = _ |- _ => rewrite <- Hl end;
                      apply decodes_readBytes).
  - match goal with Hl : Nat.eqb _ _ = true |- _ => apply Nat.eqb_eq in Hl end.
    decode_with ltac:(match goal with Hl : List.length _ = _ |- _ => rewrite <- Hl end;
                      apply decodes_readBytes).
    decode_with ltac:(now apply decodes_principalCV).
Qed.

Lemma decodes_keyEncoding (e : PubKeyEncoding) :
  decodes readKeyEncoding e [keyEncodingByte e].
Proof.
  unfold readKeyEncoding.
  destruct e; cbn [keyEncodingByte]; decode_tag; apply decodes_ret.
Qed.

Lemma decodes_authField (f : TransactionAuthField) :
  validAuthField f = true -> decodes deserializeAuthField f (serializeAuthField f).
Proof.
  destruct f as [[] d|[] d]; cbn [validAuthField serializeAuthField]; intros Hv;
    unfold deserializeAuthField; decode_tag;
    decode_with ltac:(now apply decodes_readHex).
Qed.

Lemma decodes_singleSig m s n f k sig :
  validSpendingCondition (SingleSig m s n f k sig) = true ->
  decodes (deserializeSingleSig m) (SingleSig m s n f k sig)
    (hexBytes s ++ intToBytes n 8 ++ intToBytes f 8 ++ keyEncodingByte k :: hexBytes sig).
Proof.
  unfold validSpendingCondition. cbn [wellFormedCondition compressionRule].
  intros Hv. split_valid. unfold deserializeSingleSig.
  decode_with ltac:(now apply decodes_readHex).
  decode_with ltac:(now apply decodes_readInt).
  decode_with ltac:(now apply decodes_readInt).
  decode_with ltac:(apply decodes_keyEncoding).
  decode_with ltac:(now apply decodes_readHex).
Qed.

Lemma decodes_multiSig m s n f fs r :
  validSpendingCondition (MultiSig m s n f fs r) = true ->
  decodes (deserializeMultiSig m) (MultiSig m s n f fs r)
    (hexBytes s ++ intToBytes n 8 ++ intToBytes f 8
       ++ serializeLPList serializeAuthField fs ++ intToBytes r 2).
Proof.
  unfold validSpendingCondition. cbn [wellFormedCondition compressionRule].
  intros Hv. split_valid. unfold deserializeMultiSig.
  match goal with
  | Hf : forallb validAuthField fs = true |- _ =>
      rewrite forallb_forall in Hf; rename Hf into Hfields
  end.
  match goal with
  | Hc : negb _ = true |- _ => apply negb_true_iff in Hc; rename Hc into Hcompressed
  end.
  decode_with ltac:(now apply decodes_readHex).
  decode_with ltac:(now apply decodes_readInt).
  decode_with ltac:(now apply decodes_readInt).
  decode_with ltac:(apply decodes_LPList;
                    [assumption
                    | apply Forall_forall; intros x Hx; apply decodes_authField;
                      apply Hfields, list_elem_of_In, Hx]).
  rewrite <- (app_nil_r (intToBytes r 2)).
  eapply decodes_bind; [now apply decodes_readInt | cbv beta].
  rewrite Hcompressed. apply decodes_ret.
Qed.

Lemma decodes_spendingCondition (c : SpendingCondition) :
  validSpendingCondition c = true ->
  decodes deserializeSpendingCondition c (serializeSpendingCondition c).
Proof.
  intros Hv. unfold deserializeSpendingCondition.
  destruct c as [[] s n f k sig|[] s n f fs r];
    cbn [serializeSpendingCondition singleHashModeByte multiHashModeByte];
    decode_tag; first [now apply decodes_singleSig | now apply decodes_multiSig].
Qed.

Lemma decodes_authorization (a : Authorization) :
  validAuthorization a = true ->
  decodes deserializeAuthorization a (serializeAuthorization a).
Proof.
  destruct a as [c|c s]; cbn [validAuthorization serializeAuthorization];
    intros Hv; split_valid; unfold deserializeAuthorization; decode_tag.
  - decode_with ltac:(now apply decodes_spendingCondition).
  - decode_with ltac:(now apply decodes_spendingCondition).
    decode_with ltac:(now apply decodes_spendingCondition).
Qed.

Lemma decodes_anchorMode (m : AnchorMode) :
  decodes readAnchorMode m [anchorModeByte m].
Proof.
  unfold readAnchorMode.
  destruct m; cbn [anchorModeByte]; decode_tag; apply decodes_ret.
Qed.

Lemma decodes_postConditionMode (m : PostConditionMode) :
  decodes readPostConditionMode m [postConditionModeByte m].
Proof.
  unfold readPostConditionMode.
  destruct m; cbn [postConditionModeByte]; decode_tag; apply decodes_ret.
Qed.

Lemma decodes_transactionVersion (v : Z) :
  validVersion v = true -> decodes readTransactionVersion v [byteOfZ v].
Proof.
  unfold validVersion, readTransactionVersion. intros Hv.
  apply orb_true_iff in Hv as [Hv|Hv]; apply Z.eqb_eq in Hv; subst v;
    decode_tag; apply decodes_ret.
Qed.

(** The decoder reads back every structurally valid envelope from the
    bytes written for it, whatever follows them in the reader; the memo
    comes back without the zero bytes at its end. *)
Lemma decodes_transaction (tx : StacksTransaction) :
  validTransaction tx = true ->
  decodes readTransaction (readBack tx) (serializeBytes tx).
Proof.
  destruct tx as [v c a p pcs pm am]. unfold validTransaction, serializeBytes, readBack.
  cbn [txVersion chainId auth payload postConditions postConditionMode anchorMode].
  intros Hv. split_valid. unfold readTransaction.
  match goal with
  | Hf : forallb validPostCondition pcs = true |- _ =>
      rewrite forallb_forall in Hf; rename Hf into Hpcs
  end.
  decode_with ltac:(now apply decodes_transactionVersion).
  decode_with ltac:(now apply decodes_readInt).
  decode_with ltac:(now apply decodes_authorization).
  decode_with ltac:(apply decodes_anchorMode).
  decode_with ltac:(apply decodes_postConditionMode).
  decode_with ltac:(apply decodes_LPList;
                    [assumption
                    | apply Forall_forall; intros x Hx; apply decodes_postCondition;
                      apply Hpcs, list_elem_of_In, Hx]).
  decode_with ltac:(now apply decodes_payload).
Qed.

Lemma deserializeTransaction_bytes (tx : StacksTransaction) :
  validTransaction tx = true ->
  deserializeTransaction (FromBytes (serializeBytes tx)) = Ok (readBack tx).
Proof.
  intros Hv. pose proof (decodes_transaction tx Hv [] 0%nat) as Hd.
  rewrite app_nil_r in Hd. cbn [deserializeTransaction]. now rewrite Hd.
Qed.









End EnvelopeRoundTrip.


(** ** The default order of strings and the sort *)

Lemma string_leb_trans (a b c : string) :
  String.leb a b = true -> String.leb b c = true -> String.leb a c = true.
Proof.
  unfold String.leb. revert b c.
  induction a as [|x a IH]; intros [|y b] [|z c]; cbn [String.compare];
    try (intros; reflexivity); try (intros; discriminate).
  unfold Ascii.compare.
  destruct (N.compare_spec (N_of_ascii x) (N_of_ascii y)) as [Exy|Exy|Exy];
    destruct (N.compare_spec (N_of_ascii y) (N_of_ascii z)) as [Eyz|Eyz|Eyz];
    try (intros; discriminate).
  - rewrite Exy, Eyz, N.compare_refl. apply IH.
  - rewrite Exy. apply N.compare_lt_iff in Eyz. rewrite Eyz. reflexivity.
  - rewrite <- Eyz. apply N.compare_lt_iff in Exy. rewrite Exy. reflexivity.
  - assert (N_of_ascii x < N_of_ascii z)%N as Hlt by lia.
    apply N.compare_lt_iff in Hlt. rewrite Hlt. reflexivity.
Qed.

#[global] Instance jsStringLe_total : Total jsStringLe.
Proof. intros a b. apply String.leb_total. Qed.

#[global] Instance jsStringLe_trans : Transitive jsStringLe.
Proof. intros a b c. apply string_leb_trans. Qed.

#[global] Instance jsStringLe_antisymm : AntiSymm (=) jsStringLe.
Proof. intros a b. apply String.leb_antisym. Qed.

Lemma jsSort_sorted (l : list string) : StronglySorted jsStringLe (jsSort l).
Proof. apply StronglySorted_merge_sort; apply _. Qed.

Lemma jsSort_permutation (l : list string) : jsSort l ≡ₚ l.
Proof. apply merge_sort_Permutation. Qed.

(** A list has one sorted arrangement: whatever algorithm the engine
    runs, [sort()] returns [jsSort]. *)
Lemma jsSort_unique (l sorted : list string) :
  StronglySorted jsStringLe sorted -> sorted ≡ₚ l -> sorted = jsSort l.
Proof.
  intros Hs Hp. apply (StronglySorted_unique jsStringLe); [exact Hs | apply jsSort_sorted |].
  now rewrite Hp, jsSort_permutation.
Qed.

(** ** Key reconciliation *)

Section Reconciliation.
Context `{Environment}.

Lemma deriveHash_derived (hashMode : MultiSigHashMode) (numSigs : Z)
    (keys : list string) (hash : string) :
  deriveHash hashMode numSigs keys = Ok hash ->
  hash = derivedHash hashMode numSigs keys.
Proof.
  unfold deriveHash, derivedHash, addressFromPublicKeys.
  destruct (addressRefusal _ _ _ _); [discriminate |]. now intros [= <-].
Qed.

Lemma sortPublicKeysForAddress_run (h : gmap loc (list string)) (publicKeys : loc)
    (keys : list string) (numSigs : Z) (hashMode : MultiSigHashMode) (hash : string) :
  h !! publicKeys = Some keys ->
  sortPublicKeysForAddress publicKeys numSigs hashMode hash h
  = match deriveHash hashMode numSigs keys with
    | Err e => Err e
    | Ok hashUnsorted =>
        if String.eqb hashUnsorted hash then Ok (publicKeys, h)
        else
          match deriveHash hashMode numSigs (jsSort keys) with
          | Err e => Err e
          | Ok hashSorted =>
              if String.eqb hashSorted hash
              then Ok (fresh (dom h), <[fresh (dom h) := jsSort keys]> h)
              else Err (JsError MSG_NO_MATCHING_ADDRESS)
          end
    end.
Proof.
  intros Hl. unfold sortPublicKeysForAddress, deriveHash.
  unfold hbind at 1. unfold readArray at 1. rewrite Hl.
  unfold hbind at 1. unfold hlift at 1.
  destruct (addressFromPublicKeys _ _ _ (map createStacksPublicKey keys)) as [a|e];
    cbn [rbind]; [|reflexivity].
  destruct (String.eqb (hash160 a) hash); [reflexivity |].
  unfold hbind, arraySlice, hbind, readArray, allocArray, arraySort, hret, hthrow, hlift.
  rewrite Hl. cbv zeta. rewrite !lookup_insert_eq, insert_insert_eq.
  destruct (addressFromPublicKeys _ _ _ _) as [a'|e]; cbn [rbind]; [|reflexivity].
  now destruct (String.eqb _ hash).
Qed.

(** C2.  Multi-sig address reconciliation, as it holds:
    [sortPublicKeysForAddress] derives the hash of the keys in the order
    supplied and returns that very array when the hash is the target;
    otherwise it derives the hash of the lexicographically sorted keys and
    returns an array holding them when that hash is the target; when both
    derivations return a hash and neither hash is the target, it fails with
    the address-mismatch error.  A derivation that throws ends the call
    with the error it throws: the first one at once, the second one when
    the first hash is not the target. *)
Theorem reconciliation_two_attempts (h : gmap loc (list string)) (publicKeys : loc)
    (keys sorted : list string) (numSigs : Z) (hashMode : MultiSigHashMode)
    (target : string) :
  h !! publicKeys = Some keys ->
  StronglySorted jsStringLe sorted ->
  sorted ≡ₚ keys ->
  (deriveHash hashMode numSigs keys = Ok target ->
     sortPublicKeysForAddress publicKeys numSigs hashMode target h
     = Ok (publicKeys, h))
  /\ (forall e,
        deriveHash hashMode numSigs keys = Err e ->
        sortPublicKeysForAddress publicKeys numSigs hashMode target h = Err e)
  /\ (forall hashUnsorted,
        deriveHash hashMode numSigs keys = Ok hashUnsorted ->
        hashUnsorted <> target ->
        (deriveHash hashMode numSigs sorted = Ok target ->
         exists result h',
           sortPublicKeysForAddress publicKeys numSigs hashMode target h
           = Ok (result, h')
           /\ h' !! result = Some sorted)
        /\ (forall e,
              deriveHash hashMode numSigs sorted = Err e ->
              sortPublicKeysForAddress publicKeys numSigs hashMode target h = Err e)
        /\ (forall hashSorted,
              deriveHash hashMode numSigs sorted = Ok hashSorted ->
              hashSorted <> target ->
              exists e,
                sortPublicKeysForAddress publicKeys numSigs hashMode target h = Err e
                /\ isAddressMismatchError e)).
Proof.
  intros Hl Hs Hp. apply jsSort_unique in Hp; [|exact Hs]. subst sorted.
  rewrite (sortPublicKeysForAddress_run h publicKeys keys) by exact Hl.
  split; [|split].
  - intros ->. now rewrite String.eqb_refl.
  - now intros e ->.
  - intros hashUnsorted -> Hne. apply String.eqb_neq in Hne. rewrite Hne.
    split; [|split].
    + intros ->. rewrite String.eqb_refl. eexists _, _. split; [reflexivity |].
      apply lookup_insert_eq.
    + now intros e ->.
    + intros hashSorted -> Hne'. apply String.eqb_neq in Hne'. rewrite Hne'.
      eexists. split; reflexivity.
Qed.

(** C8.  Whenever [sortPublicKeysForAddress] returns, the array it
    returns holds a permutation of the keys it was given: it is either the
    caller's array itself, with the keys in their order, or a new array
    with the keys sorted; and the caller's array, like every other array of
    the heap, holds what it held before. *)
Theorem reconciliation_permutation_no_mutation (h h' : gmap loc (list string))
    (publicKeys result : loc) (keys : list string) (numSigs : Z)
    (hashMode : MultiSigHashMode) (target : string) :
  h !! publicKeys = Some keys ->
  sortPublicKeysForAddress publicKeys numSigs hashMode target h = Ok (result, h') ->
  h' !! publicKeys = Some keys
  /\ (forall l, is_Some (h !! l) -> h' !! l = h !! l)
  /\ exists returned,
       h' !! result = Some returned
       /\ returned ≡ₚ keys
       /\ ((result = publicKeys /\ returned = keys /\ h' = h)
           \/ (h !! result = None /\ returned = jsSort keys
               /\ StronglySorted jsStringLe returned)).
Proof.
  intros Hl. rewrite (sortPublicKeysForAddress_run h publicKeys keys) by exact Hl.
  destruct (deriveHash hashMode numSigs keys) as [hashUnsorted|e]; [|discriminate].
  destruct (String.eqb _ target).
  - intros [= <- <-]. split; [exact Hl | split; [reflexivity |]].
    exists keys. split; [exact Hl | split; [reflexivity | now left]].
  - destruct (deriveHash hashMode numSigs (jsSort keys)) as [hashSorted|e];
      [|discriminate].
    destruct (String.eqb _ target); [|discriminate].
    intros [= <- <-].
    assert (h !! fresh (dom h) = None) as Hfresh
      by (apply not_elem_of_dom, is_fresh).
    assert (forall l, is_Some (h !! l) ->
                      <[fresh (dom h) := jsSort keys]> h !! l = h !! l) as Hframe.
    { intros l [v Hv]. apply lookup_insert_ne. congruence. }
    split; [|split].
    + rewrite Hframe by eauto. exact Hl.
    + exact Hframe.
    + exists (jsSort keys). split; [|split].
      * apply lookup_insert_eq.
      * apply jsSort_permutation.
      * right. split; [exact Hfresh | split; [reflexivity | apply jsSort_sorted]].
Qed.

(** The same on key lists held as values. *)
Lemma sortedKeysForAddress_run (keys : list string) (numSigs : Z)
    (hashMode : MultiSigHashMode) (hash : string) :
  sortedKeysForAddress keys numSigs hashMode hash
  = match deriveHash hashMode numSigs keys with
    | Err e => Err e
    | Ok hashUnsorted =>
        if String.eqb hashUnsorted hash then Ok keys
        else
          match deriveHash hashMode numSigs (jsSort keys) with
          | Err e => Err e
          | Ok hashSorted =>
              if String.eqb hashSorted hash then Ok (jsSort keys)
              else Err (JsError MSG_NO_MATCHING_ADDRESS)
          end
    end.
Proof.
  unfold sortedKeysForAddress. unfold hbind at 1.
  rewrite (sortPublicKeysForAddress_run _ _ keys) by apply lookup_singleton_eq.
  destruct (deriveHash hashMode numSigs keys) as [hashUnsorted|e]; [|reflexivity].
  destruct (String.eqb _ hash).
  - unfold readArray. now rewrite lookup_singleton_eq.
  - destruct (deriveHash hashMode numSigs (jsSort keys)) as [hashSorted|e];
      [|reflexivity].
    destruct (String.eqb _ hash); [|reflexivity].
    unfold readArray. now rewrite lookup_insert_eq.
Qed.

(** The keys that a reconciliation returns are the keys given, in an
    order that derives the target. *)
Lemma sortedKeysForAddress_ok (keys returned : list string) (numSigs : Z)
    (hashMode : MultiSigHashMode) (hash : string) :
  sortedKeysForAddress keys numSigs hashMode hash = Ok returned ->
  returned ≡ₚ keys
  /\ deriveHash hashMode numSigs returned = Ok hash
  /\ derivedHash hashMode numSigs returned = hash.
Proof.
  rewrite sortedKeysForAddress_run.
  destruct (deriveHash hashMode numSigs keys) as [h1|e] eqn:E1; [|discriminate].
  destruct (String.eqb h1 hash) eqn:Q1.
  - intros [= <-]. apply String.eqb_eq in Q1. subst h1.
    split; [reflexivity | split; [exact E1 |]].
    symmetry. now apply deriveHash_derived.
  - destruct (deriveHash hashMode numSigs (jsSort keys)) as [h2|e] eqn:E2;
      [|discriminate].
    destruct (String.eqb h2 hash) eqn:Q2; [|discriminate].
    intros [= <-]. apply String.eqb_eq in Q2. subst h2.
    split; [apply jsSort_permutation | split; [exact E2 |]].
    symmetry. now apply deriveHash_derived.
Qed.

(** The two constructors of conditions, once the compression rule has
    let the keys through. *)
Lemma createMultiSig_ok (hashMode : MultiSigHashMode) (numSigs : Z)
    (pubKeys : list string) (nonce fee : Z) (c : SpendingCondition) :
  createMultiSigSpendingCondition hashMode numSigs pubKeys nonce fee = Ok c ->
  (segwitMulti hashMode
   && negb (forallb isCompressed (map createStacksPublicKey pubKeys)) = false)
  /\ deriveHash hashMode numSigs pubKeys = Ok (derivedHash hashMode numSigs pubKeys)
  /\ c = MultiSig hashMode (derivedHash hashMode numSigs pubKeys) nonce fee [] numSigs.
Proof.
  unfold createMultiSigSpendingCondition, deriveHash, derivedHash, addressFromPublicKeys.
  destruct (segwitMulti hashMode && _); [discriminate |].
  destruct (addressRefusal _ _ _ _); cbn [rbind]; [discriminate |].
  now intros [= <-].
Qed.

Lemma createMultiSig_made (hashMode : MultiSigHashMode) (numSigs : Z)
    (pubKeys : list string) (nonce fee : Z) (hash : string) :
  segwitMulti hashMode
  && negb (forallb isCompressed (map createStacksPublicKey pubKeys)) = false ->
  deriveHash hashMode numSigs pubKeys = Ok hash ->
  createMultiSigSpendingCondition hashMode numSigs pubKeys nonce fee
  = Ok (MultiSig hashMode hash nonce fee [] numSigs).
Proof.
  unfold createMultiSigSpendingCondition, deriveHash. intros -> Hd.
  destruct (addressFromPublicKeys _ _ _ _); cbn [rbind] in *; [|discriminate].
  now injection Hd as ->.
Qed.

Lemma createSingleSig_ok (hashMode : SingleSigHashMode) (pubKey : string)
    (nonce fee : Z) (c : SpendingCondition) :
  createSingleSigSpendingCondition hashMode pubKey nonce fee = Ok c ->
  exists signer,
    c = SingleSig hashMode signer nonce fee
          (pubKeyEncodingOf (createStacksPublicKey pubKey)) emptyMessageSignature
    /\ forall nonce' fee',
         createSingleSigSpendingCondition hashMode pubKey nonce' fee'
         = Ok (SingleSig hashMode signer nonce' fee'
                 (pubKeyEncodingOf (createStacksPublicKey pubKey))
                 emptyMessageSignature).
Proof.
  unfold createSingleSigSpendingCondition.
  destruct (segwitSingle hashMode && _); [discriminate |].
  destruct (addressFromPublicKeys _ _ _ _) as [a|e]; cbn [rbind]; [|discriminate].
  intros [= <-]. now eexists.
Qed.

End Reconciliation.

(** ** The signer *)

Section Signer.
Context `{Environment}.

Lemma spendingCondition_withOrigin (c : SpendingCondition) (a : Authorization) :
  spendingCondition (withOrigin c a) = c.
Proof. now destruct a. Qed.

Lemma withOrigin_withOrigin (c c' : SpendingCondition) (a : Authorization) :
  withOrigin c' (withOrigin c a) = withOrigin c' a.
Proof. now destruct a. Qed.

Lemma withAuth_withAuth (a a' : Authorization) (tx : StacksTransaction) :
  withAuth a' (withAuth a tx) = withAuth a' tx.
Proof. reflexivity. Qed.

Lemma withOriginFields_origin (tx : StacksTransaction) m sg n f fs r fields :
  spendingCondition (auth tx) = MultiSig m sg n f fs r ->
  spendingCondition (auth (withOriginFields fields tx)) = MultiSig m sg n f fields r.
Proof.
  intros Ho. unfold withOriginFields. rewrite Ho. cbn [auth withAuth].
  apply spendingCondition_withOrigin.
Qed.

Lemma withOriginFields_twice (tx : StacksTransaction) m sg n f fs r fields fields' :
  spendingCondition (auth tx) = MultiSig m sg n f fs r ->
  withOriginFields fields' (withOriginFields fields tx) = withOriginFields fields' tx.
Proof.
  intros Ho. unfold withOriginFields at 1.
  rewrite (withOriginFields_origin tx m sg n f fs r fields Ho).
  unfold withOriginFields. rewrite Ho. cbn [auth withAuth].
  now rewrite withOrigin_withOrigin.
Qed.

Lemma signOrigin_multiSig (key : string) (tx : StacksTransaction) m sg n f fs r :
  spendingCondition (auth tx) = MultiSig m sg n f fs r ->
  signOrigin key (mkSigner tx)
  = mkSigner (withOriginFields
                (fs ++ [SignatureField (privateKeyEncoding key)
                          (signWithKey key (originSigHash tx))]) tx).
Proof.
  intros Ho. unfold signOrigin, withOriginFields. cbn [transaction].
  now rewrite Ho.
Qed.

Lemma appendOrigin_multiSig (key : PublicKeyWire) (tx : StacksTransaction) m sg n f fs r :
  spendingCondition (auth tx) = MultiSig m sg n f fs r ->
  appendOrigin key (mkSigner tx)
  = Ok (mkSigner (withOriginFields
                    (fs ++ [PublicKeyField (keyEncoding key) (keyData key)]) tx)).
Proof.
  intros Ho. unfold appendOrigin, withOriginFields. cbn [transaction].
  now rewrite Ho.
Qed.

Lemma signOrAppend_multiSig (signerKeys : list string) (publicKey : string)
    (tx : StacksTransaction) m sg n f fs r :
  spendingCondition (auth tx) = MultiSig m sg n f fs r ->
  exists fld,
    signOrAppend signerKeys (mkSigner tx) publicKey
    = Ok (mkSigner (withOriginFields (fs ++ [fld]) tx))
    /\ fieldStandsFor signerKeys publicKey fld.
Proof.
  intros Ho. unfold signOrAppend, fieldStandsFor, signerKeyFor.
  destruct (truthyString _) as [key|].
  - rewrite (signOrigin_multiSig key tx m sg n f fs r Ho). eauto.
  - rewrite (appendOrigin_multiSig _ tx m sg n f fs r Ho). eauto.
Qed.

(** The loop adds one field per public key, in the order of the keys, to
    the fields that are there, and changes nothing else. *)
Lemma signInOrder_multiSig (signerKeys pubs : list string) (tx : StacksTransaction)
    m sg n f fs r :
  spendingCondition (auth tx) = MultiSig m sg n f fs r ->
  exists added,
    signInOrder signerKeys (mkSigner tx) pubs
    = Ok (mkSigner (withOriginFields (fs ++ added) tx))
    /\ Forall2 (fieldStandsFor signerKeys) pubs added.
Proof.
  revert tx fs. induction pubs as [|pk pubs IH]; intros tx fs Ho.
  - exists []. split; [|constructor]. cbn [signInOrder].
    rewrite app_nil_r. unfold withOriginFields. rewrite Ho.
    destruct tx as [v c a p pcs pm am]. cbn [auth] in *. unfold withAuth. cbn.
    destruct a; cbn in *; now subst.
  - destruct (signOrAppend_multiSig signerKeys pk tx m sg n f fs r Ho) as (fld & Hs & Hf).
    pose proof (withOriginFields_origin tx m sg n f fs r (fs ++ [fld]) Ho) as Ho'.
    destruct (IH _ _ Ho') as (added & Hrest & Hall).
    exists (fld :: added). split; [|now constructor].
    cbn [signInOrder]. rewrite Hs. cbn [rbind]. rewrite Hrest.
    rewrite (withOriginFields_twice tx m sg n f fs r) by exact Ho.
    now rewrite <- app_assoc.
Qed.

Lemma fieldTag_standsFor (signerKeys : list string) (pk : string)
    (fld : TransactionAuthField) :
  fieldStandsFor signerKeys pk fld ->
  fieldTag fld = if hasSignerKey signerKeys pk then SignatureTag else PublicKeyTag.
Proof.
  unfold fieldStandsFor, hasSignerKey.
  destruct (signerKeyFor signerKeys pk); [intros [sig ->] | intros ->]; reflexivity.
Qed.

Lemma fieldTags_standFor (signerKeys pubs : list string)
    (added : list TransactionAuthField) :
  Forall2 (fieldStandsFor signerKeys) pubs added ->
  map fieldTag added
  = map (fun pk => if hasSignerKey signerKeys pk then SignatureTag else PublicKeyTag) pubs.
Proof.
  induction 1 as [|pk fld pubs added Hf _ IH]; [reflexivity |].
  cbn [map]. now rewrite IH, (fieldTag_standsFor signerKeys pk fld Hf).
Qed.

Lemma countSignatures_standFor (signerKeys pubs : list string)
    (added : list TransactionAuthField) :
  Forall2 (fieldStandsFor signerKeys) pubs added ->
  countSignatures added
  = Z.of_nat (List.length (List.filter (hasSignerKey signerKeys) pubs)).
Proof.
  unfold countSignatures. intros Hall. f_equal.
  induction Hall as [|pk fld pubs added Hf _ IH]; [reflexivity |].
  cbn [List.filter]. unfold fieldStandsFor, hasSignerKey in *.
  destruct (signerKeyFor signerKeys pk); [destruct Hf as [sig ->] | subst fld];
    cbn [List.length]; now rewrite IH.
Qed.

End Signer.

Section SignedBuilders.
Context `{Environment}.

Lemma find_without_unmatched {A} (p : A -> bool) (before after : list A) (x : A) :
  p x = false -> List.find p (before ++ x :: after) = List.find p (before ++ after).
Proof.
  intros Hx. induction before as [|y before IH]; cbn [app List.find].
  - now rewrite Hx.
  - now rewrite IH.
Qed.

Lemma signInOrder_without_unmatched (before after pubs : list string) (key : string)
    (signer : TransactionSigner) :
  (forall pk, In pk pubs -> privateKeyToPublic key <> pk) ->
  signInOrder (before ++ key :: after) signer pubs
  = signInOrder (before ++ after) signer pubs.
Proof.
  revert signer. induction pubs as [|pk pubs IH]; intros signer Hun; [reflexivity |].
  cbn [signInOrder]. unfold signOrAppend.
  rewrite find_without_unmatched
    by (apply String.eqb_neq, Hun; now left).
  destruct (truthyString _) as [k|]; cbn [rbind].
  - apply IH. intros pk' Hin. apply Hun. now right.
  - destruct (appendOrigin _ signer) as [signer'|e]; cbn [rbind]; [|reflexivity].
    apply IH. intros pk' Hin. apply Hun. now right.
Qed.

(** C9.  In the multi-sig signed builders every public key contributes
    exactly one auth field, in the order of the keys: a signature when a
    signer key derives that public key, the bare public key otherwise.  A
    signer key that derives none of the public keys contributes nothing
    and raises no error: the result is the one computed without it.  The
    number of signatures added is the number of public keys that have a
    signer key, whatever the number of signer keys supplied. *)
Theorem unmatched_signer_keys_ignored (tx : StacksTransaction)
    (publicKeys signerKeys pubs : list string) (address : option string)
    m sg n f fs r :
  spendingCondition (auth tx) = MultiSig m sg n f fs r ->
  signingOrder publicKeys r m address = Ok pubs ->
  (exists added,
     mutatingSignAppendMultiSig tx publicKeys signerKeys address
     = Ok (withOriginFields (fs ++ added) tx)
     /\ Forall2 (fieldStandsFor signerKeys) pubs added
     /\ List.length added = List.length pubs
     /\ countSignatures added
        = Z.of_nat (List.length (List.filter (hasSignerKey signerKeys) pubs)))
  /\ (forall before after key,
        signerKeys = before ++ key :: after ->
        (forall pk, In pk pubs -> privateKeyToPublic key <> pk) ->
        mutatingSignAppendMultiSig tx publicKeys signerKeys address
        = mutatingSignAppendMultiSig tx publicKeys (before ++ after) address).
Proof.
  intros Ho Hord. unfold signingOrder in Hord. split.
  - destruct (signInOrder_multiSig signerKeys pubs tx m sg n f fs r Ho)
      as (added & Hrun & Hall).
    exists added. repeat split.
    + unfold mutatingSignAppendMultiSig. rewrite Ho, Hord. cbn [rbind].
      unfold newTransactionSigner. now rewrite Hrun.
    + exact Hall.
    + symmetry. eapply Forall2_length, Hall.
    + now apply countSignatures_standFor.
  - intros before after key -> Hun.
    unfold mutatingSignAppendMultiSig. rewrite Ho, Hord. cbn [rbind].
    now rewrite signInOrder_without_unmatched.
Qed.

End SignedBuilders.

(** ** Decoders that refuse *)

Lemma refuses_throw {A} (e : Error) : refuses (@dthrow A e) e [].
Proof. intros rest off. reflexivity. Qed.

Lemma refuses_later {A B} (d : Decoder A) (k : A -> Decoder B) a e bs1 bs2 :
  decodes d a bs1 -> refuses (k a) e bs2 -> refuses (dbind d k) e (bs1 ++ bs2).
Proof.
  intros H1 H2 rest off. unfold dbind. now rewrite <- app_assoc, H1, H2.
Qed.

Lemma refuses_first {A B} (d : Decoder A) (k : A -> Decoder B) e bs1 bs2 :
  refuses d e bs1 -> refuses (dbind d k) e (bs1 ++ bs2).
Proof.
  intros H1 rest off. unfold dbind. now rewrite <- app_assoc, H1.
Qed.

Ltac refuse_after tac :=
  lazymatch goal with
  | |- refuses (dbind _ _) _ (_ ++ _) =>
      eapply refuses_later; [tac | cbv beta]
  | |- refuses (dbind ?d ?k) ?e (?x :: ?l) =>
      eapply (refuses_later d k _ e [x] l); [tac | cbv beta]
  end.

Ltac refuse_tag :=
  lazymatch goal with
  | |- refuses (dbind readUInt8 ?k) ?e (?x :: ?l) =>
      eapply (refuses_later readUInt8 k x e [x] l);
      [apply decodes_readUInt8 | cbv beta iota]
  end.

Section CompressionRule.
Context `{Environment}.

Lemma refuses_multiSig m s n f fs r :
  wellFormedCondition (MultiSig m s n f fs r) = true ->
  haveUncompressed fs && segwitMulti m = true ->
  refuses deserializeSpendingCondition (JsError MSG_UNCOMPRESSED_NOT_ALLOWED)
    (serializeSpendingCondition (MultiSig m s n f fs r)).
Proof.
  cbn [wellFormedCondition]. intros Hv. split_valid. intros Hrule.
  match goal with
  | Hf : forallb validAuthField fs = true |- _ =>
      rewrite forallb_forall in Hf; rename Hf into Hfields
  end.
  assert (refuses (deserializeMultiSig m) (JsError MSG_UNCOMPRESSED_NOT_ALLOWED)
            (hexBytes s ++ intToBytes n 8 ++ intToBytes f 8
               ++ serializeLPList serializeAuthField fs ++ intToBytes r 2)) as Hm.
  { unfold deserializeMultiSig.
    refuse_after ltac:(now apply decodes_readHex).
    refuse_after ltac:(now apply decodes_readInt).
    refuse_after ltac:(now apply decodes_readInt).
    refuse_after ltac:(apply decodes_LPList;
                       [assumption
                       | apply Forall_forall; intros x Hx; apply decodes_authField;
                         apply Hfields, list_elem_of_In, Hx]).
    rewrite <- (app_nil_r (intToBytes r 2)).
    eapply refuses_later; [now apply decodes_readInt | cbv beta].
    rewrite Hrule. apply refuses_throw. }
  unfold deserializeSpendingCondition.
  destruct m; cbn [serializeSpendingCondition multiHashModeByte];
    refuse_tag; exact Hm.
Qed.

Lemma refuses_transaction (tx : StacksTransaction) m s n f fs r :
  spendingCondition (auth tx) = MultiSig m s n f fs r ->
  wellFormedUpToOrigin tx = true ->
  haveUncompressed fs && segwitMulti m = true ->
  refuses readTransaction (JsError MSG_UNCOMPRESSED_NOT_ALLOWED) (serializeBytes tx).
Proof.
  destruct tx as [v c a p pcs pm am]. unfold wellFormedUpToOrigin, serializeBytes.
  cbn [txVersion chainId auth payload postConditions postConditionMode anchorMode].
  intros Ho Hv. rewrite Ho in Hv. split_valid. intros Hrule.
  pose proof (refuses_multiSig m s n f fs r ltac:(assumption) Hrule) as Hc.
  unfold readTransaction.
  refuse_after ltac:(now apply decodes_transactionVersion).
  refuse_after ltac:(now apply decodes_readInt).
  apply refuses_first.
  unfold deserializeAuthorization.
  destruct a as [c0|c0 sp]; cbn [spendingCondition] in Ho; subst c0;
    cbn [serializeAuthorization]; refuse_tag.
  - rewrite <- (app_nil_r (serializeSpendingCondition _)).
    now apply refuses_first.
  - now apply refuses_first.
Qed.

Lemma fieldEncoding_standsFor (signerKeys : list string) (pk : string)
    (fld : TransactionAuthField) :
  (forall key, privateKeyEncoding key
               = keyEncoding (createStacksPublicKey (privateKeyToPublic key))) ->
  fieldStandsFor signerKeys pk fld ->
  fieldEncoding fld = keyEncoding (createStacksPublicKey pk).
Proof.
  intros Hlaw. unfold fieldStandsFor, signerKeyFor.
  destruct (List.find _ signerKeys) as [key|] eqn:Hfind; cbn [truthyString].
  - apply find_some in Hfind as [_ Hpk]. apply String.eqb_eq in Hpk.
    destruct key as [|c key]; [intros ->; reflexivity|].
    intros [sig ->]. cbn [fieldEncoding]. now rewrite Hlaw, Hpk.
  - now intros ->.
Qed.

Lemma haveUncompressed_standFor (signerKeys pubs : list string)
    (added : list TransactionAuthField) :
  (forall key, privateKeyEncoding key
               = keyEncoding (createStacksPublicKey (privateKeyToPublic key))) ->
  Forall2 (fieldStandsFor signerKeys) pubs added ->
  haveUncompressed added
  = negb (forallb isCompressed (map createStacksPublicKey pubs)).
Proof.
  intros Hlaw. unfold haveUncompressed, isCompressed.
  induction 1 as [|pk fld pubs added Hf _ IH]; [reflexivity |].
  cbn [existsb map forallb].
  rewrite IH, (fieldEncoding_standsFor signerKeys pk fld Hlaw Hf).
  now destruct (isUncompressed _), (forallb _ _).
Qed.

End CompressionRule.

Section SignatureProtocol.
Context `{Environment}.
Hypothesis cv_round_trip : ClarityCodecRoundTrip.

Lemma deserializeTransaction_refuses (tx : StacksTransaction) (e : Error)
    (input : SerializedInput) :
  refuses readTransaction e (serializeBytes tx) ->
  In input (serializedForms tx) -> deserializeTransaction input = Err e.
Proof.
  intros Hr Hin. pose proof (Hr [] 0%nat) as Hb. rewrite app_nil_r in Hb.
  unfold serializedForms in Hin. cbn [In] in Hin.
  destruct Hin as [<-|[<-|[<-|[<-|[]]]]]; cbn [deserializeTransaction].
  - now rewrite Hb.
  - now rewrite Hb.
  - unfold serialize. rewrite hexToBytes_bytesToHex. cbn [rbind]. now rewrite Hb.
  - unfold serialize. rewrite hexToBytes_0x_bytesToHex. cbn [rbind]. now rewrite Hb.
Qed.

(** C3.  Auth-field ordering: on a fresh 2-of-3 multi-sig condition,
    signing with key A, signing with key B and appending the bare public
    key C gives an envelope that holds exactly three auth fields, in that
    order: the signature of A, made over the envelope that holds no field;
    the signature of B, made over the envelope that holds the signature of
    A; the public key C.  Serialized and deserialized, the envelope holds
    the same three fields in the same order, tagged signature, signature,
    public key. *)
Theorem auth_field_order (hashMode : MultiSigHashMode) (pubA pubB pubC keyA keyB : string)
    (nonce fee version : Z) (cond : SpendingCondition) (p : Payload)
    (pcs : option (list PostConditionWire)) (pcMode : option PostConditionMode)
    (anchor : option AnchorMode) (chain : option Z)
    (unsigned : StacksTransaction) (fieldA fieldB fieldC : TransactionAuthField) :
  createMultiSigSpendingCondition hashMode 2 [pubA; pubB; pubC] nonce fee = Ok cond ->
  unsigned
  = newStacksTransaction version (createStandardAuth cond) p pcs pcMode anchor chain ->
  fieldA
  = SignatureField (privateKeyEncoding keyA) (signWithKey keyA (originSigHash unsigned)) ->
  fieldB
  = SignatureField (privateKeyEncoding keyB)
      (signWithKey keyB (originSigHash (withOriginFields [fieldA] unsigned))) ->
  fieldC
  = PublicKeyField (keyEncoding (createStacksPublicKey pubC))
      (keyData (createStacksPublicKey pubC)) ->
  exists signed,
    appendOrigin (createStacksPublicKey pubC)
      (signOrigin keyB (signOrigin keyA (newTransactionSigner unsigned)))
    = Ok (mkSigner signed)
    /\ fieldsOf (spendingCondition (auth signed)) = [fieldA; fieldB; fieldC]
    /\ (validTransaction signed = true ->
        exists decoded,
          deserializeTransaction (FromBytes (serializeBytes signed)) = Ok decoded
          /\ fieldsOf (spendingCondition (auth decoded)) = [fieldA; fieldB; fieldC]
          /\ List.length (fieldsOf (spendingCondition (auth decoded))) = 3%nat
          /\ map fieldTag (fieldsOf (spendingCondition (auth decoded)))
             = [SignatureTag; SignatureTag; PublicKeyTag]).
Proof.
  intros Hc Hunsigned HA HB HC.
  apply createMultiSig_ok in Hc as (_ & _ & ->).
  unfold newTransactionSigner, createStandardAuth in *.
  assert (spendingCondition (auth unsigned)
          = MultiSig hashMode (derivedHash hashMode 2 [pubA; pubB; pubC])
              nonce fee [] 2) as Ho by (subst unsigned; reflexivity).
  clear Hunsigned.
  rewrite (signOrigin_multiSig keyA unsigned _ _ _ _ _ _ Ho).
  cbn [app]. rewrite <- HA.
  pose proof (withOriginFields_origin unsigned _ _ _ _ _ _ [fieldA] Ho) as Ho1.
  rewrite (signOrigin_multiSig keyB _ _ _ _ _ _ _ Ho1).
  cbn [app]. rewrite <- HB.
  rewrite (withOriginFields_twice unsigned _ _ _ _ _ _ _ _ Ho).
  pose proof (withOriginFields_origin unsigned _ _ _ _ _ _ [fieldA; fieldB] Ho) as Ho2.
  rewrite (appendOrigin_multiSig _ _ _ _ _ _ _ _ Ho2).
  cbn [app]. rewrite <- HC.
  rewrite (withOriginFields_twice unsigned _ _ _ _ _ _ _ _ Ho).
  eexists. split; [reflexivity |].
  pose proof (withOriginFields_origin unsigned _ _ _ _ _ _ [fieldA; fieldB; fieldC] Ho)
    as Ho3.
  split; [now rewrite Ho3 |].
  intros Hv. eexists.
  split; [now apply deserializeTransaction_bytes |].
  change (auth (readBack ?t)) with (auth t). rewrite Ho3. cbn [fieldsOf].
  split; [reflexivity | split; [reflexivity |]].
  subst fieldA fieldB fieldC. reflexivity.
Qed.

(** C4.  Segwit compression rule: from a key set that holds an
    uncompressed public key, a multi-sig condition with a segwit hash mode
    cannot be made: the construction fails with the
    uncompressed-key-not-allowed error.  When a condition made with a
    legacy hash mode is forced to a segwit hash mode afterwards and its
    fields are filled in for those keys, verification fails with the same
    kind of error, and so does deserializing the serialized envelope. *)
Theorem segwit_compression_rule (pubKeys signerKeys : list string)
    (numSigs nonce fee : Z) :
  (forall key, privateKeyEncoding key
               = keyEncoding (createStacksPublicKey (privateKeyToPublic key))) ->
  forallb isCompressed (map createStacksPublicKey pubKeys) = false ->
  (forall segwit,
     segwitMulti segwit = true ->
     exists e,
       createMultiSigSpendingCondition segwit numSigs pubKeys nonce fee = Err e
       /\ isUncompressedKeyNotAllowedError e)
  /\ (forall legacy segwit sg n f r tx0 tx,
        createMultiSigSpendingCondition legacy numSigs pubKeys nonce fee
        = Ok (MultiSig legacy sg n f [] r) ->
        segwitMulti segwit = true ->
        spendingCondition (auth tx0) = MultiSig segwit sg n f [] r ->
        signInOrder signerKeys (newTransactionSigner tx0) pubKeys = Ok (mkSigner tx) ->
        (exists e, verifyOrigin tx = Err e /\ isUncompressedKeyNotAllowedError e)
        /\ (wellFormedUpToOrigin tx = true ->
            forall input,
              In input (serializedForms tx) ->
              exists e,
                deserializeTransaction input = Err e
                /\ isUncompressedKeyNotAllowedError e)).
Proof.
  intros Hlaw Hunc. split.
  - intros segwit Hseg. unfold createMultiSigSpendingCondition.
    rewrite Hseg, Hunc. cbn [andb negb]. eexists. split; reflexivity.
  - intros legacy segwit sg n f r tx0 tx _ Hseg Ho Hrun.
    destruct (signInOrder_multiSig signerKeys pubKeys tx0 segwit sg n f [] r Ho)
      as (added & Hrun' & Hall).
    unfold newTransactionSigner in Hrun. rewrite Hrun' in Hrun.
    injection Hrun as <-.
    pose proof (withOriginFields_origin tx0 _ _ _ _ _ _ ([] ++ added) Ho) as Ho'.
    cbn [app] in Ho'.
    assert (haveUncompressed added && segwitMulti segwit = true) as Hrule.
    { rewrite (haveUncompressed_standFor signerKeys pubKeys added Hlaw Hall).
      now rewrite Hunc, Hseg. }
    cbn [app]. split.
    + unfold verifyOrigin. rewrite Ho', Hrule. eexists. split; reflexivity.
    + intros Hwf input Hin. exists (JsError MSG_UNCOMPRESSED_NOT_ALLOWED).
      split; [|reflexivity].
      eapply deserializeTransaction_refuses; [|exact Hin].
      eapply refuses_transaction; eassumption.
Qed.

End SignatureProtocol.

(** ** The builders *)

Section BuilderProperties.
Context {CV : ClarityCodec} {Env : Environment} {Net : Collaborators}.

Lemma createMultiSig_other_nonce_fee hashMode numSigs keys n f n' f' c :
  createMultiSigSpendingCondition hashMode numSigs keys n f = Ok c ->
  createMultiSigSpendingCondition hashMode numSigs keys n' f'
  = Ok (withNonce n' (withFee f' c)).
Proof.
  intros Hc. apply createMultiSig_ok in Hc as (Hrule & Hd & ->).
  cbn [withFee withNonce]. now apply createMultiSig_made.
Qed.

Lemma createSingleSig_other_nonce_fee hashMode key n f n' f' c :
  createSingleSigSpendingCondition hashMode key n f = Ok c ->
  createSingleSigSpendingCondition hashMode key n' f'
  = Ok (withNonce n' (withFee f' c)).
Proof.
  intros Hc. apply createSingleSig_ok in Hc as (signer & -> & Hall).
  cbn [withFee withNonce]. apply Hall.
Qed.

Lemma dispatched_withNonce who n c : dispatched who c -> dispatched who (withNonce n c).
Proof.
  destruct who as [pk|opts]; cbn [dispatched].
  - intros Hc. rewrite nonceOf_withNonce, feeOf_withNonce.
    rewrite (createSingleSig_other_nonce_fee _ _ _ _ n (feeOf c) _ Hc).
    now rewrite withFee_same.
  - intros (keys & Hc & Hp). exists keys. split; [|exact Hp].
    rewrite nonceOf_withNonce, feeOf_withNonce.
    rewrite (createMultiSig_other_nonce_fee _ _ _ _ _ n (feeOf c) _ Hc).
    now rewrite withFee_same.
Qed.

Lemma dispatched_withFee who f c : dispatched who c -> dispatched who (withFee f c).
Proof.
  destruct who as [pk|opts]; cbn [dispatched].
  - intros Hc. rewrite nonceOf_withFee, feeOf_withFee.
    rewrite (createSingleSig_other_nonce_fee _ _ _ _ (nonceOf c) f _ Hc).
    now destruct c.
  - intros (keys & Hc & Hp). exists keys. split; [|exact Hp].
    rewrite nonceOf_withFee, feeOf_withFee.
    rewrite (createMultiSig_other_nonce_fee _ _ _ _ _ (nonceOf c) f _ Hc).
    now destruct c.
Qed.

(** What the shared block of the builders returns. *)
Lemma originSpendingCondition_spec (who : UnsignedKeys) (nonce fee : Z)
    (c : SpendingCondition) :
  originSpendingCondition who nonce fee = Ok c ->
  feeOf c = fee /\ nonceOf c = nonce
  /\ isSingleSig c
     = (match who with WithPublicKey _ => true | WithPublicKeys _ => false end)
  /\ dispatched who c.
Proof.
  destruct who as [pk|opts]; cbn [originSpendingCondition dispatched].
  - intros Hc. pose proof Hc as Hc'.
    apply createSingleSig_ok in Hc' as (signer & -> & _).
    cbn [feeOf nonceOf isSingleSig].
    split; [reflexivity | split; [reflexivity | split; [reflexivity | exact Hc]]].
  - destruct (match truthyString (address opts) with
              | Some a => _ | None => _ end) as [keys|e] eqn:Hkeys;
      cbn [rbind]; [|discriminate].
    intros Hc. pose proof Hc as Hc'.
    apply createMultiSig_ok in Hc' as (_ & _ & ->).
    cbn [feeOf nonceOf isSingleSig].
    split; [reflexivity | split; [reflexivity | split; [reflexivity |]]].
    exists keys. split; [exact Hc |].
    destruct (truthyString (address opts)) as [a|].
    + now apply sortedKeysForAddress_ok in Hkeys.
    + now injection Hkeys as <-.
Qed.

Lemma origin_setFee f tx :
  nonceOf (spendingCondition (auth (setFee f tx))) = nonceOf (spendingCondition (auth tx))
  /\ signerOf (spendingCondition (auth (setFee f tx)))
     = signerOf (spendingCondition (auth tx))
  /\ isSingleSig (spendingCondition (auth (setFee f tx)))
     = isSingleSig (spendingCondition (auth tx))
  /\ authType (auth (setFee f tx)) = authType (auth tx)
  /\ feeOf (feeCondition (auth (setFee f tx))) = f.
Proof.
  destruct tx as [v c a p pcs pm am]. destruct a as [c0|c0 s]; cbn;
    rewrite ?nonceOf_withFee, ?signerOf_withFee, ?isSingleSig_withFee, ?feeOf_withFee;
    repeat split; reflexivity.
Qed.

Lemma dispatched_setFee who f tx :
  dispatched who (spendingCondition (auth tx)) ->
  dispatched who (spendingCondition (auth (setFee f tx))).
Proof.
  destruct tx as [v c a p pcs pm am]. destruct a as [c0|c0 s]; cbn [setFee auth withAuth spendingCondition].
  - apply dispatched_withFee.
  - trivial.
Qed.

Lemma origin_setNonce n tx :
  nonceOf (spendingCondition (auth (setNonce n tx))) = n
  /\ feeOf (spendingCondition (auth (setNonce n tx))) = feeOf (spendingCondition (auth tx))
  /\ signerOf (spendingCondition (auth (setNonce n tx)))
     = signerOf (spendingCondition (auth tx))
  /\ isSingleSig (spendingCondition (auth (setNonce n tx)))
     = isSingleSig (spendingCondition (auth tx))
  /\ authType (auth (setNonce n tx)) = authType (auth tx)
  /\ feeOf (feeCondition (auth (setNonce n tx))) = feeOf (feeCondition (auth tx)).
Proof.
  destruct tx as [v c a p pcs pm am]. destruct a as [c0|c0 s]; cbn;
    rewrite ?nonceOf_withNonce, ?signerOf_withNonce, ?isSingleSig_withNonce,
      ?feeOf_withNonce;
    repeat split; reflexivity.
Qed.

Lemma dispatched_setNonce who n tx :
  dispatched who (spendingCondition (auth tx)) ->
  dispatched who (spendingCondition (auth (setNonce n tx))).
Proof.
  destruct tx as [v c a p pcs pm am].
  destruct a as [c0|c0 s]; cbn [setNonce auth withAuth spendingCondition];
    apply dispatched_withNonce.
Qed.

Lemma assemble_contract (o : CommonOptions) (api : ApiOpts) (p : Payload)
    (pcs : option (list PostConditionWire)) (c : SpendingCondition) :
  feeOf c = default 0 (givenFee o) ->
  nonceOf c = default 0 (givenNonce o) ->
  isSingleSig c
  = (match givenKeys o with WithPublicKey _ => true | WithPublicKeys _ => false end) ->
  dispatched (givenKeys o) c ->
  BuilderContract o (run (assembleOn o api p pcs c))
  /\ (forall address api',
        In (GetNonce address api') (fst (run (assembleOn o api p pcs c))) ->
        givenNonce o = None
        /\ address
           = c32address (singleSig (Network.addressVersion (resolvedNetwork o)))
               (signerOf c))
  /\ (forall tx,
        snd (run (assembleOn o api p pcs c)) = Ok tx ->
        postConditions tx = default [] pcs /\ payload tx = p
        /\ signerOf (spendingCondition (auth tx)) = signerOf c).
Proof.
  destruct o as [fee nonce network sponsored pcm who].
  cbn [givenFee givenNonce givenKeys]. intros Hfee Hnonce Hsingle Hdisp.
  unfold run, assembleOn, estimateFeeIfOmitted, getNonceIfOmitted, BuilderContract.
  cbn [givenFee givenNonce givenNetwork givenSponsored givenPostConditionMode givenKeys].
  remember (resolvedNetwork _) as network' eqn:Hnet.
  remember (newStacksTransaction _ _ _ _ _ _ _) as tx0 eqn:Htx0.
  assert (spendingCondition (auth tx0) = c) as Hc0
    by (subst tx0; destruct (default false sponsored); reflexivity).
  assert (authType (auth tx0)
          = (if default false sponsored then Sponsored else Standard)) as Hat
    by (subst tx0; destruct (default false sponsored); reflexivity).
  assert (network = None ->
          Network.transactionVersion network' = TransactionVersion_Mainnet
          /\ Network.chainId network' = ChainID_Mainnet) as Hmain
    by (intros ->; subst network'; split; reflexivity).
  assert (txVersion tx0 = Network.transactionVersion network'
          /\ chainId tx0 = Network.chainId network' /\ anchorMode tx0 = Any
          /\ postConditionMode tx0 = default Deny pcm
          /\ postConditions tx0 = default [] pcs /\ payload tx0 = p)
    as (T1 & T2 & T3 & T4 & T5 & T6)
    by (subst tx0; repeat split; reflexivity).
  clear Htx0 Hnet. subst c.
  destruct fee as [fee|], nonce as [nonce|]; unfold abind, await, aret;
    cbn [default from_option id] in Hfee, Hnonce;
    try destruct (estimateFee tx0 api) as [fee'|e] eqn:Hest;
    try destruct (getNonce _ api) as [nonce'|e'] eqn:Hnon;
    cbn [fst snd app existsb isEstimateFee isGetNonce orb In].
  all: repeat match goal with
       | |- _ /\ _ => split
       | |- forall _, _ => intro
       | H : _ \/ _ |- _ => destruct H
       | H : False |- _ => destruct H
       | H : Ok _ = Ok _ |- _ => injection H as H; try subst
       | H : EstimateFee _ _ = EstimateFee _ _ |- _ => injection H as ? ?; try subst
       | H : GetNonce _ _ = GetNonce _ _ |- _ => injection H as ? ?; try subst
       | H : _ = _ |- _ => discriminate H
       end.
  all: try reflexivity.
  all: try assumption.
  all: repeat match goal with
       | |- context [setNonce ?n ?t] =>
           lazymatch goal with
           | _ : nonceOf (spendingCondition (auth (setNonce n t))) = n |- _ => fail
           | _ => destruct (origin_setNonce n t) as (? & ? & ? & ? & ? & ?);
                  pose proof (dispatched_setNonce who n t)
           end
       | |- context [setFee ?f ?t] =>
           lazymatch goal with
           | _ : feeOf (feeCondition (auth (setFee f t))) = f |- _ => fail
           | _ => destruct (origin_setFee f t) as (? & ? & ? & ? & ?);
                  pose proof (dispatched_setFee who f t)
           end
       | H : ?x = None, Hm : ?x = None -> _ |- _ => specialize (Hm H)
       | Hm : ?x = ?x -> _ |- _ => specialize (Hm eq_refl)
       | H : _ /\ _ |- _ => destruct H
       end.
  all: try (cbn [setFee setNonce withAuth txVersion chainId anchorMode
                   postConditionMode postConditions payload]; congruence).
  all: try (now auto).
  all: try (eexists _, _; split; [left; reflexivity | congruence]).
  all: try (eexists _, _; split; [right; left; reflexivity | congruence]).
  all: try (destruct (auth tx0); cbn; rewrite ?signerOf_withFee; reflexivity).
Qed.

(** The three unsigned builders, as what they make first and the shared
    part that follows. *)
Lemma makeUnsignedSTXTokenTransfer_run (o : TokenTransferOptions.t UnsignedKeys) :
  run (makeUnsignedSTXTokenTransfer o)
  = match createTokenTransferPayload (TokenTransferOptions.recipient o)
            (TokenTransferOptions.amount o)
            (default EmptyString (TokenTransferOptions.memo o)) with
    | Err e => ([], Err e)
    | Ok p =>
        match originSpendingCondition (TokenTransferOptions.who o)
                (default 0 (TokenTransferOptions.nonce o))
                (default 0 (TokenTransferOptions.fee o)) with
        | Err e => ([], Err e)
        | Ok c =>
            run (assemble (tokenTransferOptions o)
                   (defaultApi (networkOption (tokenTransferOptions o))
                      (TokenTransferOptions.api o))
                   p None c)
        end
    end.
Proof.
  unfold makeUnsignedSTXTokenTransfer, assemble, run, abind, lift.
  destruct (createTokenTransferPayload _ _ _); [|reflexivity].
  destruct (originSpendingCondition _ _ _); [|reflexivity].
  unfold assembleOn, networkOption, resolvedNetwork, tokenTransferOptions.
  cbn [givenNetwork givenFee givenNonce givenSponsored givenPostConditionMode givenKeys].
  now destruct (TokenTransferOptions.network o) as [[n|]|].
Qed.

Lemma makeUnsignedContractDeploy_run (o : ContractDeployOptions.t UnsignedKeys) :
  run (makeUnsignedContractDeploy o)
  = match originSpendingCondition (ContractDeployOptions.who o)
            (default 0 (ContractDeployOptions.nonce o))
            (default 0 (ContractDeployOptions.fee o)) with
    | Err e => ([], Err e)
    | Ok c =>
        run (assemble (contractDeployOptions o)
               (defaultApi (networkOption (contractDeployOptions o))
                  (ContractDeployOptions.api o))
               (createSmartContractPayload (ContractDeployOptions.contractName o)
                  (ContractDeployOptions.codeBody o)
                  (Some (default Clarity2 (ContractDeployOptions.clarityVersion o))))
               (Some (default [] (ContractDeployOptions.postConditions o))) c)
    end.
Proof.
  unfold makeUnsignedContractDeploy, assemble, run, abind, lift.
  destruct (originSpendingCondition _ _ _); [|reflexivity].
  unfold assembleOn, networkOption, resolvedNetwork, contractDeployOptions.
  cbn [givenNetwork givenFee givenNonce givenSponsored givenPostConditionMode givenKeys].
  now destruct (ContractDeployOptions.network o) as [[n|]|].
Qed.

(** A run that starts from a log [log0] makes the calls of the run that
    starts from the empty log, after [log0]. *)
Lemma assembleOn_from (o : CommonOptions) (api : ApiOpts) (p : Payload)
    (pcs : option (list PostConditionWire)) (c : SpendingCondition) (log0 : list Call) :
  assembleOn o api p pcs c log0
  = (log0 ++ fst (run (assembleOn o api p pcs c)),
     snd (run (assembleOn o api p pcs c))).
Proof.
  unfold run, assembleOn, estimateFeeIfOmitted, getNonceIfOmitted, abind, await, aret.
  destruct (givenFee o), (givenNonce o);
    repeat match goal with
      | |- context [match ?r with Ok _ => _ | Err _ => _ end] => destruct r
      end;
    cbn [fst snd app]; rewrite ?app_nil_r, <- ?app_assoc; reflexivity.
Qed.

Lemma assemble_from (o : CommonOptions) (api : ApiOpts) (p : Payload)
    (pcs : option (list PostConditionWire)) (c : SpendingCondition) (log0 : list Call) :
  assemble o api p pcs c log0
  = (log0 ++ fst (run (assemble o api p pcs c)), snd (run (assemble o api p pcs c))).
Proof.
  unfold assemble, run, abind, lift.
  destruct (networkOption o) as [n|]; cbn [option_map readNetwork fst snd].
  - apply assembleOn_from.
  - now rewrite app_nil_r.
Qed.

Lemma validateWithAbiIfAsked_calls (validateWithAbi : option (bool + ClarityAbi))
    (network : option (StacksNetworkName + StacksNetwork))
    (contractAddress contractName : string) (api : ApiOpts) (p : Payload) :
  Forall (fun c => isEstimateFee c = false /\ isGetNonce c = false)
    (fst (run (validateWithAbiIfAsked validateWithAbi network contractAddress
                 contractName api p))).
Proof.
  unfold validateWithAbiIfAsked, run, abind, await, lift, aret.
  destruct validateWithAbi as [[[]|abi]|], network as [n|]; cbn [fst app];
    try (destruct (getAbi _ _ _)); cbn [fst]; repeat constructor.
Qed.

Lemma assemble_returns (o : CommonOptions) (api : ApiOpts) (p : Payload)
    (pcs : option (list PostConditionWire)) (c : SpendingCondition)
    (tx : StacksTransaction) :
  snd (run (assemble o api p pcs c)) = Ok tx ->
  snd (run (assembleOn o api p pcs c)) = Ok tx.
Proof.
  unfold assemble, run, abind, lift.
  destruct (networkOption o) as [network|]; cbn [option_map readNetwork snd];
    [trivial | discriminate].
Qed.

Lemma makeUnsignedContractCall_run (o : ContractCallOptions.t UnsignedKeys) :
  exists log0,
    Forall (fun c => isEstimateFee c = false /\ isGetNonce c = false) log0
    /\ (run (makeUnsignedContractCall o) = (log0, snd (run (makeUnsignedContractCall o)))
        /\ (forall tx, snd (run (makeUnsignedContractCall o)) <> Ok tx)
        \/ exists c,
             originSpendingCondition (ContractCallOptions.who o)
               (default 0 (ContractCallOptions.nonce o))
               (default 0 (ContractCallOptions.fee o)) = Ok c
             /\ run (makeUnsignedContractCall o)
                = let r :=
                    run (assemble (contractCallOptions o)
                           (defaultApi (networkOption (contractCallOptions o))
                              (ContractCallOptions.api o))
                           (createContractCallPayload
                              (ContractCallOptions.contractAddress o)
                              (ContractCallOptions.contractName o)
                              (ContractCallOptions.functionName o)
                              (ContractCallOptions.functionArgs o))
                           (Some (map postConditionToWire
                                    (default [] (ContractCallOptions.postConditions o))))
                           c) in
                  (log0 ++ fst r, snd r)).
Proof.
  set (api := defaultApi _ _). set (p := createContractCallPayload _ _ _ _).
  set (pcs := Some (map postConditionToWire _)).
  set (validation :=
         run (validateWithAbiIfAsked (ContractCallOptions.validateWithAbi o)
                (networkOption (contractCallOptions o))
                (ContractCallOptions.contractAddress o)
                (ContractCallOptions.contractName o) api p)).
  assert (Forall (fun c => isEstimateFee c = false /\ isGetNonce c = false)
            (fst validation)) as Hall
    by apply validateWithAbiIfAsked_calls.
  assert (run (makeUnsignedContractCall o)
          = match validation with
            | (log0, Err e) => (log0, Err e)
            | (log0, Ok _) =>
                match originSpendingCondition (ContractCallOptions.who o)
                        (default 0 (ContractCallOptions.nonce o))
                        (default 0 (ContractCallOptions.fee o)) with
                | Err e => (log0, Err e)
                | Ok c => assemble (contractCallOptions o) api p pcs c log0
                end
            end) as ->.
  { subst validation api p pcs. unfold makeUnsignedContractCall, run.
    unfold abind at 1. unfold networkOption at 1 2.
    cbn [contractCallOptions givenNetwork].
    destruct (validateWithAbiIfAsked _ _ _ _ _ _ []) as [log0 [[]|e]]; [|reflexivity].
    unfold abind at 1, lift at 1.
    destruct (originSpendingCondition _ _ _) as [c|e]; [|reflexivity].
    unfold assemble, assembleOn, networkOption, resolvedNetwork, contractCallOptions,
      abind, lift.
    cbn [givenNetwork givenFee givenNonce givenSponsored givenPostConditionMode
         givenKeys].
    now destruct (ContractCallOptions.network o) as [[n|]|]. }
  destruct validation as [log0 [[]|e]]; cbn [fst snd] in *; exists log0;
    (split; [exact Hall |]);
    [|left; split; [reflexivity | intros tx; discriminate]].
  destruct (originSpendingCondition _ _ _) as [c|e] eqn:Hc;
    [|left; split; [reflexivity | intros tx; discriminate]].
  right. exists c. split; [reflexivity |]. cbv zeta.
  apply (assemble_from (contractCallOptions o)).
Qed.

Lemma signerOf_dispatched_multi options c :
  dispatched (WithPublicKeys options) c ->
  exists keys,
    keys ≡ₚ publicKeys options
    /\ signerOf c
       = derivedHash
           (if truthyBool (useNonSequentialMultiSig options)
            then SerializeP2SHNonSequential else SerializeP2SH)
           (numSignatures options) keys.
Proof.
  cbn [dispatched]. intros (keys & Hc & Hp). exists keys. split; [exact Hp |].
  now apply createMultiSig_ok in Hc as (_ & _ & ->).
Qed.

Lemma no_calls_contract (o : CommonOptions) (e : Error) :
  BuilderContract o ([], Err e) /\ NonceLookupContract o ([], Err e).
Proof.
  unfold BuilderContract, NonceLookupContract. cbn [fst snd existsb In].
  repeat split; try discriminate; intros; try contradiction; discriminate.
Qed.

Lemma existsb_after {A} (p : A -> bool) (l0 l1 : list A) :
  Forall (fun x => p x = false) l0 -> existsb p (l0 ++ l1) = existsb p l1.
Proof.
  induction 1 as [|x l0 Hx _ IH]; [reflexivity |].
  cbn [app existsb]. now rewrite Hx, IH.
Qed.

Lemma In_after (c : Call) (l0 l1 : list Call) :
  Forall (fun x => isEstimateFee x = false /\ isGetNonce x = false) l0 ->
  isEstimateFee c = true \/ isGetNonce c = true ->
  In c (l0 ++ l1) -> In c l1.
Proof.
  intros Hall Hc Hin. apply in_app_or in Hin as [Hin|Hin]; [|exact Hin].
  rewrite Forall_forall in Hall. apply list_elem_of_In in Hin.
  destruct (Hall c Hin) as [He Hn]. destruct Hc; congruence.
Qed.

Lemma contracts_after (o : CommonOptions) (log0 log1 : list Call)
    (r : Result StacksTransaction) :
  Forall (fun x => isEstimateFee x = false /\ isGetNonce x = false) log0 ->
  BuilderContract o (log1, r) /\ NonceLookupContract o (log1, r) ->
  BuilderContract o (log0 ++ log1, r) /\ NonceLookupContract o (log0 ++ log1, r).
Proof.
  intros Hall [Hb Hn].
  assert (Forall (fun x => isEstimateFee x = false) log0) as Hfee
    by (eapply Forall_impl; [exact Hall | now intros x [? ?]]).
  assert (Forall (fun x => isGetNonce x = false) log0) as Hnon
    by (eapply Forall_impl; [exact Hall | now intros x [? ?]]).
  split.
  - unfold BuilderContract in *. cbn [fst snd] in *.
    rewrite !existsb_after by assumption.
    destruct Hb as (B1 & B2 & B3 & B4).
    split; [exact B1 | split; [exact B2 | split]].
    + intros tx0 api Hin. apply (B3 tx0 api).
      eapply In_after; [exact Hall | now left | exact Hin].
    + intros tx Htx. destruct (B4 tx Htx) as (C1 & C2 & C3).
      split; [|split; [|exact C3]].
      * intros Hf. destruct (C1 Hf) as (D1 & tx0 & api & Hin & He).
        split; [exact D1 |]. exists tx0, api. split; [|exact He].
        apply in_or_app. now right.
      * intros Hf. destruct (C2 Hf) as (D1 & a & api & Hin & He).
        split; [exact D1 |]. exists a, api. split; [|exact He].
        apply in_or_app. now right.
  - unfold NonceLookupContract in *. cbn [fst] in *.
    intros address api Hin. apply (Hn address api).
    eapply In_after; [exact Hall | now right | exact Hin].
Qed.

(** The shared part keeps both contracts, for any payload and any list of
    post-conditions. *)
Lemma assemble_contracts (o : CommonOptions) (api : ApiOpts) (p : Payload)
    (pcs : option (list PostConditionWire)) (c : SpendingCondition) :
  originSpendingCondition (givenKeys o) (default 0 (givenNonce o))
    (default 0 (givenFee o)) = Ok c ->
  BuilderContract o (run (assemble o api p pcs c))
  /\ NonceLookupContract o (run (assemble o api p pcs c)).
Proof.
  intros Hc. unfold assemble, run, abind, lift.
  destruct (networkOption o) as [network|]; cbn [option_map readNetwork];
    [|apply no_calls_contract].
  fold (run (assembleOn o api p pcs c)).
  destruct (originSpendingCondition_spec _ _ _ _ Hc) as (Hf & Hn & Hs & Hd).
  destruct (assemble_contract o api p pcs c Hf Hn Hs Hd) as (Hb & Hl & _).
  split; [exact Hb |].
  intros address api' Hin. destruct (Hl address api' Hin) as (Hnone & Haddr).
  split; [exact Hnone |]. exists c. split; [exact Hc | split; [exact Haddr |]].
  destruct (givenKeys o) as [pk|options]; [exact Hs |].
  split; [exact Hs | now apply signerOf_dispatched_multi].
Qed.

Lemma unsigned_builders_contracts :
  (forall o,
     BuilderContract (tokenTransferOptions o) (run (makeUnsignedSTXTokenTransfer o))
     /\ NonceLookupContract (tokenTransferOptions o)
          (run (makeUnsignedSTXTokenTransfer o)))
  /\ (forall o,
        BuilderContract (contractDeployOptions o) (run (makeUnsignedContractDeploy o))
        /\ NonceLookupContract (contractDeployOptions o)
             (run (makeUnsignedContractDeploy o)))
  /\ (forall o,
        BuilderContract (contractCallOptions o) (run (makeUnsignedContractCall o))
        /\ NonceLookupContract (contractCallOptions o)
             (run (makeUnsignedContractCall o))).
Proof.
  split; [|split]; intros o.
  - rewrite makeUnsignedSTXTokenTransfer_run.
    destruct (createTokenTransferPayload _ _ _) as [p|e]; [|apply no_calls_contract].
    destruct (originSpendingCondition _ _ _) as [c|e] eqn:Hc; [|apply no_calls_contract].
    now apply assemble_contracts.
  - rewrite makeUnsignedContractDeploy_run.
    destruct (originSpendingCondition _ _ _) as [c|e] eqn:Hc; [|apply no_calls_contract].
    now apply assemble_contracts.
  - destruct (makeUnsignedContractCall_run o) as (log0 & Hall & [[Hrun Hnever]|(c & Hc & Hrun)]).
    + rewrite Hrun. destruct (snd (run (makeUnsignedContractCall o))) as [tx|e].
      * now contradiction (Hnever tx).
      * rewrite <- (app_nil_r log0). apply contracts_after; [exact Hall |].
        apply no_calls_contract.
    + rewrite Hrun. cbv zeta. apply contracts_after; [exact Hall |].
      rewrite <- surjective_pairing. now apply assemble_contracts.
Qed.

(** C10.  Nonce lookup: in each unsigned builder, a call of the nonce
    lookup is made only when no nonce was supplied, and the address it is
    given is formed from the single-sig address version of the network and
    the signer hash of the origin's spending condition; for a multi-sig
    condition that signer hash is the one derived from the keys under the
    multi-sig hash mode. *)
Theorem nonce_lookup_uses_single_sig_version :
  (forall o : TokenTransferOptions.t UnsignedKeys,
     NonceLookupContract (tokenTransferOptions o) (run (makeUnsignedSTXTokenTransfer o)))
  /\ (forall o : ContractDeployOptions.t UnsignedKeys,
        NonceLookupContract (contractDeployOptions o) (run (makeUnsignedContractDeploy o)))
  /\ (forall o : ContractCallOptions.t UnsignedKeys,
        NonceLookupContract (contractCallOptions o) (run (makeUnsignedContractCall o))).
Proof.
  destruct unsigned_builders_contracts as (H1 & H2 & H3).
  split; [|split]; intros o; [apply H1 | apply H2 | apply H3].
Qed.

(** ** The signed builders *)

Lemma signedFrom_withOrigin (tx : StacksTransaction) (c : SpendingCondition) :
  hashModeOf c = hashModeOf (spendingCondition (auth tx)) ->
  signerOf c = signerOf (spendingCondition (auth tx)) ->
  nonceOf c = nonceOf (spendingCondition (auth tx)) ->
  feeOf c = feeOf (spendingCondition (auth tx)) ->
  signedFrom tx (withAuth (withOrigin c (auth tx)) tx).
Proof.
  intros Hm Hs Hn Hf. destruct tx as [v ch a p pcs pm am].
  unfold signedFrom. cbn [withAuth txVersion chainId payload postConditions
                            postConditionMode anchorMode auth] in *.
  rewrite spendingCondition_withOrigin.
  destruct a; cbn [withOrigin authType sponsorOf]; repeat split; assumption.
Qed.

Lemma signOrigin_signedFrom (key : string) (tx : StacksTransaction) :
  signedFrom tx (transaction (signOrigin key (mkSigner tx))).
Proof.
  unfold signOrigin. cbn [transaction].
  apply signedFrom_withOrigin; destruct (spendingCondition (auth tx)); reflexivity.
Qed.

Lemma withOriginFields_signedFrom (fields : list TransactionAuthField)
    (tx : StacksTransaction) :
  signedFrom tx (withOriginFields fields tx).
Proof.
  unfold withOriginFields.
  destruct (spendingCondition (auth tx)) eqn:Ho.
  - unfold signedFrom. repeat split; reflexivity.
  - apply signedFrom_withOrigin; rewrite Ho; reflexivity.
Qed.

Lemma mutatingSignAppendMultiSig_signedFrom (tx tx' : StacksTransaction)
    (publicKeys signerKeys : list string) (address : option string) :
  mutatingSignAppendMultiSig tx publicKeys signerKeys address = Ok tx' ->
  signedFrom tx tx' /\ isSingleSig (spendingCondition (auth tx)) = false.
Proof.
  unfold mutatingSignAppendMultiSig.
  destruct (spendingCondition (auth tx)) as [|m sg n f fs r] eqn:Ho; [discriminate |].
  destruct (match truthyString address with Some a => _ | None => _ end)
    as [pubs|e]; cbn [rbind]; [|discriminate].
  destruct (signInOrder_multiSig signerKeys pubs tx m sg n f fs r Ho)
    as (added & Hrun & _).
  unfold newTransactionSigner. rewrite Hrun. cbn [rbind]. intros [= <-].
  split; [apply withOriginFields_signedFrom | reflexivity].
Qed.

Lemma signed_after_unsigned (unsigned : Async StacksTransaction)
    (sign : StacksTransaction -> Result StacksTransaction) :
  (forall tx tx', sign tx = Ok tx' -> signedFrom tx tx') ->
  SignedBuilderContract (run unsigned) (run (abind unsigned (fun tx => lift (sign tx)))).
Proof.
  intros Hsign. unfold SignedBuilderContract, run, abind, lift.
  destruct (unsigned []) as [log [tx|e]]; cbn [fst snd].
  - split; [reflexivity |]. intros tx' Hs. exists tx. split; [reflexivity |].
    now apply Hsign.
  - split; [reflexivity |]. discriminate.
Qed.

Lemma signed_builders_contracts :
  (forall o,
     SignedBuilderContract (run (makeUnsignedSTXTokenTransfer (unsignedTokenTransfer o)))
       (run (makeSTXTokenTransfer o)))
  /\ (forall o,
        SignedBuilderContract (run (makeUnsignedContractDeploy (unsignedContractDeploy o)))
          (run (makeContractDeploy o)))
  /\ (forall o,
        SignedBuilderContract (run (makeUnsignedContractCall (unsignedContractCall o)))
          (run (makeContractCall o))).
Proof.
  split; [|split]; intros [];
    match goal with who : SignedKeys |- _ => destruct who as [senderKey|options signerKeys] end.
  all: first
    [ apply (signed_after_unsigned _
               (fun tx => Ok (transaction (signOrigin senderKey (newTransactionSigner tx)))));
      intros tx tx' [= <-]; apply signOrigin_signedFrom
    | apply (signed_after_unsigned _
               (fun tx => mutatingSignAppendMultiSig tx (publicKeys options) signerKeys
                            (address options)));
      intros tx tx' Hs; now apply mutatingSignAppendMultiSig_signedFrom in Hs ].
Qed.

(** ** The builders in their steps *)

Lemma assembleOn_steps (o : CommonOptions) (api : ApiOpts) (p : Payload)
    (pcs : option (list PostConditionWire)) (c : SpendingCondition) (log : list Call) :
  assembleOn o api p pcs c log = feeStep o api log (draft o p pcs c).
Proof.
  unfold assembleOn, feeStep, nonceStep, estimateFeeIfOmitted, getNonceIfOmitted, draft.
  destruct (givenFee o), (givenNonce o); unfold abind, await, aret; cbn [rbind].
  - reflexivity.
  - now destruct (getNonce _ api).
  - now destruct (estimateFee _ api).
  - destruct (estimateFee _ api); [|reflexivity]. now destruct (getNonce _ api).
Qed.

Lemma unsigned_steps (o : CommonOptions) (api : ApiOpts) (log : list Call)
    (p : Payload) (pcs : option (list PostConditionWire)) (c : SpendingCondition) :
  match networkOption o with
  | None => (log, Err (JsError (MSG_UNDEFINED_READ "transactionVersion")))
  | Some _ =>
      let '(log', r) := feeStep o api log (draft o p pcs c) in
      (log', rbind r (signWith None))
  end
  = assemble o api p pcs c log.
Proof.
  unfold assemble, abind, lift.
  destruct (networkOption o) as [network|]; cbn [option_map readNetwork];
    [|reflexivity].
  rewrite assembleOn_steps. destruct (feeStep _ _ _ _) as [log' [tx|e]]; reflexivity.
Qed.

Lemma unsigned_build_steps :
  (forall o, run (makeUnsignedSTXTokenTransfer o) = steps (TransferUnsigned o))
  /\ (forall o, run (makeUnsignedContractDeploy o) = steps (DeployUnsigned o))
  /\ (forall o, run (makeUnsignedContractCall o) = steps (CallUnsigned o)).
Proof.
  assert (forall o api p pcs c log,
            assemble o api p pcs c log
            = abind (lift (readNetwork "transactionVersion"
                             (option_map networkFrom
                                (assigned (inr STACKS_MAINNET) (givenNetwork o)))))
                (fun _ => assembleOn o api p pcs c) log) as Hread by reflexivity.
  split; [|split]; intros o; unfold steps, payloadStep, run;
    cbn [askedPayload askedValidation askedContract askedPostConditions
         optionsOf signedKeysOf].
  - unfold makeUnsignedSTXTokenTransfer, abind at 1 2, lift at 1 2.
    destruct (createTokenTransferPayload _ _ _) as [p|e]; [|reflexivity].
    cbn [validateWithAbiIfAsked run aret rbind].
    cbn [tokenTransferOptions givenKeys givenNonce givenFee].
    destruct (originSpendingCondition _ _ _) as [c|e]; [|reflexivity].
    rewrite (unsigned_steps (tokenTransferOptions o)), Hread.
    unfold assembleOn, apiOf, resolvedNetwork, networkOption, abind, lift.
    cbn [optionsOf tokenTransferOptions givenNetwork givenFee givenNonce givenSponsored
         givenPostConditionMode givenKeys].
    now destruct (TokenTransferOptions.network o) as [[n|]|].
  - unfold makeUnsignedContractDeploy, abind at 1, lift at 1.
    cbn [validateWithAbiIfAsked run aret rbind].
    cbn [contractDeployOptions givenKeys givenNonce givenFee].
    destruct (originSpendingCondition _ _ _) as [c|e]; [|reflexivity].
    rewrite (unsigned_steps (contractDeployOptions o)), Hread.
    unfold assembleOn, apiOf, resolvedNetwork, networkOption, abind, lift.
    cbn [optionsOf contractDeployOptions givenNetwork givenFee givenNonce
         givenSponsored givenPostConditionMode givenKeys].
    now destruct (ContractDeployOptions.network o) as [[n|]|].
  - unfold makeUnsignedContractCall, abind at 1. unfold apiOf, networkOption at 1 2.
    cbn [optionsOf contractCallOptions givenNetwork].
    destruct (validateWithAbiIfAsked _ _ _ _ _ _ []) as [log [[]|e]]; [|reflexivity].
    cbn [rbind]. unfold abind at 1, lift at 1.
    cbn [contractCallOptions givenKeys givenNonce givenFee].
    destruct (originSpendingCondition _ _ _) as [c|e]; [|reflexivity].
    pose proof (unsigned_steps (contractCallOptions o)) as Hsteps.
    cbn [contractCallOptions] in Hsteps. rewrite Hsteps, Hread.
    unfold assembleOn, resolvedNetwork, networkOption, contractCallOptions, abind, lift.
    cbn [givenNetwork givenFee givenNonce givenSponsored givenPostConditionMode
         givenKeys].
    now destruct (ContractCallOptions.network o) as [[n|]|].
Qed.

Lemma signed_steps (b b' : Build) (who : SignedKeys) :
  optionsOf b' = optionsOf b -> apiOf b' = apiOf b ->
  payloadStep b' = payloadStep b ->
  (match b' with TransferUnsigned _ | TransferSigned _ => None
            | _ => Some (askedPostConditions b') end)
  = (match b with TransferUnsigned _ | TransferSigned _ => None
             | _ => Some (askedPostConditions b) end) ->
  signedKeysOf b' = None -> signedKeysOf b = Some who ->
  (let '(log, r) := steps b' in (log, rbind r (signWith (Some who)))) = steps b.
Proof.
  intros Ho Ha Hp Hpcs Hn Hs. unfold steps. rewrite Ho, Ha, Hp, Hpcs, Hn, Hs.
  destruct (payloadStep b) as [log [p|e]]; [|reflexivity].
  destruct (originSpendingCondition _ _ _) as [c|e]; [|reflexivity].
  destruct (networkOption (optionsOf b)) as [network|]; [|reflexivity].
  destruct (feeStep _ _ _ _) as [log' [tx|e]]; reflexivity.
Qed.

Lemma build_steps (b : Build) : run (build b) = steps b.
Proof.
  destruct unsigned_build_steps as (Ht & Hd & Hc).
  destruct b as [o|o|o|o|o|o]; cbn [build]; [apply Ht | apply Hd | apply Hc | | |].
  - rewrite <- (signed_steps _ (TransferUnsigned (unsignedTokenTransfer o))
                  (TokenTransferOptions.who o)); try reflexivity.
    rewrite <- Ht. unfold makeSTXTokenTransfer, unsignedTokenTransfer, unsignedKeys, run.
    destruct (TokenTransferOptions.who o) as [key|options keys];
      unfold abind; destruct (makeUnsignedSTXTokenTransfer _ []) as [log [tx|e]];
      reflexivity.
  - rewrite <- (signed_steps _ (DeployUnsigned (unsignedContractDeploy o))
                  (ContractDeployOptions.who o)); try reflexivity.
    rewrite <- Hd. unfold makeContractDeploy, unsignedContractDeploy, unsignedKeys, run.
    destruct (ContractDeployOptions.who o) as [key|options keys];
      unfold abind; destruct (makeUnsignedContractDeploy _ []) as [log [tx|e]];
      reflexivity.
  - rewrite <- (signed_steps _ (CallUnsigned (unsignedContractCall o))
                  (ContractCallOptions.who o)); try reflexivity.
    rewrite <- Hc. unfold makeContractCall, unsignedContractCall, unsignedKeys, run.
    destruct (ContractCallOptions.who o) as [key|options keys];
      unfold abind; destruct (makeUnsignedContractCall _ []) as [log [tx|e]];
      reflexivity.
Qed.

Lemma payloadStep_cases (b : Build) :
  payloadStep b
  = match askedPayload b with
    | Err e => ([], Err e)
    | Ok p =>
        (abiCalls b,
         match validationAbi b with
         | None => Ok p
         | Some r =>
             rbind r (fun abi => rbind (validateContractCall p abi) (fun _ => Ok p))
         end)
    end.
Proof.
  unfold payloadStep, abiCalls, validationAbi, validateWithAbiIfAsked, run.
  destruct (askedPayload b) as [p|e]; [|reflexivity].
  destruct (askedValidation b) as [[[]|abi]|],
           (networkOption (optionsOf b)) as [network|];
    unfold abind, await, lift, aret; cbn [app rbind]; try reflexivity;
    try (destruct (getAbi _ _ _) as [abi'|e]; [|reflexivity]);
    cbn [rbind];
    match goal with
    | |- context [validateContractCall p ?a] =>
        now destruct (validateContractCall p a) as [[]|e]
    end.
Qed.

Lemma draft_fields (o : CommonOptions) (p : Payload)
    (pcs : option (list PostConditionWire)) (c : SpendingCondition) :
  spendingCondition (auth (draft o p pcs c)) = c
  /\ payload (draft o p pcs c) = p
  /\ postConditions (draft o p pcs c) = default [] pcs.
Proof.
  unfold draft. now destruct (default false (givenSponsored o)).
Qed.

(** Setting the fee and the nonce rewrites those two numbers of the
    origin at most, and nothing of the payload or the post-conditions. *)
Lemma feeStep_keeps (o : CommonOptions) (api : ApiOpts) (log log' : list Call)
    (tx tx' : StacksTransaction) :
  feeStep o api log tx = (log', Ok tx') ->
  (exists n f,
     spendingCondition (auth tx')
     = withNonce n (withFee f (spendingCondition (auth tx))))
  /\ payload tx' = payload tx
  /\ postConditions tx' = postConditions tx.
Proof.
  assert (forall c, exists n f, c = withNonce n (withFee f c)) as Hsame
    by (intros c; exists (nonceOf c), (feeOf c);
        now rewrite nonceOf_withFee || destruct c).
  assert (forall n t, exists n' f,
            spendingCondition (auth (setNonce n t))
            = withNonce n' (withFee f (spendingCondition (auth t)))) as Hn.
  { intros n t. exists n, (feeOf (spendingCondition (auth t))).
    unfold setNonce. destruct t as [v ch [c|c s] pl pcs pcm am]; now destruct c. }
  assert (forall f t, exists n f',
            spendingCondition (auth (setFee f t))
            = withNonce n (withFee f' (spendingCondition (auth t)))) as Hf.
  { intros f t. unfold setFee. destruct t as [v ch [c|c s] pl pcs pcm am]; cbn.
    - exists (nonceOf c), f. now destruct c.
    - apply Hsame. }
  assert (forall n f t, exists n' f',
            spendingCondition (auth (setNonce n (setFee f t)))
            = withNonce n' (withFee f' (spendingCondition (auth t)))) as Hnf.
  { intros n f t. unfold setNonce, setFee.
    destruct t as [v ch [c|c s] pl pcs pcm am]; cbn.
    - exists n, f. now destruct c.
    - exists n, (feeOf c). now destruct c. }
  unfold feeStep, nonceStep.
  destruct (givenFee o), (givenNonce o);
    try destruct (estimateFee tx api) as [fee|e];
    try destruct (getNonce _ api) as [nonce|e'];
    cbn [rbind]; intros [= <- <-] || intros [=]; auto.
Qed.

Lemma signWith_keeps (who : option SignedKeys) (tx tx' : StacksTransaction) :
  signWith who tx = Ok tx' -> signedFrom tx tx'.
Proof.
  destruct who as [[key|options keys]|]; cbn [signWith].
  - intros [= <-]. apply signOrigin_signedFrom.
  - intros Hs. now apply mutatingSignAppendMultiSig_signedFrom in Hs.
  - intros [= <-]. now repeat split.
Qed.

(** The spending condition that multi-sig options give: its signer hash
    is derived from the keys in the order of [signingOrder]. *)
Lemma origin_multiSig (options : UnsignedMultiSigOptions) (nonce fee : Z)
    (c : SpendingCondition) :
  originSpendingCondition (WithPublicKeys options) nonce fee = Ok c ->
  exists pubs,
    signingOrder (publicKeys options) (numSignatures options)
      (multiSigHashModeOf options) (address options) = Ok pubs
    /\ c = MultiSig (multiSigHashModeOf options)
             (derivedHash (multiSigHashModeOf options) (numSignatures options) pubs)
             nonce fee [] (numSignatures options).
Proof.
  unfold originSpendingCondition, signingOrder, multiSigHashModeOf.
  destruct (match truthyString (address options) with
            | Some a => _ | None => _ end) as [pubs|e]; cbn [rbind]; [|discriminate].
  intros Hc. apply createMultiSig_ok in Hc as (_ & _ & ->).
  now exists pubs.
Qed.

Lemma signingOrder_derives (keys pubs : list string) (n : Z) (mode : MultiSigHashMode)
    (address : option string) :
  signingOrder keys n mode address = Ok pubs ->
  pubs ≡ₚ keys
  /\ match truthyString address with
     | Some a => derivedHash mode n pubs = hash160 (createAddress a)
     | None => pubs = keys
     end.
Proof.
  unfold signingOrder. destruct (truthyString address) as [a|].
  - intros Hs. now apply sortedKeysForAddress_ok in Hs as (Hp & _ & Hd).
  - now intros [= <-].
Qed.

Lemma signWith_multiSig (who : option SignedKeys) (tx tx' : StacksTransaction)
    m sg n f fs r :
  spendingCondition (auth tx) = MultiSig m sg n f fs r ->
  signWith who tx = Ok tx' ->
  match who with
  | None => tx' = tx
  | Some (WithSenderKey _) => True
  | Some (WithSignerKeys options signerKeys) =>
      exists pubs added,
        signingOrder (publicKeys options) r m (address options) = Ok pubs
        /\ tx' = withOriginFields (fs ++ added) tx
        /\ Forall2 (fieldStandsFor signerKeys) pubs added
  end.
Proof.
  intros Ho. destruct who as [[key|options keys]|]; cbn [signWith];
    [trivial | | now intros [= <-]].
  unfold mutatingSignAppendMultiSig, signingOrder. rewrite Ho.
  destruct (match truthyString (address options) with
            | Some a => _ | None => _ end) as [pubs|e]; cbn [rbind]; [|discriminate].
  destruct (signInOrder_multiSig keys pubs tx m sg n f fs r Ho) as (added & Hrun & Hall).
  unfold newTransactionSigner. rewrite Hrun. cbn [rbind]. intros [= <-].
  now exists pubs, added.
Qed.

Lemma keys_of_signed (b : Build) (who : SignedKeys) :
  signedKeysOf b = Some who -> givenKeys (optionsOf b) = unsignedKeys who.
Proof. destruct b; cbn; congruence. Qed.

(** A builder that returns went through each of its steps. *)
Lemma steps_return (b : Build) (log : list Call) (tx : StacksTransaction) :
  run (build b) = (log, Ok tx) ->
  exists p c tx0 n f,
    askedPayload b = Ok p
    /\ originSpendingCondition (givenKeys (optionsOf b))
         (default 0 (givenNonce (optionsOf b))) (default 0 (givenFee (optionsOf b)))
       = Ok c
    /\ spendingCondition (auth tx0) = withNonce n (withFee f c)
    /\ payload tx0 = p
    /\ postConditions tx0 = askedPostConditions b
    /\ signWith (signedKeysOf b) tx0 = Ok tx.
Proof.
  rewrite build_steps. unfold steps. rewrite payloadStep_cases.
  destruct (askedPayload b) as [p|e]; [|discriminate].
  match goal with
  | |- context [match ?v with Some _ => _ | None => Ok p end] =>
      destruct v as [[abi|e]|]; cbn [rbind];
      try (destruct (validateContractCall p abi) as [[]|e']); cbn [rbind]
  end; try discriminate.
  all: destruct (originSpendingCondition _ _ _) as [c|e]; [|discriminate].
  all: destruct (networkOption (optionsOf b)) as [network|]; [|discriminate].
  all: destruct (feeStep _ _ _ _) as [log' [tx0|e]] eqn:Hfee; cbn [rbind];
    [|discriminate].
  all: intros [= <- Hs]; apply feeStep_keeps in Hfee as ((n & f & Hc) & Hp & Hpcs).
  all: match type of Hc with
       | context [draft ?o ?p ?pcs ?c] =>
           destruct (draft_fields o p pcs c) as (D1 & D2 & D3)
       end.
  all: exists p, c, tx0, n, f; rewrite Hc, Hp, Hpcs, D1, D2, D3.
  all: repeat split; try exact Hs; now destruct b.
Qed.

(** Once the envelope is made, the collaborators are asked for what was
    left out, and the builder returns when they answer. *)
Lemma feeStep_progress (o : CommonOptions) (api : ApiOpts) (log : list Call)
    (tx : StacksTransaction) :
  let address :=
    c32address (singleSig (Network.addressVersion (resolvedNetwork o)))
      (signerOf (spendingCondition (auth tx))) in
  let estimated := givenFee o = None -> exists fee, estimateFee tx api = Ok fee in
  let lookedUp := givenNonce o = None -> exists nonce, getNonce address api = Ok nonce in
  (givenFee o = None -> In (EstimateFee tx api) (fst (feeStep o api log tx)))
  /\ (givenNonce o = None -> estimated ->
      In (GetNonce address api) (fst (feeStep o api log tx)))
  /\ (estimated -> lookedUp -> exists tx', snd (feeStep o api log tx) = Ok tx').
Proof.
  cbv zeta. unfold feeStep, nonceStep.
  destruct (givenFee o) as [fee|], (givenNonce o) as [nonce|]; cbn [fst snd].
  - repeat split; try discriminate. intros _ _. now eexists.
  - split; [discriminate |]. split.
    + intros _ _. apply in_or_app. right. now left.
    + intros _ Hn. destruct (Hn eq_refl) as (n & ->). now eexists.
  - split; [|split; [discriminate |]].
    + intros _. destruct (estimateFee tx api); cbn [fst]; apply in_or_app; right; now left.
    + intros He _. destruct (He eq_refl) as (f & ->). now eexists.
  - split; [|split].
    + intros _. destruct (estimateFee tx api); cbn [fst];
        repeat (apply in_or_app; first [right; now left | left]).
    + intros _ He. destruct (He eq_refl) as (f & ->). cbn [fst].
      destruct (origin_setFee f tx) as (_ & -> & _).
      apply in_or_app. right. now left.
    + intros He Hn. destruct (He eq_refl) as (f & ->). cbn [snd].
      destruct (origin_setFee f tx) as (_ & -> & _).
      destruct (Hn eq_refl) as (n & ->). now eexists.
Qed.

(** The options hold no network only when the caller supplies it as
    [undefined]. *)
Lemma networkOption_undefined (o : CommonOptions) :
  networkOption o = None <-> givenNetwork o = Some None.
Proof.
  unfold networkOption. destruct (givenNetwork o) as [[n|]|]; cbn [assigned];
    split; congruence.
Qed.

Lemma builder_progress (b : Build) (p : Payload) (c : SpendingCondition) :
  snd (payloadStep b) = Ok p ->
  originSpendingCondition (givenKeys (optionsOf b))
    (default 0 (givenNonce (optionsOf b))) (default 0 (givenFee (optionsOf b))) = Ok c ->
  givenNetwork (optionsOf b) <> Some None ->
  BuilderProgress b p c (run (build b)).
Proof.
  intros Hp Hc Hthere. rewrite build_steps. unfold steps, BuilderProgress.
  destruct (payloadStep b) as [log0 [p'|e]]; cbn [snd] in Hp; [|discriminate].
  injection Hp as ->. rewrite Hc.
  destruct (networkOption (optionsOf b)) as [network|] eqn:Hnetwork;
    [|now apply networkOption_undefined in Hnetwork].
  fold (postConditionsArgument b).
  destruct (draft_fields (optionsOf b) p (postConditionsArgument b) c) as (D1 & _).
  pose proof (feeStep_progress (optionsOf b) (apiOf b) log0
                (draft (optionsOf b) p (postConditionsArgument b) c)) as Hstep.
  cbv zeta in Hstep. rewrite D1 in Hstep. destruct Hstep as (S1 & S2 & S3).
  destruct (feeStep _ _ _ _) as [log' [tx1|e]] eqn:Hfee; cbn [fst snd rbind] in *.
  - split; [exact S1 | split; [exact S2 |]]. intros -> _ _. now eexists.
  - split; [exact S1 | split; [exact S2 |]]. intros _ He Hn.
    destruct (S3 He Hn) as (tx' & Htx'). discriminate Htx'.
Qed.

(** C6.  Builder defaults and conditional estimation.  In each unsigned
    builder a collaborator is called only for an option that was left out,
    also when the builder fails; the envelope handed to the estimator
    holds the default fee 0 and the nonce supplied or the default 0; a fee
    or nonce that was supplied is used as it is; the network defaults to
    the mainnet profile, the anchor mode is any, the post-condition mode
    defaults to deny, the authorization is standard unless sponsoring was
    asked for.  One public key is handed to the single-sig constructor, a
    key set with a threshold to the multi-sig constructor, in the order
    reconciled with the address when there is one.  Once the payload and
    the condition are made, and unless the network was supplied as
    [undefined], the estimator is called whenever no fee was supplied and
    the nonce lookup whenever no nonce was supplied (unless the estimator
    has answered with an error), and an unsigned builder returns an
    envelope when the collaborators it asks have answers.  Each signed
    builder makes the calls of the unsigned builder it hands its options
    to and returns that builder's envelope with the signatures put in. *)
Theorem builder_defaults_and_estimation :
  (forall o : TokenTransferOptions.t UnsignedKeys,
     BuilderContract (tokenTransferOptions o) (run (makeUnsignedSTXTokenTransfer o)))
  /\ (forall o : ContractDeployOptions.t UnsignedKeys,
        BuilderContract (contractDeployOptions o) (run (makeUnsignedContractDeploy o)))
  /\ (forall o : ContractCallOptions.t UnsignedKeys,
        BuilderContract (contractCallOptions o) (run (makeUnsignedContractCall o)))
  /\ (forall o : TokenTransferOptions.t SignedKeys,
        SignedBuilderContract
          (run (makeUnsignedSTXTokenTransfer (unsignedTokenTransfer o)))
          (run (makeSTXTokenTransfer o)))
  /\ (forall o : ContractDeployOptions.t SignedKeys,
        SignedBuilderContract
          (run (makeUnsignedContractDeploy (unsignedContractDeploy o)))
          (run (makeContractDeploy o)))
  /\ (forall o : ContractCallOptions.t SignedKeys,
        SignedBuilderContract
          (run (makeUnsignedContractCall (unsignedContractCall o)))
          (run (makeContractCall o)))
  /\ (forall publicKey nonce fee,
        originSpendingCondition (WithPublicKey publicKey) nonce fee
        = createSingleSigSpendingCondition SerializeP2PKH publicKey nonce fee)
  /\ (forall options nonce fee,
        originSpendingCondition (WithPublicKeys options) nonce fee
        = rbind (signingOrder (publicKeys options) (numSignatures options)
                   (multiSigHashModeOf options) (address options))
            (fun keys =>
               createMultiSigSpendingCondition (multiSigHashModeOf options)
                 (numSignatures options) keys nonce fee))
  /\ (forall (b : Build) (p : Payload) (c : SpendingCondition),
        snd (payloadStep b) = Ok p ->
        originSpendingCondition (givenKeys (optionsOf b))
          (default 0 (givenNonce (optionsOf b))) (default 0 (givenFee (optionsOf b)))
        = Ok c ->
        givenNetwork (optionsOf b) <> Some None ->
        BuilderProgress b p c (run (build b))).
Proof.
  destruct unsigned_builders_contracts as (H1 & H2 & H3).
  destruct signed_builders_contracts as (S1 & S2 & S3).
  split; [exact (fun o => proj1 (H1 o)) |].
  split; [exact (fun o => proj1 (H2 o)) |].
  split; [exact (fun o => proj1 (H3 o)) |].
  split; [exact S1 | split; [exact S2 | split; [exact S3 |]]].
  split; [reflexivity | split; [reflexivity |]].
  exact builder_progress.
Qed.

(** C7.  Token-transfer post-condition emptiness: whatever the options,
    the envelope that the unsigned token-transfer builder returns, and the
    one that the signed token-transfer builder returns, holds an empty list
    of post-conditions. *)
Theorem token_transfer_has_no_post_conditions :
  (forall (o : TokenTransferOptions.t UnsignedKeys) log tx,
     run (makeUnsignedSTXTokenTransfer o) = (log, Ok tx) -> postConditions tx = [])
  /\ (forall (o : TokenTransferOptions.t SignedKeys) log tx,
        run (makeSTXTokenTransfer o) = (log, Ok tx) -> postConditions tx = []).
Proof.
  assert (forall (o : TokenTransferOptions.t UnsignedKeys) tx,
            snd (run (makeUnsignedSTXTokenTransfer o)) = Ok tx ->
            postConditions tx = []) as Hunsigned.
  { intros o tx. rewrite makeUnsignedSTXTokenTransfer_run.
    destruct (createTokenTransferPayload _ _ _) as [p|e]; [|discriminate].
    destruct (originSpendingCondition _ _ _) as [c|e] eqn:Hc; [|discriminate].
    destruct (originSpendingCondition_spec _ _ _ _ Hc) as (Hf & Hn & Hs & Hd).
    intros Htx.
    match type of Htx with
    | snd (run (assemble _ ?api _ _ _)) = _ =>
        destruct (assemble_contract (tokenTransferOptions o) api p None c Hf Hn Hs Hd)
          as (_ & _ & Hpc)
    end.
    apply assemble_returns in Htx. now destruct (Hpc tx Htx) as (Hempty & _). }
  split.
  - intros o log tx Hrun. apply (Hunsigned o). now rewrite Hrun.
  - intros o log tx' Hrun.
    destruct signed_builders_contracts as (S1 & _ & _).
    destruct (S1 o) as (_ & Hsigned). rewrite Hrun in Hsigned.
    destruct (Hsigned tx' eq_refl) as (tx & Htx & Hfrom).
    destruct Hfrom as (_ & _ & _ & Hpc & _). rewrite Hpc. exact (Hunsigned _ tx Htx).
Qed.

End BuilderProperties.
(** * Further properties of the builders *)

(** ** The reconciliation of the keys with an address *)

Section ReconciliationFurther.
Context `{Environment}.

(** X1.  Whenever [sortPublicKeysForAddress] returns, the keys of the
    array it returns derive the target hash, in the order they have
    there; and a second call on that array returns the same array and
    leaves every array as it is. *)
Theorem reconciliation_result_derives_target (h h' : gmap loc (list string))
    (publicKeys result : loc) (keys : list string) (numSigs : Z)
    (hashMode : MultiSigHashMode) (target : string) :
  h !! publicKeys = Some keys ->
  sortPublicKeysForAddress publicKeys numSigs hashMode target h = Ok (result, h') ->
  exists returned,
    h' !! result = Some returned
    /\ derivedHash hashMode numSigs returned = target
    /\ sortPublicKeysForAddress result numSigs hashMode target h' = Ok (result, h').
Proof.
  intros Hl Hrun. rewrite (sortPublicKeysForAddress_run _ _ keys) in Hrun by exact Hl.
  destruct (deriveHash hashMode numSigs keys) as [h1|e] eqn:D1; [|discriminate Hrun].
  destruct (String.eqb h1 target) eqn:E1.
  - injection Hrun as <- <-. apply String.eqb_eq in E1. subst h1.
    exists keys. split; [exact Hl | split; [symmetry; now apply deriveHash_derived |]].
    rewrite (sortPublicKeysForAddress_run _ _ keys) by exact Hl.
    now rewrite D1, String.eqb_refl.
  - destruct (deriveHash hashMode numSigs (jsSort keys)) as [h2|e] eqn:D2;
      [|discriminate Hrun].
    destruct (String.eqb h2 target) eqn:E2; [|discriminate Hrun].
    injection Hrun as <- <-. apply String.eqb_eq in E2. subst h2.
    exists (jsSort keys). rewrite lookup_insert_eq.
    split; [reflexivity | split; [symmetry; now apply deriveHash_derived |]].
    rewrite (sortPublicKeysForAddress_run _ _ (jsSort keys)) by apply lookup_insert_eq.
    now rewrite D2, String.eqb_refl.
Qed.

(** X2.  When the address was made from the keys in sorted order, the
    caller may give the keys in any order from which the derivation
    returns a hash: the call returns, and the keys it returns are the keys
    given, arranged so that they derive the target. *)
Theorem reconciliation_accepts_any_order (h : gmap loc (list string))
    (publicKeys : loc) (keys addressKeys : list string) (numSigs : Z)
    (hashMode : MultiSigHashMode) (target hashGiven : string) :
  h !! publicKeys = Some keys ->
  keys ≡ₚ addressKeys ->
  deriveHash hashMode numSigs (jsSort addressKeys) = Ok target ->
  deriveHash hashMode numSigs keys = Ok hashGiven ->
  exists result h' returned,
    sortPublicKeysForAddress publicKeys numSigs hashMode target h = Ok (result, h')
    /\ h' !! result = Some returned
    /\ returned ≡ₚ keys
    /\ deriveHash hashMode numSigs returned = Ok target.
Proof.
  intros Hl Hp Ht Hg.
  assert (jsSort keys = jsSort addressKeys) as Hs.
  { apply jsSort_unique; [apply jsSort_sorted |].
    now rewrite jsSort_permutation. }
  rewrite (sortPublicKeysForAddress_run _ _ keys) by exact Hl. rewrite Hg.
  destruct (String.eqb hashGiven target) eqn:E1.
  - apply String.eqb_eq in E1. subst hashGiven. exists publicKeys, h, keys.
    now repeat split.
  - rewrite Hs, Ht, String.eqb_refl.
    eexists _, _, (jsSort addressKeys). split; [reflexivity |].
    rewrite lookup_insert_eq, <- Hs.
    split; [reflexivity | split; [apply jsSort_permutation | now rewrite Hs]].
Qed.

(** X3.  Keys that are already in sorted order -- a single key among
    them -- are derived from once, and again with the same outcome: the
    call returns the caller's array, with no array made, when they derive
    the target; it fails with the address-mismatch error when they derive
    another hash; and it fails with the error of the derivation when the
    derivation throws. *)
Theorem reconciliation_of_sorted_keys (h : gmap loc (list string))
    (publicKeys : loc) (keys : list string) (numSigs : Z)
    (hashMode : MultiSigHashMode) (target : string) :
  h !! publicKeys = Some keys ->
  (List.length keys <= 1)%nat \/ StronglySorted jsStringLe keys ->
  (deriveHash hashMode numSigs keys = Ok target ->
   sortPublicKeysForAddress publicKeys numSigs hashMode target h = Ok (publicKeys, h))
  /\ (forall hash,
        deriveHash hashMode numSigs keys = Ok hash -> hash <> target ->
        sortPublicKeysForAddress publicKeys numSigs hashMode target h
        = Err (JsError MSG_NO_MATCHING_ADDRESS)
        /\ isAddressMismatchError (JsError MSG_NO_MATCHING_ADDRESS))
  /\ (forall e,
        deriveHash hashMode numSigs keys = Err e ->
        sortPublicKeysForAddress publicKeys numSigs hashMode target h = Err e).
Proof.
  intros Hl Hsorted.
  assert (jsSort keys = keys) as Hs.
  { symmetry. apply jsSort_unique; [|reflexivity].
    destruct Hsorted as [Hlen|Hs]; [|exact Hs].
    destruct keys as [|k [|k' keys]]; [constructor | repeat constructor |].
    cbn in Hlen. lia. }
  rewrite (sortPublicKeysForAddress_run _ _ keys) by exact Hl. rewrite Hs.
  split; [|split].
  - intros ->. now rewrite String.eqb_refl.
  - intros hash -> Hne. apply String.eqb_neq in Hne. rewrite Hne. split; reflexivity.
  - now intros e ->.
Qed.

End ReconciliationFurther.

(** ** The collaborators of the builders *)

Section BuilderFurther.
Context {CV : ClarityCodec} {Env : Environment} {Net : Collaborators}.

(** The decision points of a builder, one case for each way through. *)
Ltac builder_cases b :=
  rewrite (build_steps b); unfold steps; rewrite (payloadStep_cases b);
  unfold abiCalls, validationAbi;
  destruct (networkOption (optionsOf b)) as [?network|] eqn:?Hnetwork;
  (destruct (askedPayload b) as [?p|?e] eqn:?Hpayload;
   [destruct (askedValidation b) as [[[]|?abi]|] eqn:?Hasked;
    try (destruct (getAbi _ _ _) as [?abi|?e] eqn:?Habi); cbn [rbind];
    try (match goal with
         | |- context [validateContractCall ?p ?abi] =>
             destruct (validateContractCall p abi) as [[]|?e] eqn:?Hvalid
         end); cbn [rbind];
    try (destruct (originSpendingCondition _ _ _) as [?c|?e] eqn:?Horigin;
         [try (unfold feeStep, nonceStep;
               destruct (givenFee (optionsOf b)) as [?fee|] eqn:?Hfee;
               try (destruct (estimateFee _ _) as [?fee|?e] eqn:?Hest);
               destruct (givenNonce (optionsOf b)) as [?nonce|] eqn:?Hnonce;
               try (destruct (getNonce _ _) as [?nonce|?e] eqn:?Hlookup))
         |])
   |]);
  cbn [fst snd rbind app].

(** X4.  Each collaborator is called at most once by a builder, and in
    one order: the interface of the contract first, the fee estimate
    second, the nonce lookup last. *)
Theorem collaborator_call_order (b : Build) :
  let log := fst (run (build b)) in
  log = List.filter isGetAbi log ++ List.filter isEstimateFee log
          ++ List.filter isGetNonce log
  /\ (List.length (List.filter isGetAbi log) <= 1)%nat
  /\ (List.length (List.filter isEstimateFee log) <= 1)%nat
  /\ (List.length (List.filter isGetNonce log) <= 1)%nat.
Proof.
  cbv zeta. builder_cases b; cbn; repeat split; lia.
Qed.

(** X5.  An error that a collaborator answers with is the error of the
    builder: when a call of the log was answered with an error, the
    builder fails with that very error, and that call is the last one it
    made. *)
Theorem collaborator_failure_propagates (b : Build) (c : Call) (e : Error) :
  In c (fst (run (build b))) ->
  answers c e ->
  snd (run (build b)) = Err e
  /\ exists before, fst (run (build b)) = before ++ [c].
Proof.
  builder_cases b; cbn [In];
    intros Hin Hanswer;
    repeat match goal with
           | H : _ \/ _ |- _ => destruct H as [<-|H]
           | H : False |- _ => destruct H
           end;
    cbn [answers] in Hanswer; try congruence;
    (split; [congruence |]);
    match goal with
    | |- exists before, ?l = before ++ _ => exists (removelast l); reflexivity
    end.
Qed.

(** X6.  A builder that is given a key set makes a multi-sig condition
    of the hash mode and the threshold asked for.  When an address is
    given, the signer hash of the condition is the hash of that address;
    when none is given, it is the hash that the keys derive in the order
    they were given in. *)
Theorem address_fixes_signer (b : Build) (options : UnsignedMultiSigOptions)
    (log : list Call) (tx : StacksTransaction) :
  givenKeys (optionsOf b) = WithPublicKeys options ->
  run (build b) = (log, Ok tx) ->
  exists signer nonce fee fields,
    spendingCondition (auth tx)
    = MultiSig (multiSigHashModeOf options) signer nonce fee fields
        (numSignatures options)
    /\ match truthyString (address options) with
       | Some a => signer = hash160 (createAddress a)
       | None =>
           signer = derivedHash (multiSigHashModeOf options) (numSignatures options)
                      (publicKeys options)
       end.
Proof.
  intros Hkeys Hrun.
  destruct (steps_return b log tx Hrun) as (p & c & tx0 & n & f & _ & Hc & Ho & _ & _ & Hs).
  rewrite Hkeys in Hc. apply origin_multiSig in Hc as (pubs & Hord & ->).
  cbn [withFee withNonce] in Ho.
  apply signingOrder_derives in Hord as (_ & Hd).
  assert (exists fields,
            spendingCondition (auth tx)
            = MultiSig (multiSigHashModeOf options)
                (derivedHash (multiSigHashModeOf options) (numSignatures options) pubs)
                n f fields (numSignatures options)) as (fields & Hsc).
  { pose proof (signWith_multiSig _ _ _ _ _ _ _ _ _ Ho Hs) as Hw.
    destruct (signedKeysOf b) as [[key|options' keys]|] eqn:Hwho.
    - apply keys_of_signed in Hwho. rewrite Hkeys in Hwho. discriminate Hwho.
    - destruct Hw as (pubs' & added & _ & -> & _).
      eexists. exact (withOriginFields_origin _ _ _ _ _ _ _ _ Ho).
    - subst tx. eexists. exact Ho. }
  eexists _, n, f, fields. split; [exact Hsc |].
  destruct (truthyString (address options)); [now symmetry | now rewrite Hd].
Qed.

(** X10.  In a signed builder that is given a key set, the auth fields of
    the envelope stand for the public keys in the very order that derives
    the signer hash of the condition: a signature where a signer key
    derives the public key, the bare public key elsewhere. *)
Theorem signing_order_is_derivation_order (b : Build)
    (options : UnsignedMultiSigOptions) (signerKeys : list string)
    (log : list Call) (tx : StacksTransaction) :
  signedKeysOf b = Some (WithSignerKeys options signerKeys) ->
  run (build b) = (log, Ok tx) ->
  exists pubs fields nonce fee,
    spendingCondition (auth tx)
    = MultiSig (multiSigHashModeOf options)
        (derivedHash (multiSigHashModeOf options) (numSignatures options) pubs)
        nonce fee fields (numSignatures options)
    /\ pubs ≡ₚ publicKeys options
    /\ Forall2 (fieldStandsFor signerKeys) pubs fields.
Proof.
  intros Hwho Hrun.
  destruct (steps_return b log tx Hrun) as (p & c & tx0 & n & f & _ & Hc & Ho & _ & _ & Hs).
  rewrite (keys_of_signed b _ Hwho) in Hc. cbn [unsignedKeys] in Hc.
  apply origin_multiSig in Hc as (pubs & Hord & ->).
  cbn [withFee withNonce] in Ho.
  pose proof (signWith_multiSig _ _ _ _ _ _ _ _ _ Ho Hs) as Hw.
  rewrite Hwho in Hw. destruct Hw as (pubs' & added & Hord' & -> & Hall).
  rewrite Hord in Hord'. injection Hord' as <-.
  exists pubs, added, n, f. split; [|split].
  - now rewrite (withOriginFields_origin _ _ _ _ _ _ _ _ Ho).
  - now apply signingOrder_derives in Hord.
  - exact Hall.
Qed.

(** X9.  The envelope that a builder returns holds the payload made from
    its options and the post-conditions of its options, in their order;
    neither the fee, the nonce nor a signature changes them. *)
Theorem envelope_body_as_asked (b : Build) (log : list Call) (tx : StacksTransaction) :
  run (build b) = (log, Ok tx) ->
  askedPayload b = Ok (payload tx)
  /\ postConditions tx = askedPostConditions b.
Proof.
  intros Hrun.
  destruct (steps_return b log tx Hrun)
    as (p & c & tx0 & n & f & Hp & _ & _ & <- & <- & Hs).
  apply signWith_keeps in Hs as (_ & _ & -> & -> & _). now split.
Qed.

Lemma origin_mismatch (options : UnsignedMultiSigOptions) (a hashGiven hashSorted : string)
    (nonce fee : Z) :
  truthyString (address options) = Some a ->
  deriveHash (multiSigHashModeOf options) (numSignatures options) (publicKeys options)
  = Ok hashGiven ->
  hashGiven <> hash160 (createAddress a) ->
  deriveHash (multiSigHashModeOf options) (numSignatures options)
    (jsSort (publicKeys options))
  = Ok hashSorted ->
  hashSorted <> hash160 (createAddress a) ->
  originSpendingCondition (WithPublicKeys options) nonce fee
  = Err (JsError MSG_NO_MATCHING_ADDRESS).
Proof.
  intros Ha D1 H1 D2 H2. unfold originSpendingCondition. rewrite Ha.
  rewrite sortedKeysForAddress_run. fold (multiSigHashModeOf options).
  apply String.eqb_neq in H1, H2. now rewrite D1, H1, D2, H2.
Qed.

(** X7.  When an address is given and the keys derive, in the order given
    and in sorted order, hashes that are not the hash of the address, the
    builder returns no envelope and calls neither the fee estimator nor
    the nonce lookup; once the payload is made (and validated), the error
    is the address mismatch. *)
Theorem address_mismatch_stops_builder (b : Build) (options : UnsignedMultiSigOptions)
    (a hashGiven hashSorted : string) :
  givenKeys (optionsOf b) = WithPublicKeys options ->
  truthyString (address options) = Some a ->
  deriveHash (multiSigHashModeOf options) (numSignatures options) (publicKeys options)
  = Ok hashGiven ->
  hashGiven <> hash160 (createAddress a) ->
  deriveHash (multiSigHashModeOf options) (numSignatures options)
    (jsSort (publicKeys options))
  = Ok hashSorted ->
  hashSorted <> hash160 (createAddress a) ->
  (exists e, snd (run (build b)) = Err e)
  /\ List.filter isEstimateFee (fst (run (build b))) = []
  /\ List.filter isGetNonce (fst (run (build b))) = []
  /\ (forall p,
        snd (payloadStep b) = Ok p ->
        run (build b) = (abiCalls b, Err (JsError MSG_NO_MATCHING_ADDRESS))
        /\ isAddressMismatchError (JsError MSG_NO_MATCHING_ADDRESS)).
Proof.
  intros Hkeys Ha D1 H1 D2 H2.
  pose proof (fun nonce fee =>
                origin_mismatch options a hashGiven hashSorted nonce fee Ha D1 H1 D2 H2)
    as Hm.
  rewrite <- Hkeys in Hm.
  builder_cases b;
    try (match goal with
         | H : originSpendingCondition _ _ _ = _ |- _ =>
             rewrite Hm in H; (discriminate H || injection H as <-)
         end);
    cbn [List.filter isEstimateFee isGetNonce];
    (split; [eauto |]); (split; [reflexivity |]); (split; [reflexivity |]);
    intros p' Hp'; try discriminate Hp'; split; reflexivity.
Qed.

(** X8.  Validation of a contract call against the interface of the
    contract.  When [validateWithAbi] is [true] the builder fetches the
    interface before anything else, unless the network was supplied as
    [undefined]: then it throws and fetches nothing.  A builder fetches the
    interface only when [validateWithAbi] is [true], and an interface that
    is supplied is used as it is.  A payload that the interface refuses
    stops the builder with the error of the validation, before a fee or a
    nonce is asked for; and an envelope that is returned holds a payload
    that has passed. *)
Theorem contract_call_abi_validation (b : Build) :
  (forall p,
     askedPayload b = Ok p ->
     askedValidation b = Some (inl true) ->
     (givenNetwork (optionsOf b) <> Some None ->
      exists rest,
        fst (run (build b))
        = GetAbi (fst (askedContract b)) (snd (askedContract b)) (apiOf b) :: rest)
     /\ (givenNetwork (optionsOf b) = Some None ->
         run (build b) = ([], Err (JsError MSG_NETWORK_REQUIRED_FOR_ABI))))
  /\ (forall c,
        In c (fst (run (build b))) -> isGetAbi c = true ->
        askedValidation b = Some (inl true)
        /\ givenNetwork (optionsOf b) <> Some None
        /\ c = GetAbi (fst (askedContract b)) (snd (askedContract b)) (apiOf b))
  /\ (forall p abi e,
        askedPayload b = Ok p ->
        askedValidation b = Some (inr abi)
        \/ (existsb isGetAbi (fst (run (build b))) = true
            /\ getAbi (fst (askedContract b)) (snd (askedContract b)) (apiOf b) = Ok abi) ->
        validateContractCall p abi = Err e ->
        snd (run (build b)) = Err e
        /\ List.filter isEstimateFee (fst (run (build b))) = []
        /\ List.filter isGetNonce (fst (run (build b))) = [])
  /\ (forall log tx r,
        run (build b) = (log, Ok tx) -> validationAbi b = Some r ->
        exists abi, r = Ok abi /\ validateContractCall (payload tx) abi = Ok tt).
Proof.
  pose proof (networkOption_undefined (optionsOf b)) as Hundefined.
  split; [|split; [|split]].
  - intros p' Hp' Hv'. revert Hp' Hv' Hundefined.
    builder_cases b; intros Hp' Hv' Hundefined; try discriminate;
      (split; [intros Hthere; first [now eexists | exfalso; tauto]
              |intros Hgone; first [reflexivity | apply Hundefined in Hgone; discriminate]]).
  - revert Hundefined. builder_cases b; cbn [In]; intros Hundefined c' Hin Hc';
      repeat match goal with
             | H : _ \/ _ |- _ => destruct H as [<-|H]
             | H : False |- _ => destruct H
             end;
      try discriminate Hc';
      (split; [reflexivity | split; [|reflexivity]]);
      intros Hgone; apply Hundefined in Hgone; discriminate.
  - intros p abi e Hp Hv He. revert Hv.
    builder_cases b; cbn [existsb isGetAbi isEstimateFee isGetNonce orb List.filter];
      intros [Hv|[Hv Hv']]; try discriminate; try congruence;
      repeat split; congruence.
  - intros log tx r Hrun Hv.
    destruct (steps_return b log tx Hrun)
      as (p & c & tx0 & n & f & Hp & _ & _ & Hp0 & _ & Hs).
    apply signWith_keeps in Hs as (_ & _ & Hpl & _). rewrite Hpl, Hp0. clear Hpl Hp0.
    revert Hrun Hv. builder_cases b; intros [=]; intros [= <-] || intros [=];
      eexists; (split; [reflexivity | congruence]).
Qed.

End BuilderFurther.

(** ** Sponsoring *)

Section SponsorFurther.
Context {CV : ClarityCodec} {Env : Environment} {Net : Collaborators}
        {Sig : SponsorSigning}.

(** The decision points of [sponsorTransaction], one case for each way
    through. *)
Ltac sponsor_cases o tx :=
  unfold sponsoring, sponsorTransaction, sponsoredFee, sponsoredNonce;
  unfold mbind, current, mutate, awaiting, returning, mret, mthrow, await;
  destruct (SponsorOptionsOpts.fee o) as [?fee|] eqn:?Hfee;
  try (destruct (sponsoringSupported (payloadType (payload tx))) eqn:?Hsupported);
  try (destruct (estimateFee tx _) as [?fee|?e] eqn:?Hest);
  try (destruct (SponsorOptionsOpts.sponsorNonce o) as [?nonce|] eqn:?Hnonce;
       try (destruct (sponsorNetworkOption (SponsorOptionsOpts.network o) tx)
              as [?n|] eqn:?Hnet; cbn [option_map]);
       try (destruct (getNonce _ _) as [?nonce|?e] eqn:?Hlookup);
       try (destruct (createSingleSigSpendingCondition _ _ _ _) as [?cond|?e] eqn:?Hcond;
            [match goal with
             | |- context [setSponsor ?c ?t] =>
                 destruct (setSponsor c t) as [?object|?e] eqn:?Hsponsor;
                 [destruct (createSponsorSigner _ _) as [?signer|?e] eqn:?Hsigner;
                  [destruct (signSponsor _ _) as [[?signed]|?e] eqn:?Hsigned|]
                 |]
             end|]));
  cbn [fst snd app objectAfter callsOf resultOf].

(** X11.  [sponsorTransaction] calls the fee estimator only when no fee
    is supplied and the nonce lookup only when no sponsor nonce is
    supplied, each at most once and the estimator first; it never fetches
    an interface.  The estimator is given the transaction as the caller
    passed it.  A run that returns has made the call for each option that
    was left out. *)
Theorem sponsor_call_discipline (o : SponsorOptionsOpts.t) (tx : StacksTransaction) :
  let log := callsOf (sponsoring o tx) in
  log = List.filter isEstimateFee log ++ List.filter isGetNonce log
  /\ (List.length (List.filter isEstimateFee log) <= 1)%nat
  /\ (List.length (List.filter isGetNonce log) <= 1)%nat
  /\ (forall c, In c log -> isEstimateFee c = true ->
        SponsorOptionsOpts.fee o = None /\ exists api, c = EstimateFee tx api)
  /\ (forall c, In c log -> isGetNonce c = true ->
        SponsorOptionsOpts.sponsorNonce o = None)
  /\ (forall result,
        resultOf (sponsoring o tx) = Ok result ->
        (SponsorOptionsOpts.fee o = None -> List.filter isEstimateFee log <> [])
        /\ (SponsorOptionsOpts.sponsorNonce o = None ->
            List.filter isGetNonce log <> [])).
Proof.
  cbv zeta. sponsor_cases o tx; cbn [List.filter isEstimateFee isGetNonce app List.length In].
  all: repeat match goal with
         | |- _ /\ _ => split
         | |- forall _, _ => intro
         | H : _ \/ _ |- _ => destruct H as [<-|H]
         | H : False |- _ => destruct H
         end;
       cbn [isEstimateFee isGetNonce] in *; try reflexivity; try lia; try congruence;
       eauto.
Qed.

(** X12.  When no fee is supplied, a transaction whose payload is not a
    token transfer, a contract deploy or a contract call is refused
    before any collaborator is called and before the transaction is
    written to, whatever its version and the network.  When a fee is
    supplied the payload type is not looked at: with a network to look
    the nonce up on, the lookup is the one call made, whatever the
    payload. *)
Theorem sponsor_unsupported_payload (o : SponsorOptionsOpts.t) (tx : StacksTransaction) :
  sponsoringSupported (payloadType (payload tx)) = false ->
  (SponsorOptionsOpts.fee o = None ->
   sponsoring o tx
   = (tx, [],
      Err (JsError (String.append MSG_SPONSORING_NOT_SUPPORTED
                      (payloadTypeName (payloadType (payload tx)))))))
  /\ (forall fee network,
        SponsorOptionsOpts.fee o = Some fee ->
        SponsorOptionsOpts.sponsorNonce o = None ->
        sponsorNetworkOption (SponsorOptionsOpts.network o) tx = Some network ->
        callsOf (sponsoring o tx)
        = [GetNonce
             (publicKeyToAddress
                (singleSig (Network.addressVersion (networkFrom network)))
                (privateKeyToPublic (SponsorOptionsOpts.sponsorPrivateKey o)))
             (sponsorApi o tx)]).
Proof.
  intros Hun. split.
  - intros Hfee. unfold sponsoring, sponsorTransaction, sponsoredFee.
    unfold mbind at 1, current at 1. cbv zeta. rewrite Hfee.
    unfold mbind, current, mthrow. now rewrite Hun.
  - intros fee network Hfee Hnonce Hnetwork.
    sponsor_cases o tx; congruence.
Qed.

(** X13.  The nonce of the sponsor is looked up at the address of the
    sponsor's public key under the single-sig address version of the
    network: of the network supplied, whatever the version of the
    transaction, and otherwise of the network that the version of the
    transaction stands for -- mainnet or testnet.  No lookup is made when
    the network is supplied as [undefined]. *)
Theorem sponsor_nonce_lookup_network (o : SponsorOptionsOpts.t) (tx : StacksTransaction)
    (address : string) (api : ApiOpts) :
  In (GetNonce address api) (callsOf (sponsoring o tx)) ->
  let sponsorPubKey := privateKeyToPublic (SponsorOptionsOpts.sponsorPrivateKey o) in
  let addressOn network :=
    publicKeyToAddress (singleSig (Network.addressVersion network)) sponsorPubKey in
  SponsorOptionsOpts.sponsorNonce o = None
  /\ match SponsorOptionsOpts.network o with
     | Some (Some network) =>
         address = addressOn (networkFrom network)
         /\ api = defaultApiFromNetwork network (SponsorOptionsOpts.api o)
     | Some None => False
     | None =>
         (txVersion tx = TransactionVersion_Mainnet
          /\ address = addressOn STACKS_MAINNET
          /\ api = defaultApiFromNetwork (inr STACKS_MAINNET) (SponsorOptionsOpts.api o))
         \/ (txVersion tx = TransactionVersion_Testnet
             /\ address = addressOn STACKS_TESTNET
             /\ api = defaultApiFromNetwork (inr STACKS_TESTNET)
                        (SponsorOptionsOpts.api o))
     end.
Proof.
  cbv zeta.
  assert (forall n,
            sponsorNetworkOption (SponsorOptionsOpts.network o) tx = Some n ->
            sponsorApi o tx = defaultApiFromNetwork n (SponsorOptionsOpts.api o)
            /\ match SponsorOptionsOpts.network o with
               | Some (Some network) => n = network
               | Some None => False
               | None =>
                   (txVersion tx = TransactionVersion_Mainnet /\ n = inr STACKS_MAINNET)
                   \/ (txVersion tx = TransactionVersion_Testnet
                       /\ n = inr STACKS_TESTNET)
               end) as Hresolved.
  { intros n Hn. split; [unfold sponsorApi, defaultApi; now rewrite Hn |]. revert Hn.
    unfold sponsorNetworkOption, whenTransactionVersion.
    destruct (SponsorOptionsOpts.network o) as [[given|]|];
      [congruence | discriminate |].
    destruct (txVersion tx =? TransactionVersion_Mainnet) eqn:E1;
      [apply Z.eqb_eq in E1; intros [= <-]; now left |].
    destruct (txVersion tx =? TransactionVersion_Testnet) eqn:E2;
      [apply Z.eqb_eq in E2; intros [= <-]; now right | discriminate]. }
  sponsor_cases o tx; cbn [In]; intros Hin;
    repeat match goal with
           | H : _ \/ _ |- _ => destruct H as [H|H]
           | H : False |- _ => destruct H
           | H : EstimateFee _ _ = GetNonce _ _ |- _ => discriminate H
           | H : GetNonce _ _ = GetNonce _ _ |- _ => injection H as <- <-
           end.
  all: (split; [reflexivity |]).
  all: destruct (Hresolved _ eq_refl) as (-> & Hn).
  all: destruct (SponsorOptionsOpts.network o) as [[given|]|];
       [subst; now split
       | exact Hn
       | destruct Hn as [(Hv & ->)|(Hv & ->)]; [left | right];
         now repeat split].
Qed.

(** X14.  When [sponsorTransaction] returns, the transaction it was given
    had a sponsored authorization; the sponsor's condition is the
    single-sig condition of the sponsor's public key, under the hash mode
    supplied or P2PKH, with the nonce supplied or looked up and the fee
    supplied or estimated on the transaction as it was passed.  The
    caller's transaction then differs from what it was in the sponsor's
    condition only -- the origin, with its signatures, and everything
    else are as they were -- and it is that transaction which the sponsor
    signer is made from; what is returned is the signer's transaction
    after the sponsor has signed. *)
Theorem sponsor_returns (o : SponsorOptionsOpts.t) (tx object result : StacksTransaction)
    (log : list Call) :
  sponsoring o tx = (object, log, Ok result) ->
  exists origin placeholder cond fee nonce signer,
    auth tx = SponsoredAuth origin placeholder
    /\ createSingleSigSpendingCondition
         (default SerializeP2PKH (SponsorOptionsOpts.sponsorAddressHashmode o))
         (privateKeyToPublic (SponsorOptionsOpts.sponsorPrivateKey o)) nonce fee
       = Ok cond
    /\ match SponsorOptionsOpts.fee o with
       | Some given => fee = given
       | None => exists api, estimateFee tx api = Ok fee
       end
    /\ match SponsorOptionsOpts.sponsorNonce o with
       | Some given => nonce = given
       | None => exists address api, getNonce address api = Ok nonce
       end
    /\ object = withAuth (SponsoredAuth origin cond) tx
    /\ createSponsorSigner object cond = Ok signer
    /\ signSponsor (SponsorOptionsOpts.sponsorPrivateKey o) signer = Ok (mkSigner result).
Proof.
  assert (forall c t t',
            setSponsor c t = Ok t' ->
            exists origin placeholder,
              auth t = SponsoredAuth origin placeholder
              /\ t' = withAuth (SponsoredAuth origin c) t) as Hset.
  { intros c t t'. unfold setSponsor. destruct (auth t) as [|origin s] eqn:Ha;
      [discriminate |]. intros [= <-]. now exists origin, s. }
  sponsor_cases o tx; intros [= <- <- <-] || intros [=].
  all: match goal with
       | H : setSponsor _ _ = Ok _ |- _ =>
           apply Hset in H as (origin & placeholder & Hauth & ->)
       end.
  all: try (unfold setFee in Hauth; cbn [auth withAuth] in Hauth;
            destruct (auth tx) as [|origin' s'] eqn:Hauth'; [discriminate Hauth |];
            injection Hauth as <- <-).
  all: eexists _, _, _, _, _, _.
  all: (split; [eassumption || reflexivity |]).
  all: (split; [eassumption |]).
  all: (split; [first [reflexivity | eexists; eassumption] |]).
  all: (split; [first [reflexivity | eexists _, _; eassumption] |]).
  all: (split; [|split; eassumption]).
  all: first [reflexivity | unfold setFee, withAuth; cbn; now rewrite Hauth'].
Qed.

(** X15.  A transaction with a standard authorization is never sponsored:
    the run does not return.  But it is refused late.  When the payload is
    one whose fee is estimated, the estimator and the lookup have answers
    and the sponsor's condition can be made, the run has asked the
    estimator (when no fee was supplied) and the nonce lookup (when no
    nonce was supplied), has overwritten the fee of the origin in the
    caller's transaction with the estimate, and only then fails with the
    not-sponsored error. *)
Theorem sponsor_standard_refused_late (o : SponsorOptionsOpts.t)
    (tx : StacksTransaction) (c : SpendingCondition) :
  auth tx = StandardAuth c ->
  let api := sponsorApi o tx in
  let addressOn network :=
    publicKeyToAddress (singleSig (Network.addressVersion (networkFrom network)))
      (privateKeyToPublic (SponsorOptionsOpts.sponsorPrivateKey o)) in
  (forall result, resultOf (sponsoring o tx) <> Ok result)
  /\ (forall api' fee,
        In (EstimateFee tx api') (callsOf (sponsoring o tx)) ->
        estimateFee tx api' = Ok fee ->
        objectAfter (sponsoring o tx) = setFee fee tx
        /\ spendingCondition (auth (objectAfter (sponsoring o tx))) = withFee fee c)
  /\ (forall fee nonce cond,
        (SponsorOptionsOpts.fee o = None ->
         sponsoringSupported (payloadType (payload tx)) = true) ->
        match SponsorOptionsOpts.fee o with
        | Some given => fee = given
        | None => estimateFee tx api = Ok fee
        end ->
        match SponsorOptionsOpts.sponsorNonce o with
        | Some given => nonce = given
        | None =>
            exists network,
              sponsorNetworkOption (SponsorOptionsOpts.network o) tx = Some network
              /\ getNonce (addressOn network) api = Ok nonce
        end ->
        createSingleSigSpendingCondition
          (default SerializeP2PKH (SponsorOptionsOpts.sponsorAddressHashmode o))
          (privateKeyToPublic (SponsorOptionsOpts.sponsorPrivateKey o)) nonce fee
        = Ok cond ->
        resultOf (sponsoring o tx) = Err NotSponsoredError
        /\ callsOf (sponsoring o tx)
           = match SponsorOptionsOpts.fee o with
             | Some _ => []
             | None => [EstimateFee tx api]
             end
             ++ match SponsorOptionsOpts.sponsorNonce o,
                      sponsorNetworkOption (SponsorOptionsOpts.network o) tx with
                | None, Some network => [GetNonce (addressOn network) api]
                | _, _ => []
                end
        /\ objectAfter (sponsoring o tx)
           = match SponsorOptionsOpts.fee o with
             | Some _ => tx
             | None => setFee fee tx
             end).
Proof.
  intros Hstd. cbv zeta.
  assert (forall s t, auth t = auth tx \/ (exists f, t = setFee f tx) ->
                      setSponsor s t = Err NotSponsoredError) as Hrefuse.
  { intros s t [Ht|(f & ->)]; unfold setSponsor, setFee; cbn [auth withAuth];
      rewrite ?Ht, Hstd; reflexivity. }
  split; [|split].
  - sponsor_cases o tx; intros result; try discriminate.
    all: match goal with
         | H : setSponsor _ _ = Ok _ |- _ => rewrite Hrefuse in H by eauto; discriminate H
         end.
  - intros api fee. sponsor_cases o tx; cbn [In]; intros Hin Hfee';
      repeat match goal with
             | H : _ \/ _ |- _ => destruct H as [H|H]
             | H : False |- _ => destruct H
             | H : GetNonce _ _ = EstimateFee _ _ |- _ => discriminate H
             | H : EstimateFee _ _ = EstimateFee _ _ |- _ => injection H as <-
             end.
    all: try congruence.
    all: try match goal with
         | H : setSponsor _ _ = Ok _ |- _ => rewrite Hrefuse in H by eauto; discriminate H
         end.
    all: assert (fee0 = fee) as -> by congruence.
    all: split; [reflexivity |]; unfold setFee; cbn [auth withAuth]; now rewrite Hstd.
  - intros fee nonce cond Ksup Kfee Knonce Kcond.
    assert (exists t1 log1,
              sponsoredFee (SponsorOptionsOpts.fee o) (sponsorApi o tx) tx []
              = (t1, log1, Ok fee)
              /\ (auth t1 = auth tx \/ exists f', t1 = setFee f' tx)
              /\ log1 = match SponsorOptionsOpts.fee o with
                        | Some _ => []
                        | None => [EstimateFee tx (sponsorApi o tx)]
                        end
              /\ t1 = match SponsorOptionsOpts.fee o with
                      | Some _ => tx
                      | None => setFee fee tx
                      end)
      as (t1 & log1 & F1 & Ht1 & Hlog1 & Hobj1).
    { unfold sponsoredFee. destruct (SponsorOptionsOpts.fee o) as [given|].
      - subst. exists tx, []. repeat split. now left.
      - unfold mbind, current, awaiting, await, mutate, mret.
        rewrite (Ksup eq_refl), Kfee.
        eexists _, _. split; [reflexivity |]. repeat split. right. now eexists. }
    assert (exists log2,
              sponsoredNonce (SponsorOptionsOpts.sponsorNonce o)
                (option_map networkFrom
                   (sponsorNetworkOption (SponsorOptionsOpts.network o) tx))
                (privateKeyToPublic (SponsorOptionsOpts.sponsorPrivateKey o))
                (sponsorApi o tx) t1 log1
              = (t1, log2, Ok nonce)
              /\ log2
                 = log1
                   ++ match SponsorOptionsOpts.sponsorNonce o,
                            sponsorNetworkOption (SponsorOptionsOpts.network o) tx with
                      | None, Some network =>
                          [GetNonce
                             (publicKeyToAddress
                                (singleSig (Network.addressVersion (networkFrom network)))
                                (privateKeyToPublic
                                   (SponsorOptionsOpts.sponsorPrivateKey o)))
                             (sponsorApi o tx)]
                      | _, _ => []
                      end)
      as (log2 & F2 & Hlog2).
    { unfold sponsoredNonce. destruct (SponsorOptionsOpts.sponsorNonce o) as [given|].
      - subst nonce. eexists. split; [reflexivity |]. now rewrite app_nil_r.
      - destruct Knonce as (network & -> & Knonce). cbn [option_map].
        unfold awaiting, await. rewrite Knonce. now eexists. }
    assert (sponsoring o tx = (t1, log2, Err NotSponsoredError)) as ->.
    { unfold sponsoring, sponsorTransaction. unfold mbind at 1, current at 1.
      cbv zeta. unfold mbind at 1. rewrite F1.
      unfold mbind at 1. rewrite F2. unfold mbind at 1, returning at 1. rewrite Kcond.
      unfold mbind at 1, mutate. now rewrite Hrefuse by exact Ht1. }
    unfold resultOf, callsOf, objectAfter. cbn [fst snd].
    split; [reflexivity |]. split; [now rewrite Hlog2, Hlog1 | exact Hobj1].
Qed.

(** X16.  Whatever [sponsorTransaction] does and however it ends, it
    leaves the version, the chain id, the payload, the post-conditions
    and the two modes of the caller's transaction as they were, and of
    its origin the hash mode, the signer hash, the nonce and the
    signatures. *)
Theorem sponsor_frame (o : SponsorOptionsOpts.t) (tx : StacksTransaction) :
  let object := objectAfter (sponsoring o tx) in
  txVersion object = txVersion tx
  /\ chainId object = chainId tx
  /\ payload object = payload tx
  /\ postConditions object = postConditions tx
  /\ postConditionMode object = postConditionMode tx
  /\ anchorMode object = anchorMode tx
  /\ authType (auth object) = authType (auth tx)
  /\ hashModeOf (spendingCondition (auth object)) = hashModeOf (spendingCondition (auth tx))
  /\ signerOf (spendingCondition (auth object)) = signerOf (spendingCondition (auth tx))
  /\ nonceOf (spendingCondition (auth object)) = nonceOf (spendingCondition (auth tx))
  /\ authFieldsOf (spendingCondition (auth object))
     = authFieldsOf (spendingCondition (auth tx)).
Proof.
  assert (forall c t t',
            setSponsor c t = Ok t' ->
            exists origin placeholder,
              auth t = SponsoredAuth origin placeholder
              /\ t' = withAuth (SponsoredAuth origin c) t) as Hset.
  { intros c t t'. unfold setSponsor. destruct (auth t) as [|origin s] eqn:Ha;
      [discriminate |]. intros [= <-]. now exists origin, s. }
  cbv zeta. sponsor_cases o tx.
  all: try match goal with
       | H : setSponsor _ _ = Ok _ |- _ =>
           apply Hset in H as (origin & placeholder & Hauth & ->)
       end.
  all: try (unfold setFee in Hauth; cbn [auth withAuth] in Hauth).
  all: unfold setFee; destruct tx as [v ch [c|c s] pl pcs pcm am];
       cbn in *; try discriminate;
       try (injection Hauth as <- <-); repeat split; try reflexivity;
       now destruct c.
Qed.

End SponsorFurther.

(** * The theorems at concrete inputs *)

Section Examples.
#[local] Existing Instance boolCodec.
#[local] Existing Instance exampleEnvironment.
#[local] Existing Instance exampleCollaborators.

Lemma boolCodec_round_trip : @ClarityCodecRoundTrip boolCodec.
Proof. intros [] rest off; reflexivity. Qed.





Lemma reconciliation_two_attempts_witness :
  exampleHeap !! 1%positive = Some exampleUnsortedKeys
  /\ StronglySorted jsStringLe (jsSort exampleUnsortedKeys)
  /\ jsSort exampleUnsortedKeys ≡ₚ exampleUnsortedKeys
  /\ (exists hashUnsorted,
        deriveHash SerializeP2SH 2 exampleUnsortedKeys = Ok hashUnsorted
        /\ hashUnsorted <> exampleSortedTarget)
  /\ deriveHash SerializeP2SH 2 (jsSort exampleUnsortedKeys) = Ok exampleSortedTarget
  /\ exists result h',
       sortPublicKeysForAddress 1%positive 2 SerializeP2SH exampleSortedTarget exampleHeap
       = Ok (result, h')
       /\ h' !! result = Some (jsSort exampleUnsortedKeys).
Proof.
  assert (exampleHeap !! 1%positive = Some exampleUnsortedKeys) as Hl
    by reflexivity.
  destruct (deriveHash SerializeP2SH 2 exampleUnsortedKeys) as [hashUnsorted|e] eqn:Hd;
    [|exfalso; vm_compute in Hd; discriminate Hd].
  assert (hashUnsorted <> exampleSortedTarget) as Hne
    by (vm_compute in Hd; injection Hd as <-; vm_compute; discriminate).
  assert (deriveHash SerializeP2SH 2 (jsSort exampleUnsortedKeys) = Ok exampleSortedTarget)
    as Heq by reflexivity.
  split; [exact Hl |]. split; [apply jsSort_sorted |].
  split; [apply jsSort_permutation |]. split; [now exists hashUnsorted |].
  split; [exact Heq |].
  exact (proj1 (proj2 (proj2 (reconciliation_two_attempts exampleHeap 1%positive
                                exampleUnsortedKeys (jsSort exampleUnsortedKeys) 2
                                SerializeP2SH exampleSortedTarget Hl
                                (jsSort_sorted _) (jsSort_permutation _)))
                  hashUnsorted Hd Hne) Heq).
Defined.

(** From an empty list of keys no hash is derived, in either order, and
    the call ends with the error of the derivation, which is not the
    address mismatch. *)
Example reconciliation_two_attempts_counterexample :
  ({[ 1%positive := [] ]} : gmap loc (list string)) !! 1%positive = Some []
  /\ jsSort [] = []
  /\ deriveHash SerializeP2SH 2 [] = Err (JsError "Invalid number of public keys")
  /\ sortPublicKeysForAddress 1%positive 2 SerializeP2SH exampleSortedTarget
       {[ 1%positive := [] ]}
     = Err (JsError "Invalid number of public keys")
  /\ errorKind (JsError "Invalid number of public keys") = None.
Proof.
  split; [reflexivity |]. split; [reflexivity |]. split; [reflexivity |].
  split; [|reflexivity].
  rewrite (sortPublicKeysForAddress_run _ _ []) by reflexivity. reflexivity.
Qed.

Lemma reconciliation_permutation_no_mutation_witness :
  exampleHeap !! 1%positive = Some exampleUnsortedKeys
  /\ exists result h',
       sortPublicKeysForAddress 1%positive 2 SerializeP2SH exampleSortedTarget exampleHeap
       = Ok (result, h')
       /\ h' !! 1%positive = Some exampleUnsortedKeys
       /\ exists returned,
            h' !! result = Some returned /\ returned ≡ₚ exampleUnsortedKeys.
Proof.
  assert (exampleHeap !! 1%positive = Some exampleUnsortedKeys) as Hl
    by reflexivity.
  split; [exact Hl |].
  destruct (sortPublicKeysForAddress 1%positive 2 SerializeP2SH exampleSortedTarget
              exampleHeap) as [[result h']|e] eqn:Hrun.
  - exists result, h'. split; [reflexivity |].
    destruct (reconciliation_permutation_no_mutation exampleHeap h' 1%positive result
                exampleUnsortedKeys 2 SerializeP2SH exampleSortedTarget Hl Hrun)
      as (Hsame & _ & returned & Hret & Hperm & _).
    split; [exact Hsame |]. exists returned. now split.
  - exfalso.
    rewrite (sortPublicKeysForAddress_run exampleHeap 1%positive exampleUnsortedKeys)
      in Hrun by exact Hl.
    vm_compute in Hrun. discriminate Hrun.
Defined.

Lemma auth_field_order_witness :
  exists cond signed fieldA fieldB fieldC,
    createMultiSigSpendingCondition SerializeP2SH 2 examplePubKeys 0 0 = Ok cond
    /\ appendOrigin (createStacksPublicKey (nth 2 examplePubKeys EmptyString))
         (signOrigin (nth 1 examplePrivKeys EmptyString)
            (signOrigin (nth 0 examplePrivKeys EmptyString)
               (newTransactionSigner
                  (newStacksTransaction TransactionVersion_Mainnet
                     (createStandardAuth cond)
                     (TokenTransferPayload
                        (StandardPrincipalCV (mkAddress 22 exampleRecipient))
                        2500000 "memo")
                     None None None None))))
       = Ok (mkSigner signed)
    /\ validTransaction signed = true
    /\ exists decoded,
         deserializeTransaction (FromBytes (serializeBytes signed)) = Ok decoded
         /\ fieldsOf (spendingCondition (auth decoded)) = [fieldA; fieldB; fieldC]
         /\ map fieldTag (fieldsOf (spendingCondition (auth decoded)))
            = [SignatureTag; SignatureTag; PublicKeyTag].
Proof.
  destruct (createMultiSigSpendingCondition SerializeP2SH 2 examplePubKeys 0 0)
    as [cond|e] eqn:Hcond; [|exfalso; vm_compute in Hcond; discriminate Hcond].
  destruct (auth_field_order boolCodec_round_trip SerializeP2SH
              (nth 0 examplePubKeys EmptyString) (nth 1 examplePubKeys EmptyString)
              (nth 2 examplePubKeys EmptyString)
              (nth 0 examplePrivKeys EmptyString) (nth 1 examplePrivKeys EmptyString)
              0 0 TransactionVersion_Mainnet cond
              (TokenTransferPayload
                 (StandardPrincipalCV (mkAddress 22 exampleRecipient)) 2500000 "memo")
              None None None None _ _ _ _ Hcond eq_refl eq_refl eq_refl eq_refl)
    as (signed & Hsigned & _ & Hdecoded).
  eexists cond, signed, _, _, _. split; [reflexivity | split; [exact Hsigned |]].
  assert (validTransaction signed = true) as Hv.
  { vm_compute in Hcond. injection Hcond as <-.
    vm_compute in Hsigned. injection Hsigned as <-.
    vm_compute. reflexivity. }
  split; [exact Hv |].
  destruct (Hdecoded Hv) as (decoded & Hd & Hfields & _ & Htags).
  exists decoded. split; [exact Hd | split; [exact Hfields | exact Htags]].
Defined.

Lemma exampleEnvironment_key_encoding (key : string) :
  privateKeyEncoding key = keyEncoding (createStacksPublicKey (privateKeyToPublic key)).
Proof.
  unfold privateKeyEncoding. cbn [createStacksPublicKey privateKeyToPublic exampleEnvironment].
  unfold examplePrivateKeyToPublic, PRIVATE_KEY_COMPRESSED_LENGTH.
  destruct (Nat.eqb (List.length (hexBytes key)) 33); reflexivity.
Qed.

Lemma segwit_compression_rule_witness :
  forallb isCompressed (map createStacksPublicKey exampleUncompressedPubKeys) = false
  /\ (exists e,
        createMultiSigSpendingCondition SerializeP2WSH 2 exampleUncompressedPubKeys 0 0
        = Err e
        /\ isUncompressedKeyNotAllowedError e)
  /\ exists tx,
       signInOrder (firstn 2 exampleUncompressedPrivKeys)
         (newTransactionSigner exampleForcedSegwit) exampleUncompressedPubKeys
       = Ok (mkSigner tx)
       /\ wellFormedUpToOrigin tx = true
       /\ (exists e, verifyOrigin tx = Err e /\ isUncompressedKeyNotAllowedError e)
       /\ (exists e,
             deserializeTransaction (FromHex (serialize tx)) = Err e
             /\ isUncompressedKeyNotAllowedError e).
Proof.
  assert (forallb isCompressed (map createStacksPublicKey exampleUncompressedPubKeys)
          = false) as Hunc by (vm_compute; reflexivity).
  destruct (segwit_compression_rule exampleUncompressedPubKeys
              (firstn 2 exampleUncompressedPrivKeys) 2 0 0
              exampleEnvironment_key_encoding Hunc) as (Hmake & Hforced).
  split; [exact Hunc | split; [now apply Hmake |]].
  destruct (signInOrder (firstn 2 exampleUncompressedPrivKeys)
              (newTransactionSigner exampleForcedSegwit) exampleUncompressedPubKeys)
    as [[tx]|e] eqn:Hrun; [|exfalso; vm_compute in Hrun; discriminate Hrun].
  exists tx. split; [reflexivity |].
  assert (wellFormedUpToOrigin tx = true) as Hwf.
  { vm_compute in Hrun. injection Hrun as <-. vm_compute. reflexivity. }
  split; [exact Hwf |].
  destruct (Hforced SerializeP2SH SerializeP2WSH
              (exampleHash (MultiSigMode SerializeP2SH) 2
                 (map exampleCreateStacksPublicKey exampleUncompressedPubKeys))
              0 0 2 exampleForcedSegwit tx eq_refl eq_refl eq_refl Hrun)
    as (Hverify & Hdecode).
  split; [exact Hverify |].
  apply (Hdecode Hwf). unfold serializedForms. simpl. auto.
Defined.

Lemma token_transfer_has_no_post_conditions_witness :
  exists log tx,
    run (makeSTXTokenTransfer exampleSignedTransferOptions) = (log, Ok tx)
    /\ postConditions tx = [].
Proof.
  assert (isOk (snd (run (makeSTXTokenTransfer exampleSignedTransferOptions))) = true)
    as Hok by (vm_compute; reflexivity).
  destruct (run (makeSTXTokenTransfer exampleSignedTransferOptions))
    as [log [tx|e]] eqn:Hrun; [|discriminate Hok].
  exists log, tx. split; [reflexivity |].
  exact (proj2 token_transfer_has_no_post_conditions
           exampleSignedTransferOptions log tx Hrun).
Defined.

Lemma unmatched_signer_keys_ignored_witness :
  spendingCondition (auth exampleUnsignedMultiSig)
  = MultiSig SerializeP2SH
      (exampleHash (MultiSigMode SerializeP2SH) 2
         (map exampleCreateStacksPublicKey examplePubKeys)) 0 0 [] 2
  /\ signingOrder examplePubKeys 2 SerializeP2SH None = Ok examplePubKeys
  /\ (forall pk, In pk examplePubKeys -> privateKeyToPublic exampleStrangerKey <> pk)
  /\ exists added,
       mutatingSignAppendMultiSig exampleUnsignedMultiSig examplePubKeys
         [nth 0 examplePrivKeys EmptyString; exampleStrangerKey] None
       = Ok (withOriginFields added exampleUnsignedMultiSig)
       /\ map fieldTag added = [SignatureTag; PublicKeyTag; PublicKeyTag]
       /\ countSignatures added = 1
       /\ mutatingSignAppendMultiSig exampleUnsignedMultiSig examplePubKeys
            [nth 0 examplePrivKeys EmptyString; exampleStrangerKey] None
          = mutatingSignAppendMultiSig exampleUnsignedMultiSig examplePubKeys
              [nth 0 examplePrivKeys EmptyString] None.
Proof.
  assert (forall pk, In pk examplePubKeys ->
                     privateKeyToPublic exampleStrangerKey <> pk) as Hstranger.
  { intros pk Hin. vm_compute in Hin.
    destruct Hin as [<-|[<-|[<-|[]]]]; vm_compute; discriminate. }
  split; [reflexivity | split; [reflexivity | split; [exact Hstranger |]]].
  destruct (unmatched_signer_keys_ignored exampleUnsignedMultiSig examplePubKeys
              [nth 0 examplePrivKeys EmptyString; exampleStrangerKey] examplePubKeys None
              SerializeP2SH _ 0 0 [] 2 eq_refl eq_refl)
    as ((added & Hrun & Hall & _ & Hcount) & Hignored).
  exists added. split; [exact Hrun | split; [|split]].
  - rewrite (fieldTags_standFor _ _ _ Hall). vm_compute. reflexivity.
  - rewrite Hcount. vm_compute. reflexivity.
  - exact (Hignored [nth 0 examplePrivKeys EmptyString] [] exampleStrangerKey
             eq_refl Hstranger).
Defined.

Lemma builder_defaults_and_estimation_witness :
  (exists p c tx,
     snd (payloadStep (TransferUnsigned (exampleUnsignedTransferOptions None))) = Ok p
     /\ originSpendingCondition
          (WithPublicKeys (mkMultiSigOptions 2 exampleUnsortedKeys None None)) 0 0
        = Ok c
     /\ snd (run (makeUnsignedSTXTokenTransfer (exampleUnsignedTransferOptions None)))
        = Ok tx
     /\ isSingleSig (spendingCondition (auth tx)) = false
     /\ txVersion tx = TransactionVersion_Mainnet
     /\ anchorMode tx = Any
     /\ postConditionMode tx = Deny
     /\ authType (auth tx) = Standard
     /\ existsb isEstimateFee
          (fst (run (makeUnsignedSTXTokenTransfer (exampleUnsignedTransferOptions None))))
        = true
     /\ existsb isGetNonce
          (fst (run (makeUnsignedSTXTokenTransfer (exampleUnsignedTransferOptions None))))
        = true)
  /\ (exists p c tx,
        snd (payloadStep (CallUnsigned exampleContractCallOptions)) = Ok p
        /\ originSpendingCondition (WithPublicKey (nth 0 examplePubKeys EmptyString)) 0 0
           = Ok c
        /\ snd (run (makeUnsignedContractCall exampleContractCallOptions)) = Ok tx
        /\ isSingleSig (spendingCondition (auth tx)) = true
        /\ feeOf (feeCondition (auth tx)) = 180
        /\ nonceOf (spendingCondition (auth tx)) = 7
        /\ txVersion tx = TransactionVersion_Mainnet
        /\ chainId tx = ChainID_Mainnet).
Proof.
  destruct builder_defaults_and_estimation
    as (Htransfer & _ & Hcall & _ & _ & _ & _ & _ & Hprogress).
  split.
  - destruct (snd (payloadStep (TransferUnsigned (exampleUnsignedTransferOptions None))))
      as [p|e] eqn:Hp; [|exfalso; vm_compute in Hp; discriminate Hp].
    destruct (originSpendingCondition
                (WithPublicKeys (mkMultiSigOptions 2 exampleUnsortedKeys None None)) 0 0)
      as [c|e] eqn:Hc; [|exfalso; vm_compute in Hc; discriminate Hc].
    destruct (Hprogress (TransferUnsigned (exampleUnsignedTransferOptions None)) p c Hp Hc)
      as (_ & _ & Hreturns); [discriminate |].
    destruct Hreturns as (tx & Htx);
      [reflexivity | intros _; now exists 180 | intros _; now exists 7 |].
    cbn [build] in Htx.
    destruct (Htransfer (exampleUnsignedTransferOptions None)) as (_ & _ & _ & Hmade).
    destruct (Hmade tx Htx)
      as (Hfee & Hnonce & _ & _ & _ & _ & Hmain & Hanchor & Hmode & Hauth & Hsingle & _).
    exists p, c, tx. split; [reflexivity | split; [reflexivity | split; [exact Htx |]]].
    split; [exact Hsingle |]. split; [exact (proj1 (Hmain eq_refl)) |].
    split; [exact Hanchor |]. split; [exact Hmode |]. split; [exact Hauth |].
    split; [exact (proj1 (Hfee eq_refl)) | exact (proj1 (Hnonce eq_refl))].
  - destruct (snd (payloadStep (CallUnsigned exampleContractCallOptions)))
      as [p|e] eqn:Hp; [|exfalso; vm_compute in Hp; discriminate Hp].
    destruct (originSpendingCondition
                (WithPublicKey (nth 0 examplePubKeys EmptyString)) 0 0)
      as [c|e] eqn:Hc; [|exfalso; vm_compute in Hc; discriminate Hc].
    destruct (Hprogress (CallUnsigned exampleContractCallOptions) p c Hp Hc)
      as (_ & _ & Hreturns); [discriminate |].
    destruct Hreturns as (tx & Htx);
      [reflexivity | intros _; now exists 180 | intros _; now exists 7 |].
    cbn [build] in Htx.
    destruct (Hcall exampleContractCallOptions) as (_ & _ & _ & Hmade).
    destruct (Hmade tx Htx)
      as (Hfee & Hnonce & _ & _ & _ & _ & Hmain & _ & _ & _ & Hsingle & _).
    destruct (Hfee eq_refl) as (_ & tx0 & api & _ & Hestimate).
    destruct (Hnonce eq_refl) as (_ & address & api' & _ & Hlookup).
    exists p, c, tx. split; [reflexivity | split; [reflexivity | split; [exact Htx |]]].
    split; [exact Hsingle |].
    split; [now injection Hestimate as <- |]. split; [now injection Hlookup as <- |].
    exact (Hmain eq_refl).
Defined.

(** ** The tests of [transaction.test.ts] on the model *)

Ltac conjuncts := repeat match goal with |- _ /\ _ => split end.

(** Lines 393-413: the coinbase transaction that pays a standard principal
    is read as the test expects, and written back as it was given. *)
Example coinbase_to_standard_principal_vector :
  exists tx,
    deserializeTransaction (FromHex exampleCoinbaseToStandardPrincipal) = Ok tx /\
    anchorMode tx = OnChainOnly /\
    txVersion tx = TransactionVersion_Testnet /\
    payload tx =
      CoinbaseToAltRecipientPayload (repeat x00 32)
        (StandardPrincipalCV (mkAddress 26 exampleRecipient)) /\
    serialize tx = without0x exampleCoinbaseToStandardPrincipal.
Proof. eexists. split; [vm_compute; reflexivity|]. conjuncts; vm_compute; reflexivity. Qed.

(** Lines 415-435: the same for a contract principal. *)
Example coinbase_to_contract_principal_vector :
  exists tx,
    deserializeTransaction (FromHex exampleCoinbaseToContractPrincipal) = Ok tx /\
    anchorMode tx = OnChainOnly /\
    txVersion tx = TransactionVersion_Testnet /\
    payload tx =
      CoinbaseToAltRecipientPayload (repeat x00 32)
        (ContractPrincipalCV (mkAddress 26 exampleRecipient) "hello_world") /\
    serialize tx = without0x exampleCoinbaseToContractPrincipal.
Proof. eexists. split; [vm_compute; reflexivity|]. conjuncts; vm_compute; reflexivity. Qed.

(** Lines 204-266: the 2-of-3 transfer, signed by two keys and completed
    with the third public key, verifies and is read back as it was
    written, with the defaults of the constructor. *)
Example multi_sig_transfer_test :
  exists tx signed read,
    exampleMultiSigTransfer SerializeP2SH examplePubKeys = Ok tx /\
    rbind
      (appendOrigin (exampleCreateStacksPublicKey (nth 2 examplePubKeys ""))
         (signOrigin (nth 1 examplePrivKeys "")
            (signOrigin (nth 0 examplePrivKeys "") (newTransactionSigner tx))))
      (fun s => Ok (transaction s)) = Ok signed /\
    verifyOrigin signed = Ok tt /\
    deserializeTransaction (FromBytes (serializeBytes signed)) = Ok read /\
    read = signed /\
    anchorMode read = Any /\
    postConditionMode read = Deny /\
    postConditions read = [] /\
    chainId read = ChainID_Mainnet.
Proof.
  do 3 eexists.
  split; [vm_compute; reflexivity|].
  split; [vm_compute; reflexivity|].
  split; [vm_compute; reflexivity|].
  split; [vm_compute; reflexivity|].
  conjuncts; reflexivity.
Qed.

(** Lines 268-326: with uncompressed keys the segwit condition is refused
    at its construction; forced onto the condition, it is refused by
    verification and by the deserializer. *)
Example multi_sig_uncompressed_test :
  createMultiSigSpendingCondition SerializeP2WSH 2 exampleUncompressedPubKeys 0 0
    = Err (JsError MSG_COMPRESSED_FOR_SEGWIT) /\
  exists signed,
    rbind
      (appendOrigin
         (exampleCreateStacksPublicKey (nth 2 exampleUncompressedPubKeys ""))
         (signOrigin (nth 1 exampleUncompressedPrivKeys "")
            (signOrigin (nth 0 exampleUncompressedPrivKeys "")
               (newTransactionSigner exampleForcedSegwit))))
      (fun s => Ok (transaction s)) = Ok signed /\
    verifyOrigin signed = Err (JsError MSG_UNCOMPRESSED_NOT_ALLOWED) /\
    deserializeTransaction (FromHex (serialize signed))
      = Err (JsError MSG_UNCOMPRESSED_NOT_ALLOWED).
Proof.
  split; [vm_compute; reflexivity|].
  eexists. split; [vm_compute; reflexivity|].
  conjuncts; vm_compute; reflexivity.
Qed.

(** ** The further properties at concrete inputs *)

#[local] Existing Instance exampleSponsorSigning.

Lemma reconciliation_result_derives_target_witness :
  exampleHeap !! 1%positive = Some exampleUnsortedKeys
  /\ exists result h' returned,
       sortPublicKeysForAddress 1%positive 2 SerializeP2SH exampleSortedTarget exampleHeap
       = Ok (result, h')
       /\ h' !! result = Some returned
       /\ derivedHash SerializeP2SH 2 returned = exampleSortedTarget
       /\ sortPublicKeysForAddress result 2 SerializeP2SH exampleSortedTarget h'
          = Ok (result, h').
Proof.
  assert (exampleHeap !! 1%positive = Some exampleUnsortedKeys) as Hl
    by reflexivity.
  split; [exact Hl |].
  destruct (sortPublicKeysForAddress 1%positive 2 SerializeP2SH exampleSortedTarget
              exampleHeap) as [[result h']|e] eqn:Hrun.
  - destruct (reconciliation_result_derives_target exampleHeap h' 1%positive result
                exampleUnsortedKeys 2 SerializeP2SH exampleSortedTarget Hl Hrun)
      as (returned & Hret & Hhash & Hagain).
    exists result, h', returned. now repeat split.
  - exfalso.
    rewrite (sortPublicKeysForAddress_run exampleHeap 1%positive exampleUnsortedKeys)
      in Hrun by exact Hl.
    vm_compute in Hrun. discriminate Hrun.
Defined.

Lemma reconciliation_accepts_any_order_witness :
  exampleHeap !! 1%positive = Some exampleUnsortedKeys
  /\ exampleUnsortedKeys ≡ₚ examplePubKeys
  /\ deriveHash SerializeP2SH 2 (jsSort examplePubKeys) = Ok exampleSortedTarget
  /\ exists hashGiven result h' returned,
       deriveHash SerializeP2SH 2 exampleUnsortedKeys = Ok hashGiven
       /\ sortPublicKeysForAddress 1%positive 2 SerializeP2SH exampleSortedTarget
            exampleHeap
          = Ok (result, h')
       /\ h' !! result = Some returned
       /\ returned ≡ₚ exampleUnsortedKeys
       /\ deriveHash SerializeP2SH 2 returned = Ok exampleSortedTarget.
Proof.
  assert (exampleHeap !! 1%positive = Some exampleUnsortedKeys) as Hl
    by reflexivity.
  assert (exampleUnsortedKeys ≡ₚ examplePubKeys) as Hp
    by (symmetry; apply Permutation_rev).
  assert (deriveHash SerializeP2SH 2 (jsSort examplePubKeys) = Ok exampleSortedTarget)
    as Ht by (vm_compute; reflexivity).
  split; [exact Hl | split; [exact Hp | split; [exact Ht |]]].
  destruct (deriveHash SerializeP2SH 2 exampleUnsortedKeys) as [hashGiven|e] eqn:Hg;
    [|exfalso; vm_compute in Hg; discriminate Hg].
  destruct (reconciliation_accepts_any_order exampleHeap 1%positive exampleUnsortedKeys
              examplePubKeys 2 SerializeP2SH exampleSortedTarget hashGiven Hl Hp Ht Hg)
    as (result & h' & returned & Hrun).
  exists hashGiven, result, h', returned. split; [reflexivity | exact Hrun].
Defined.

Lemma reconciliation_of_sorted_keys_witness :
  let h : gmap loc (list string) := {[ 1%positive := jsSort exampleUnsortedKeys ]} in
  h !! 1%positive = Some (jsSort exampleUnsortedKeys)
  /\ StronglySorted jsStringLe (jsSort exampleUnsortedKeys)
  /\ deriveHash SerializeP2SH 2 (jsSort exampleUnsortedKeys) = Ok exampleSortedTarget
  /\ sortPublicKeysForAddress 1%positive 2 SerializeP2SH exampleSortedTarget h
     = Ok (1%positive, h).
Proof.
  intros h.
  assert (h !! 1%positive = Some (jsSort exampleUnsortedKeys)) as Hl
    by apply lookup_singleton_eq.
  assert (deriveHash SerializeP2SH 2 (jsSort exampleUnsortedKeys) = Ok exampleSortedTarget)
    as Ht by reflexivity.
  split; [exact Hl | split; [apply jsSort_sorted | split; [exact Ht |]]].
  exact (proj1 (reconciliation_of_sorted_keys h 1%positive (jsSort exampleUnsortedKeys) 2
                  SerializeP2SH exampleSortedTarget Hl (or_intror (jsSort_sorted _)))
           Ht).
Defined.

Lemma collaborator_failure_propagates_witness :
  let outcome :=
    run (@build boolCodec exampleEnvironment exampleFailingCollaborators
           (TransferUnsigned (exampleUnsignedTransferOptions None))) in
  exists c e,
    In c (fst outcome)
    /\ @answers boolCodec exampleEnvironment exampleFailingCollaborators c e
    /\ snd outcome = Err e
    /\ exists before, fst outcome = before ++ [c].
Proof.
  intros outcome.
  assert (forallb isEstimateFee (fst outcome) && negb (forallb isGetNonce (fst outcome))
          = true) as Hlog by (vm_compute; reflexivity).
  destruct (fst outcome) as [|c rest] eqn:Hfst; [discriminate Hlog |].
  apply andb_true_iff in Hlog as (Hc & _). cbn [forallb] in Hc.
  apply andb_true_iff in Hc as (Hc & _).
  destruct c as [tx api| |]; try discriminate Hc.
  assert (In (EstimateFee tx api) (fst outcome)) as Hin by (rewrite Hfst; now left).
  assert (@answers boolCodec exampleEnvironment exampleFailingCollaborators
            (EstimateFee tx api) (JsError "fee estimation failed")) as Hanswer
    by reflexivity.
  exists (EstimateFee tx api), (JsError "fee estimation failed").
  rewrite <- Hfst.
  split; [exact Hin | split; [exact Hanswer |]].
  exact (@collaborator_failure_propagates boolCodec exampleEnvironment
           exampleFailingCollaborators _ _ _ Hin Hanswer).
Defined.

Lemma address_fixes_signer_witness :
  let b := TransferUnsigned (exampleUnsignedTransferOptions (Some exampleSortedTarget)) in
  let options := mkMultiSigOptions 2 exampleUnsortedKeys (Some exampleSortedTarget) None in
  givenKeys (optionsOf b) = WithPublicKeys options
  /\ exists log tx,
       run (build b) = (log, Ok tx)
       /\ exists signer nonce fee fields,
            spendingCondition (auth tx)
            = MultiSig (multiSigHashModeOf options) signer nonce fee fields 2
            /\ match truthyString (address options) with
               | Some a => signer = hash160 (createAddress a)
               | None =>
                   signer = derivedHash (multiSigHashModeOf options) 2 exampleUnsortedKeys
               end.
Proof.
  intros b options. split; [reflexivity |].
  assert (isOk (snd (run (build b))) = true) as Hok by (vm_compute; reflexivity).
  destruct (run (build b)) as [log [tx|e]] eqn:Hrun; [|discriminate Hok].
  exists log, tx. split; [reflexivity |].
  exact (address_fixes_signer b options log tx eq_refl Hrun).
Defined.

Lemma address_mismatch_stops_builder_witness :
  let b := TransferUnsigned (exampleUnsignedTransferOptions (Some exampleStrangerAddress)) in
  let options := mkMultiSigOptions 2 exampleUnsortedKeys (Some exampleStrangerAddress) None in
  givenKeys (optionsOf b) = WithPublicKeys options
  /\ truthyString (address options) = Some exampleStrangerAddress
  /\ (exists hashGiven hashSorted,
        deriveHash (multiSigHashModeOf options) 2 exampleUnsortedKeys = Ok hashGiven
        /\ hashGiven <> hash160 (createAddress exampleStrangerAddress)
        /\ deriveHash (multiSigHashModeOf options) 2 (jsSort exampleUnsortedKeys)
           = Ok hashSorted
        /\ hashSorted <> hash160 (createAddress exampleStrangerAddress))
  /\ (exists e, snd (run (build b)) = Err e)
  /\ List.filter isEstimateFee (fst (run (build b))) = []
  /\ List.filter isGetNonce (fst (run (build b))) = [].
Proof.
  intros b options.
  destruct (deriveHash (multiSigHashModeOf options) 2 exampleUnsortedKeys)
    as [hashGiven|e] eqn:D1; [|exfalso; vm_compute in D1; discriminate D1].
  destruct (deriveHash (multiSigHashModeOf options) 2 (jsSort exampleUnsortedKeys))
    as [hashSorted|e] eqn:D2; [|exfalso; vm_compute in D2; discriminate D2].
  assert (hashGiven <> hash160 (createAddress exampleStrangerAddress)) as H1
    by (vm_compute in D1; injection D1 as <-; vm_compute; discriminate).
  assert (hashSorted <> hash160 (createAddress exampleStrangerAddress)) as H2
    by (vm_compute in D2; injection D2 as <-; vm_compute; discriminate).
  split; [reflexivity | split; [reflexivity |]].
  split; [now exists hashGiven, hashSorted |].
  destruct (address_mismatch_stops_builder b options exampleStrangerAddress
              hashGiven hashSorted eq_refl eq_refl D1 H1 D2 H2)
    as (Hfails & Hfee & Hnonce & _).
  now repeat split.
Defined.

Lemma contract_call_abi_validation_witness :
  let b := CallUnsigned exampleContractCallOptions in
  let undefinedNetwork := CallUnsigned exampleCallUndefinedNetwork in
  askedValidation b = Some (inl true)
  /\ (exists log tx,
        run (build b) = (log, Ok tx)
        /\ (exists rest,
              log = GetAbi (fst (askedContract b)) (snd (askedContract b)) (apiOf b)
                      :: rest)
        /\ (forall c, In c log -> isGetAbi c = true ->
            c = GetAbi (fst (askedContract b)) (snd (askedContract b)) (apiOf b))
        /\ exists abi,
             validationAbi b = Some (Ok abi)
             /\ validateContractCall (payload tx) abi = Ok tt)
  /\ askedValidation undefinedNetwork = Some (inl true)
  /\ givenNetwork (optionsOf undefinedNetwork) = Some None
  /\ run (build undefinedNetwork) = ([], Err (JsError MSG_NETWORK_REQUIRED_FOR_ABI)).
Proof.
  intros b undefinedNetwork. split; [reflexivity |]. split.
  - assert (isOk (snd (run (build b))) = true) as Hok by (vm_compute; reflexivity).
    destruct (contract_call_abi_validation b) as (Hfirst & Honly & _ & Hpassed).
    destruct (Hfirst _ eq_refl eq_refl) as (Hfetched & _).
    destruct (run (build b)) as [log [tx|e]] eqn:Hrun; [|discriminate Hok].
    exists log, tx. split; [reflexivity |].
    split; [apply Hfetched; discriminate |].
    split; [intros c Hin Hc; exact (proj2 (proj2 (Honly c Hin Hc))) |].
    destruct (Hpassed log tx _ eq_refl eq_refl) as (abi & Habi & Hvalid).
    exists abi. split; [exact (f_equal Some Habi) | exact Hvalid].
  - split; [reflexivity | split; [reflexivity |]].
    destruct (contract_call_abi_validation undefinedNetwork) as (Hfirst & _).
    destruct (Hfirst _ eq_refl eq_refl) as (_ & Hthrows).
    exact (Hthrows eq_refl).
Defined.

Lemma envelope_body_as_asked_witness :
  let b := TransferSigned exampleSignedTransferOptions in
  exists log tx,
    run (build b) = (log, Ok tx)
    /\ askedPayload b = Ok (payload tx)
    /\ postConditions tx = askedPostConditions b.
Proof.
  intros b.
  assert (isOk (snd (run (build b))) = true) as Hok by (vm_compute; reflexivity).
  destruct (run (build b)) as [log [tx|e]] eqn:Hrun; [|discriminate Hok].
  exists log, tx. split; [reflexivity |].
  exact (envelope_body_as_asked b log tx Hrun).
Defined.

Lemma signing_order_is_derivation_order_witness :
  let b := TransferSigned exampleSignedAddressOptions in
  let options := mkMultiSigOptions 2 exampleUnsortedKeys (Some exampleSortedTarget) None in
  signedKeysOf b = Some (WithSignerKeys options (firstn 2 examplePrivKeys))
  /\ exists log tx,
       run (build b) = (log, Ok tx)
       /\ exists pubs fields nonce fee,
            spendingCondition (auth tx)
            = MultiSig (multiSigHashModeOf options)
                (derivedHash (multiSigHashModeOf options) 2 pubs) nonce fee fields 2
            /\ pubs ≡ₚ exampleUnsortedKeys
            /\ Forall2 (fieldStandsFor (firstn 2 examplePrivKeys)) pubs fields.
Proof.
  intros b options. split; [reflexivity |].
  assert (isOk (snd (run (build b))) = true) as Hok by (vm_compute; reflexivity).
  destruct (run (build b)) as [log [tx|e]] eqn:Hrun; [|discriminate Hok].
  exists log, tx. split; [reflexivity |].
  exact (signing_order_is_derivation_order b options _ log tx eq_refl Hrun).
Defined.

Lemma sponsor_unsupported_payload_witness :
  sponsoringSupported (payloadType (payload exampleSponsoredCoinbase)) = false
  /\ sponsoring exampleSponsorOptions exampleSponsoredCoinbase
     = (exampleSponsoredCoinbase, [],
        Err (JsError "Sponsored transactions not supported for transaction type Coinbase")).
Proof.
  split; [reflexivity |].
  exact (proj1 (sponsor_unsupported_payload exampleSponsorOptions exampleSponsoredCoinbase
                  eq_refl) eq_refl).
Defined.

Lemma sponsor_nonce_lookup_network_witness :
  let sponsorPubKey := privateKeyToPublic (nth 0 examplePrivKeys EmptyString) in
  let address :=
    publicKeyToAddress (singleSig (Network.addressVersion STACKS_TESTNET)) sponsorPubKey in
  let api := defaultApiFromNetwork (inr STACKS_TESTNET) None in
  In (GetNonce address api) (callsOf (sponsoring exampleSponsorOptions exampleSponsoredTransfer))
  /\ txVersion exampleSponsoredTransfer = TransactionVersion_Testnet
  /\ SponsorOptionsOpts.sponsorNonce exampleSponsorOptions = None.
Proof.
  intros sponsorPubKey address api.
  assert (In (GetNonce address api)
            (callsOf (sponsoring exampleSponsorOptions exampleSponsoredTransfer))) as Hin
    by (right; left; reflexivity).
  split; [exact Hin | split; [reflexivity |]].
  exact (proj1 (sponsor_nonce_lookup_network exampleSponsorOptions exampleSponsoredTransfer
                  address api Hin)).
Defined.

Lemma sponsor_returns_witness :
  exists object log result origin placeholder cond,
    sponsoring exampleSponsorOptions exampleSponsoredTransfer = (object, log, Ok result)
    /\ auth exampleSponsoredTransfer = SponsoredAuth origin placeholder
    /\ object = withAuth (SponsoredAuth origin cond) exampleSponsoredTransfer.
Proof.
  assert (isOk (resultOf (sponsoring exampleSponsorOptions exampleSponsoredTransfer))
          = true) as Hok by (vm_compute; reflexivity).
  destruct (sponsoring exampleSponsorOptions exampleSponsoredTransfer)
    as [[object log] [result|e]] eqn:Hrun; [|discriminate Hok].
  destruct (sponsor_returns exampleSponsorOptions exampleSponsoredTransfer object result
              log Hrun)
    as (origin & placeholder & cond & fee & nonce & signer & Hauth & _ & _ & _ & Hobject & _).
  exists object, log, result, origin, placeholder, cond. now repeat split.
Defined.

Lemma sponsor_standard_refused_late_witness :
  auth exampleStandardTransfer
  = StandardAuth (spendingCondition (auth exampleTransaction))
  /\ (forall result,
        resultOf (sponsoring exampleSponsorOptions exampleStandardTransfer) <> Ok result)
  /\ resultOf (sponsoring exampleSponsorOptions exampleStandardTransfer)
     = Err NotSponsoredError
  /\ List.length (callsOf (sponsoring exampleSponsorOptions exampleStandardTransfer))
     = 2%nat
  /\ objectAfter (sponsoring exampleSponsorOptions exampleStandardTransfer)
     = setFee 180 exampleStandardTransfer.
Proof.
  split; [reflexivity |].
  destruct (sponsor_standard_refused_late exampleSponsorOptions exampleStandardTransfer
              (spendingCondition (auth exampleTransaction)) eq_refl)
    as (Hnever & _ & Hlate).
  split; [exact Hnever |].
  destruct (Hlate 180 7
              (SingleSig SerializeP2PKH
                 (hash160 (addressOfPublicKeys 0 (SingleSigMode SerializeP2PKH) 1
                             [createStacksPublicKey
                                (privateKeyToPublic (nth 0 examplePrivKeys EmptyString))]))
                 7 180 Compressed emptyMessageSignature))
    as (Hresult & Hcalls & Hobject);
    [reflexivity | reflexivity | eexists; split; reflexivity | reflexivity |].
  split; [exact Hresult | split; [now rewrite Hcalls | exact Hobject]].
Defined.

(** No network is detected for a version that is neither of the two.
    With a nonce supplied the network is never read and the run returns;
    with the nonce left out, the fee is estimated and written first, and
    the read of the network throws after that. *)
Example sponsor_unknown_version_test :
  isOk (resultOf (sponsoring
                    (SponsorOptionsOpts.mk (nth 0 examplePrivKeys EmptyString) None
                       (Some 7) None None None)
                    exampleUnknownVersionTransfer))
  = true
  /\ List.map isEstimateFee
       (callsOf (sponsoring exampleSponsorOptions exampleUnknownVersionTransfer))
     = [true]
  /\ resultOf (sponsoring exampleSponsorOptions exampleUnknownVersionTransfer)
     = Err (JsError MSG_UNDEFINED_NETWORK)
  /\ objectAfter (sponsoring exampleSponsorOptions exampleUnknownVersionTransfer)
     = setFee 180 exampleUnknownVersionTransfer.
Proof.
  split; [vm_compute; reflexivity |]. split; [vm_compute; reflexivity |].
  split; [vm_compute; reflexivity |]. vm_compute. reflexivity.
Qed.

(** A network that is supplied as [undefined] overrides the default.  A
    builder then throws where it reads the version of the network, after
    the payload and the spending condition are made and before any
    collaborator is called; the sponsor, whose nonce is left out, throws
    where it reads the address version, after the estimate. *)
Example undefined_network_test :
  List.length (fst (run (makeUnsignedSTXTokenTransfer exampleTransferUndefinedNetwork)))
  = 0%nat
  /\ snd (run (makeUnsignedSTXTokenTransfer exampleTransferUndefinedNetwork))
     = Err (JsError (MSG_UNDEFINED_READ "transactionVersion"))
  /\ List.map isEstimateFee
       (callsOf (sponsoring
                   (SponsorOptionsOpts.mk (nth 0 examplePrivKeys EmptyString) None
                      None None (Some None) None)
                   exampleSponsoredTransfer))
     = [true]
  /\ resultOf (sponsoring
                 (SponsorOptionsOpts.mk (nth 0 examplePrivKeys EmptyString) None
                    None None (Some None) None)
                 exampleSponsoredTransfer)
     = Err (JsError MSG_UNDEFINED_NETWORK).
Proof.
  split; [vm_compute; reflexivity |]. split; [vm_compute; reflexivity |].
  split; vm_compute; reflexivity.
Qed.

End Examples.
